(** * yadg: EC-Lab [.mpt] extractor and Fusion zip extractor

    A shallow embedding of
    - [src/yadg/extractors/eclab/mpt.py] ([process_header], [process_data],
      [extract]),
    - [src/yadg/extractors/eclab/common/mpt_columns.py] ([column_units]),
    - [src/yadg/extractors/fusion/zip.py] ([extract], [merge_datatrees]),
    - [src/yadg/dgutils/utils.py] ([schema_3to4], and the loop over the
      paths of a step in [schema_from_preset]).

    Python values are modelled by [pyobj], Python exceptions by the error
    monad [pyres], Python [dict]s by insertion-ordered association lists and
    Python [float]s by binary64 primitive floats.  A character of a Python
    [str] is an [ascii] (a code point below 256, which is what the default
    ["windows-1252"] decoding of an [.mpt] file produces for every byte that
    matters to the parser). *)

From Stdlib Require Import ZArith String Ascii List Bool Lia Uint63 PrimFloat.
From Stdlib Require OrderedTypeEx.
From stdpp Require Import base option gmap strings list.
From stdpp Require sorting.

Import ListNotations.
Set Warnings "-register-all,-inexact-float,-clear-no-such-hyp".
Local Open Scope string_scope.
Local Open Scope Z_scope.

(** ** Python exceptions and the error monad *)

Module Py.

Inductive exn_class : Set :=
| AssertionError | IndexError | KeyError | ValueError | NumberFormatError
| TypeError | NotImplementedError | RuntimeError | MergeError
| UnknownLocaleError | OverflowError
| ModelError.

Record exn : Set := mk_exn { exn_cls : exn_class; exn_msg : string }.

(** [ModelError] is not a Python exception: it reports that the model was
    run on an ill-formed object store (a dangling reference) or with too
    little fuel. *)

(** [isinstance(e, C)] on the classes above: babel's [NumberFormatError] and
    xarray's [MergeError] both derive from [ValueError]. *)
Definition exn_class_eqb (a b : exn_class) : bool :=
  match a, b with
  | AssertionError, AssertionError | IndexError, IndexError
  | KeyError, KeyError | ValueError, ValueError
  | NumberFormatError, NumberFormatError | TypeError, TypeError
  | NotImplementedError, NotImplementedError | RuntimeError, RuntimeError
  | MergeError, MergeError | UnknownLocaleError, UnknownLocaleError
  | OverflowError, OverflowError | ModelError, ModelError => true
  | _, _ => false
  end.

Definition subclass (c parent : exn_class) : bool :=
  exn_class_eqb c parent ||
  match c, parent with
  | NumberFormatError, ValueError => true
  | MergeError, ValueError => true
  | _, _ => false
  end.

Definition isinstance (e : exn) (c : exn_class) : bool := subclass (exn_cls e) c.

Inductive pyres (A : Type) : Type :=
| Ret (a : A)
| Raise (e : exn).
Arguments Ret {A} a.
Arguments Raise {A} e.

#[global] Instance pyres_ret : MRet pyres := fun A a => Ret a.
#[global] Instance pyres_bind : MBind pyres := fun A B f m =>
  match m with
  | Ret a => f a
  | Raise e => Raise e
  end.

Definition raise {A} (c : exn_class) (msg : string) : pyres A :=
  Raise (mk_exn c msg).

(** [assert cond, msg] *)
Definition py_assert (cond : bool) (msg : string) : pyres unit :=
  if cond then Ret tt else raise AssertionError msg.

Definition is_ret {A} (r : pyres A) : bool :=
  match r with Ret _ => true | Raise _ => false end.

Fixpoint mapM {A B} (f : A → pyres B) (l : list A) : pyres (list B) :=
  match l with
  | [] => Ret []
  | x :: r => y ← f x; ys ← mapM f r; Ret (y :: ys)
  end.

Fixpoint foldM {A S} (f : S → A → pyres S) (s : S) (l : list A) : pyres S :=
  match l with
  | [] => Ret s
  | x :: r => s' ← f s x; foldM f s' r
  end.

(** ** Python values *)

Inductive pyobj : Type :=
| PNone
| PBool (b : bool)
| PInt (z : Z)
| PFloat (f : float)
| PStr (s : string)
| PList (l : list pyobj)
| PDict (d : list (string * pyobj)).

(** A [dict] with [str] keys, in insertion order. *)
Definition dict (V : Type) : Type := list (string * V).

Fixpoint dict_get {V} (d : dict V) (k : string) : option V :=
  match d with
  | [] => None
  | (k', v) :: r => if String.eqb k' k then Some v else dict_get r k
  end.

Definition dict_mem {V} (d : dict V) (k : string) : bool :=
  match dict_get d k with Some _ => true | None => false end.

(** [d[k] = v]: overwrite in place, or append a new key. *)
Fixpoint dict_set {V} (d : dict V) (k : string) (v : V) : dict V :=
  match d with
  | [] => [(k, v)]
  | (k', v') :: r =>
      if String.eqb k' k then (k', v) :: r else (k', v') :: dict_set r k v
  end.

Fixpoint dict_del {V} (d : dict V) (k : string) : dict V :=
  match d with
  | [] => []
  | (k', v') :: r => if String.eqb k' k then r else (k', v') :: dict_del r k
  end.

Definition dict_keys {V} (d : dict V) : list string := map fst d.

(** [d.update(e)] *)
Definition dict_update {V} (d e : dict V) : dict V :=
  fold_left (fun acc kv => dict_set acc (fst kv) (snd kv)) e d.

(** [dict(zip(keys, values))] *)
Definition dict_of_zip {V} (keys : list string) (values : list V) : dict V :=
  dict_update [] (combine keys values).

(** [d[k]], raising [KeyError]. *)
Definition dict_item {V} (d : dict V) (k : string) : pyres V :=
  match dict_get d k with
  | Some v => Ret v
  | None => raise KeyError k
  end.

(** ** Python sequences: indexing and slicing with possibly negative bounds *)

Definition len {A} (l : list A) : Z := Z.of_nat (length l).

(** [l[i]] *)
Definition list_item {A} (l : list A) (i : Z) : pyres A :=
  let j := if i <? 0 then i + len l else i in
  if j <? 0 then raise IndexError "list index out of range"
  else match nth_error l (Z.to_nat j) with
       | Some x => Ret x
       | None => raise IndexError "list index out of range"
       end.

(** The clamping of a slice bound. *)
Definition slice_bound (n : Z) (i : Z) : nat :=
  if i <? 0 then Z.to_nat (Z.max 0 (n + i)) else Z.to_nat (Z.min i n).

(** [l[:i]] and [l[i:]] *)
Definition slice_to {A} (l : list A) (i : Z) : list A :=
  firstn (slice_bound (len l) i) l.
Definition slice_from {A} (l : list A) (i : Z) : list A :=
  skipn (slice_bound (len l) i) l.

(** [range(a, b)] *)
Definition range (a b : Z) : list Z :=
  map (fun k => a + Z.of_nat k) (seq 0 (Z.to_nat (b - a))).

(** ** Python strings *)

Definition str_len (s : string) : Z := Z.of_nat (String.length s).

(** [str.isspace] on one character (code points below 256). *)
Definition is_space (c : ascii) : bool :=
  let n := nat_of_ascii c in
  ((9 <=? n) && (n <=? 13) || (28 <=? n) && (n <=? 32)
   || (n =? 133) || (n =? 160))%nat.

Fixpoint lstrip (s : string) : string :=
  match s with
  | String c r => if is_space c then lstrip r else s
  | EmptyString => EmptyString
  end.

Fixpoint rstrip (s : string) : string :=
  match s with
  | EmptyString => EmptyString
  | String c r =>
      match rstrip r with
      | EmptyString => if is_space c then EmptyString else String c EmptyString
      | r' => String c r'
      end
  end.

(** [s.strip()] *)
Definition strip (s : string) : string := rstrip (lstrip s).

Definition startswith (s p : string) : bool := String.prefix p s.

Definition endswith (s p : string) : bool :=
  let n := String.length s in
  let m := String.length p in
  (m <=? n)%nat && String.eqb (String.substring (n - m) m s) p.

(** [sep.join(l)] *)
Definition join (sep : string) (l : list string) : string := String.concat sep l.

(** [s[a:b]] for [0 <= a <= b]. *)
Definition str_slice (s : string) (a b : Z) : string :=
  String.substring (Z.to_nat a) (Z.to_nat (b - a)) s.

(** [s.split(sep)] for a non-empty separator: the pieces between the
    left-to-right, non-overlapping occurrences of [sep].  [skip] counts the
    characters of a matched separator still to be dropped. *)
Fixpoint split_go (sep s : string) (skip : nat) : list string :=
  match s with
  | EmptyString => [EmptyString]
  | String c r =>
      match skip with
      | S k => split_go sep r k
      | O =>
          if String.prefix sep s
          then EmptyString :: split_go sep r (String.length sep - 1)
          else match split_go sep r 0 with
               | h :: t => String c h :: t
               | [] => [String c EmptyString]
               end
      end
  end.

Definition split (s sep : string) : list string := split_go sep s 0.

(** [s.split()]: the maximal runs of non-blank characters. *)
Fixpoint split_ws_go (s : string) (cur : string) : list string :=
  let flush (rest : list string) :=
    match cur with EmptyString => rest | _ => cur :: rest end in
  match s with
  | EmptyString => flush []
  | String c r =>
      if is_space c then flush (split_ws_go r EmptyString)
      else split_ws_go r (cur ++ String c EmptyString)
  end.

Definition split_ws (s : string) : list string := split_ws_go s EmptyString.

(** [int(s)] for a [str]: the blanks of [int()] skipped, an optional sign,
    then decimal digits which single underscores may separate. *)
Definition digit_of (c : ascii) : option Z :=
  let n := nat_of_ascii c in
  if ((48 <=? n) && (n <=? 57))%nat then Some (Z.of_nat n - 48) else None.

Fixpoint digits_go (s : string) (acc : Z) (prev_digit : bool) : option Z :=
  match s with
  | EmptyString => if prev_digit then Some acc else None
  | String c r =>
      match digit_of c with
      | Some d => digits_go r (10 * acc + d) true
      | None =>
          if (Ascii.eqb c "_" && prev_digit)%bool then digits_go r acc false
          else None
      end
  end.

(** The blanks [int()] skips around a number: of the characters below 127
    those of C's [isspace], of the others those of [str.isspace].  The
    separators 28 to 31, which [str.strip] removes, are not among them. *)
Definition is_int_space (c : ascii) : bool :=
  let n := nat_of_ascii c in
  ((9 <=? n) && (n <=? 13) || (n =? 32) || (n =? 133) || (n =? 160))%nat.

Fixpoint int_lstrip (s : string) : string :=
  match s with
  | String c r => if is_int_space c then int_lstrip r else s
  | EmptyString => EmptyString
  end.

Fixpoint int_rstrip (s : string) : string :=
  match s with
  | EmptyString => EmptyString
  | String c r =>
      match int_rstrip r with
      | EmptyString => if is_int_space c then EmptyString else String c EmptyString
      | r' => String c r'
      end
  end.

Definition int_of_str (s : string) : pyres Z :=
  let body := int_rstrip (int_lstrip s) in
  let parsed :=
    match body with
    | String "-" r => Z.opp <$> digits_go r 0 false
    | String "+" r => digits_go r 0 false
    | _ => digits_go body 0 false
    end in
  match parsed with
  | Some z => Ret z
  | None => raise ValueError ("invalid literal for int() with base 10: " ++ s)
  end.

(** [re.search(prefix + "(?P<val>.+)", text)["val"]]: the first place where
    the literal [prefix] is followed by at least one character other than a
    newline; the group runs to the end of that line. *)
Fixpoint until_newline (s : string) : string :=
  match s with
  | EmptyString => EmptyString
  | String c r => if Ascii.eqb c "010" then EmptyString else String c (until_newline r)
  end.

Fixpoint search_after (pre : string) (text : string) : option string :=
  let here :=
    if String.prefix pre text
    then match until_newline
                 (String.substring (String.length pre)
                    (String.length text - String.length pre) text) with
         | EmptyString => None
         | v => Some v
         end
    else None in
  match here with
  | Some v => Some v
  | None =>
      match text with
      | EmptyString => None
      | String _ r => search_after pre r
      end
  end.

End Py.

(** ** The column table of [mpt_columns.py] *)

Module Columns.
Import Py.

(** The double-quote character, which the first label contains. *)
Definition dq : string := String "034" EmptyString.

(** The micro sign of six labels: one character, code point 181, as in
    the text of a file. *)
Definition micro : string := String "181" EmptyString.

(** [column_units]: raw column label ↦ (canonical name, unit or [None]).
    The labels are what is looked up with the text of a file, so they are
    written character by character.  The canonical names and the units,
    some of which hold characters beyond code point 255, are only ever
    compared with each other and with ASCII literals; they are kept as the
    bytes of their UTF-8 form. *)
Definition column_units : dict (string * option string) :=
  [
    ((dq ++ "Ri" ++ dq ++ "/Ohm"), ("'Ri'", Some "Ω"));
    ("Im(C)/nF", ("Im(C)", Some "nF"));
    ("Im(Conductivity)/mS/cm", ("Im(Conductivity)", Some "mS/cm"));
    ("Im(M)", ("Im(M)", Some EmptyString));
    ("Im(Permittivity)", ("Im(Permittivity)", Some EmptyString));
    ("Im(Resistivity)/Ohm.cm", ("Im(Resistivity)", Some "Ω·cm"));
    ("-Im(Z)/Ohm", ("-Im(Z)", Some "Ω"));
    ("-Im(Zce)/Ohm", ("-Im(Zce)", Some "Ω"));
    ("-Im(Zwe-ce)/Ohm", ("-Im(Zwe-ce)", Some "Ω"));
    ("(Q-Qo)/C", ("(Q-Qo)", Some "C"));
    ("(Q-Qo)/mA.h", ("(Q-Qo)", Some "mA·h"));
    ("<Ece>/V", ("<Ece>", Some "V"));
    ("<Ewe>/V", ("<Ewe>", Some "V"));
    ("<I>/mA", ("<I>", Some "mA"));
    ("|C|/nF", ("|C|", Some "nF"));
    ("|Conductivity|/mS/cm", ("|Conductivity|", Some "mS/cm"));
    ("|Ece|/V", ("|Ece|", Some "V"));
    ("|Energy|/W.h", ("|Energy|", Some "W·h"));
    ("|Ewe|/V", ("|Ewe|", Some "V"));
    ("|I|/A", ("|I|", Some "A"));
    ("|M|", ("|M|", Some EmptyString));
    ("|Permittivity|", ("|Permittivity|", Some EmptyString));
    ("|Resistivity|/Ohm.cm", ("|Resistivity|", Some "Ω·cm"));
    ("|Y|/Ohm-1", ("|Y|", Some "S"));
    ("|Z|/Ohm", ("|Z|", Some "Ω"));
    ("|Zce|/Ohm", ("|Zce|", Some "Ω"));
    ("|Zwe-ce|/Ohm", ("|Zwe-ce|", Some "Ω"));
    ("Analog IN 1/V", ("Analog IN 1", Some "V"));
    ("Analog IN 2/V", ("Analog IN 2", Some "V"));
    (("Capacitance charge/" ++ micro ++ "F"), ("Capacitance charge", Some "µF"));
    (("Capacitance discharge/" ++ micro ++ "F"), ("Capacitance discharge", Some "µF"));
    ("Capacity/mA.h", ("Capacity", Some "mA·h"));
    ("charge time/s", ("charge time", Some "s"));
    ("Conductivity/S.cm-1", ("Conductivity", Some "S/cm"));
    ("control changes", ("control changes", None));
    ("control/mA", ("control_I", Some "mA"));
    ("control/V", ("control_V", Some "V"));
    ("control/V/mA", ("control_VI", Some "mA"));
    ("counter inc.", ("counter inc.", None));
    (("Cp-2/" ++ micro ++ "F-2"), ("Cp⁻²", Some "µF⁻²"));
    (("Cp/" ++ micro ++ "F"), ("Cp", Some "µF"));
    (("Cs-2/" ++ micro ++ "F-2"), ("Cs⁻²", Some "µF⁻²"));
    (("Cs/" ++ micro ++ "F"), ("Cs", Some "µF"));
    ("cycle number", ("cycle number", None));
    ("cycle time/s", ("cycle time", Some "s"));
    ("d(Q-Qo)/dE/mA.h/V", ("d(Q-Qo)/dE", Some "mA·h/V"));
    ("dI/dt/mA/s", ("dI/dt", Some "mA/s"));
    ("discharge time/s", ("discharge time", Some "s"));
    ("dQ/C", ("dQ", Some "C"));
    ("dq/mA.h", ("dq", Some "mA·h"));
    ("dQ/mA.h", ("dQ", Some "mA·h"));
    ("Ece/V", ("Ece", Some "V"));
    ("Ecell/V", ("Ecell", Some "V"));
    ("Efficiency/%", ("Efficiency", Some "%"));
    ("Energy charge/W.h", ("Energy charge", Some "W·h"));
    ("Energy discharge/W.h", ("Energy discharge", Some "W·h"));
    ("Energy/W.h", ("Energy", Some "W·h"));
    ("error", ("error", None));
    ("Ewe-Ece/V", ("Ewe-Ece", Some "V"));
    ("Ewe/V", ("Ewe", Some "V"));
    ("freq/Hz", ("freq", Some "Hz"));
    ("half cycle", ("half cycle", None));
    ("I Range", ("I Range", None));
    ("I/mA", ("I", Some "mA"));
    ("Im(Y)/Ohm-1", ("Im(Y)", Some "S"));
    ("Loss Angle(Delta)/deg", ("Loss Angle(Delta)", Some "deg"));
    ("mode", ("mode", None));
    ("Ns changes", ("Ns changes", None));
    ("Ns", ("Ns", None));
    ("NSD Ewe/%", ("NSD Ewe", Some "%"));
    ("NSD I/%", ("NSD I", Some "%"));
    ("NSR Ewe/%", ("NSR Ewe", Some "%"));
    ("NSR I/%", ("NSR I", Some "%"));
    ("ox/red", ("ox or red", None));
    ("P/W", ("P", Some "W"));
    ("Phase(C)/deg", ("Phase(C)", Some "deg"));
    ("Phase(Conductivity)/deg", ("Phase(Conductivity)", Some "deg"));
    ("Phase(M)/deg", ("Phase(M)", Some "deg"));
    ("Phase(Permittivity)/deg", ("Phase(Permittivity)", Some "deg"));
    ("Phase(Resistivity)/deg", ("Phase(Resistivity)", Some "deg"));
    ("Phase(Y)/deg", ("Phase(Y)", Some "deg"));
    ("Phase(Z)/deg", ("Phase(Z)", Some "deg"));
    ("Phase(Zce)/deg", ("Phase(Zce)", Some "deg"));
    ("Phase(Zwe-ce)/deg", ("Phase(Zwe-ce)", Some "deg"));
    ("Q charge/discharge/mA.h", ("Q charge or discharge", Some "mA·h"));
    ("Q charge/mA.h", ("Q charge", Some "mA·h"));
    ("Q charge/mA.h/g", ("Q charge", Some "mA·h/g"));
    ("Q discharge/mA.h", ("Q discharge", Some "mA·h"));
    ("Q discharge/mA.h/g", ("Q discharge", Some "mA·h/g"));
    ("R/Ohm", ("R", Some "Ω"));
    ("Rcmp/Ohm", ("Rcmp", Some "Ω"));
    ("Re(C)/nF", ("Re(C)", Some "nF"));
    ("Re(Conductivity)/mS/cm", ("Re(Conductivity)", Some "mS/cm"));
    ("Re(M)", ("Re(M)", Some EmptyString));
    ("Re(Permittivity)", ("Re(Permittivity)", Some EmptyString));
    ("Re(Resistivity)/Ohm.cm", ("Re(Resistivity)", Some "Ω·cm"));
    ("Re(Y)/Ohm-1", ("Re(Y)", Some "S"));
    ("Re(Z)/Ohm", ("Re(Z)", Some "Ω"));
    ("Re(Zce)/Ohm", ("Re(Zce)", Some "Ω"));
    ("Re(Zwe-ce)/Ohm", ("Re(Zwe-ce)", Some "Ω"));
    ("step time/s", ("step time", Some "s"));
    ("Tan(Delta)", ("Tan(Delta)", Some EmptyString));
    ("THD Ewe/%", ("THD Ewe", Some "%"));
    ("THD I/%", ("THD I", Some "%"));
    ("time/s", ("time", Some "s"));
    ("x", ("x", None));
    ("z cycle", ("z cycle", None))
  ].

#[global] Arguments column_units : simpl never.

End Columns.

(** ** The EC-Lab [.mpt] extractor, [mpt.py] *)

Module Mpt.
Import Py Columns.

Definition nl : string := String "010" EmptyString.
Definition tab : string := String "009" EmptyString.

(** The functions [mpt.py] imports and whose code is not part of the
    embedded sources: babel's [parse_decimal] (with the [Decimal] it returns
    and Python's [float()] and [int()] on it, which raise for a signalling
    NaN and, [int()], for an infinity), [technique_params],
    [param_from_key] and [get_resolution] of [.common.techniques],
    [dgutils.str_to_uts] called with [strict=False] (a null result stands
    for "no match"), and the rendering of a value inside an f-string. *)
Class MptEnv : Type := {
  Decimal : Type;
  parse_decimal : string → string → pyres Decimal;
  float_of_decimal : Decimal → pyres float;
  int_of_decimal : Decimal → pyres Z;
  technique_params : string → list string → pyres (string * list string);
  param_from_key : string → pyobj → bool → pyres pyobj;
  get_resolution : string → float → string → pyobj → pyobj → pyres float;
  str_to_uts : string → string → string → option float;
  format_value : pyobj → string
}.

(** *** The assembled table ([xarray.Dataset]) *)

(** One variable along the row axis: its values, the uncertainties paired
    with them when the column has a unit, and the unit. *)
Record DataArray : Type := mk_da {
  da_values : list pyobj;
  da_sigma : option (list pyobj);
  da_units : option string
}.

Record Dataset : Type := mk_ds {
  ds_coords : dict (list pyobj);
  ds_vars : dict DataArray;
  ds_attrs : dict pyobj
}.

(** Modelled from the spec: [dgutils.append_dicts], whose code is missing.
    Section 4.6: a row supplies column ↦ value and column ↦ sigma; a column
    absent from a row is null for that row.  [li] is the index of the row
    being appended, so a column first seen at row [li] is null before. *)
Definition append_column (li : Z) (row : dict pyobj) (data : dict (list pyobj))
  : dict (list pyobj) :=
  let padded := map (fun kv : string * list pyobj =>
                       (fst kv, (snd kv ++ [default PNone (dict_get row (fst kv))])%list)) data in
  fold_left (fun acc kv =>
               if dict_mem data (fst kv) then acc
               else (acc ++ [(fst kv, repeat PNone (Z.to_nat li) ++ [snd kv])])%list)
            row padded.

(** Modelled from the spec: [dgutils.append_dicts] appends the values and
    the uncertainties of one row, each to its own table. *)
Definition append_dicts (vals devs : dict pyobj)
    (data meta : dict (list pyobj)) (li : Z)
  : dict (list pyobj) * dict (list pyobj) :=
  (append_column li vals data, append_column li devs meta).

(** Modelled from the spec: [dgutils.dicts_to_dataset], whose code is
    missing.  Section 4.6: columns with a unit are a value paired with its
    uncertainty, columns without one are plain; the result exposes the
    [fulldate] attribute it is given. *)
Definition dicts_to_dataset (data meta : dict (list pyobj))
    (units : dict string) (fulldate : bool) : Dataset :=
  {| ds_coords := [];
     ds_vars := map (fun kv : string * list pyobj =>
                       (fst kv, {| da_values := snd kv;
                                   da_sigma := dict_get meta (fst kv);
                                   da_units := dict_get units (fst kv) |})) data;
     ds_attrs := [("fulldate", PBool fulldate)] |}.

(** [name in ds] *)
Definition ds_contains (ds : Dataset) (name : string) : bool :=
  dict_mem (ds_vars ds) name || dict_mem (ds_coords ds) name.

(** [a + b] and [a - b] on the operands this module produces: both are
    [float]s, or the operation is a [TypeError] ([str], [None]). *)
Definition py_add (a b : pyobj) : pyres pyobj :=
  match a, b with
  | PFloat x, PFloat y => Ret (PFloat (x + y)%float)
  | _, _ => raise TypeError "unsupported operand type(s) for +"
  end.

Definition py_sub (a b : pyobj) : pyres pyobj :=
  match a, b with
  | PFloat x, PFloat y => Ret (PFloat (x - y)%float)
  | _, _ => raise TypeError "unsupported operand type(s) for -"
  end.

(** [ds["uts"] = values]: a variable named like the row dimension becomes
    its coordinate; xarray refuses a length that conflicts with the
    variables already laid out along that dimension. *)
Definition ds_set_uts (ds : Dataset) (values : list pyobj) : pyres Dataset :=
  if forallb (fun kv : string * DataArray =>
                (length (da_values (snd kv)) =? length values)%nat) (ds_vars ds)
  then Ret {| ds_coords := dict_set (ds_coords ds) "uts" values;
              ds_vars := ds_vars ds;
              ds_attrs := ds_attrs ds |}
  else raise ValueError "conflicting sizes for dimension 'uts'".

Definition ds_with_attrs (ds : Dataset) (a : dict pyobj) : Dataset :=
  {| ds_coords := ds_coords ds; ds_vars := ds_vars ds; ds_attrs := a |}.

Section Extractor.
Context {env : MptEnv}.

(** *** [process_header] *)

(** [float(parse_decimal(value, locale=locale))]: both calls can raise. *)
Definition to_float (value locale : string) : pyres float :=
  d ← parse_decimal value locale;
  float_of_decimal d.

(** Lines 106-111: one 20-character field of a parameter line. *)
Definition parse_param (locale param : string) (seq : Z) : pyres pyobj :=
  let val := str_slice param (seq * 20) ((seq + 1) * 20) in
  match to_float val locale with
  | Ret f => Ret (PFloat f)
  | Raise e => if isinstance e ValueError then Ret (PStr (strip val)) else Raise e
  end.

(** Lines 100-113: the per-sequence parameter mappings. *)
Definition sequence_params (params params_keys : list string) (locale : string)
  : pyres (list (dict pyobj)) :=
  p0 ← list_item params 0;
  let n_sequences := str_len p0 / 20 in
  params_values ←
    mapM (fun seq => mapM (fun param => parse_param locale param seq) params)
         (range 1 n_sequences);
  Ret (map (dict_of_zip params_keys) params_values).

Definition timestamp_formats : list string :=
  ["%m/%d/%Y %H:%M:%S"; "%m.%d.%Y %H:%M:%S"; "%m/%d/%Y %H:%M:%S.%f"].

(** Lines 120-125: the loop over the formats, left at the first result
    that is not [None]. *)
Fixpoint first_uts (timestamp timezone : string) (formats : list string)
  : option float :=
  match formats with
  | [] => None
  | format :: rest =>
      match str_to_uts timestamp format timezone with
      | Some uts => Some uts
      | None => first_uts timestamp timezone rest
      end
  end.

(** Lines 116-127. *)
Definition acquisition_uts (settings_lines : list string) (timezone : string)
  : pyres float :=
  match search_after "Acquisition started on : " (join nl settings_lines) with
  | None => raise TypeError "'NoneType' object is not subscriptable"
  | Some timestamp =>
      match first_uts timestamp timezone timestamp_formats with
      | Some uts => Ret uts
      | None =>
          raise NotImplementedError
                ("Time format for " ++ timestamp ++ " not implemented.")
      end
  end.

(** Lines 129-138. *)
Definition loops_section (sections : list string) : pyres pyobj :=
  if 4 <=? len sections then
    last ← list_item sections (-1);
    if startswith last "Number of loops : " then
      let loops_lines := split last nl in
      l0 ← list_item loops_lines 0;
      n_str ← list_item (split l0 ":") (-1);
      n_loops ← int_of_str n_str;
      indexes ←
        mapM (fun n =>
                ln ← list_item loops_lines (n + 1);
                h ← list_item (split ln "to") 0;
                index ← list_item (split_ws h) (-1);
                int_of_str index)
             (range 0 n_loops);
      Ret (PDict [("n_loops", PInt n_loops);
                  ("indexes", PList (map PInt indexes))])
    else Ret PNone
  else Ret PNone.

Definition header_sections (lines : list string) : list string :=
  split (join nl lines) (nl ++ nl).

Definition process_header (lines : list string) (timezone locale : string)
  : pyres (dict pyobj * list (dict pyobj) * pyobj) :=
  let sections := header_sections lines in
  s1 ← list_item sections 1;
  _ ← py_assert (negb (startswith s1 "Number of loops : ")) "no settings present";
  _ ← py_assert (3 <=? len sections) "no settings present";
  let technique := strip s1 in
  s2 ← list_item sections 2;
  let settings_lines := split s2 nl in
  tk ← technique_params technique settings_lines;
  let technique := fst tk in
  let params_keys := snd tk in
  let params := slice_from settings_lines (- len params_keys) in
  params ← sequence_params params params_keys locale;
  let settings_lines := map strip (slice_to settings_lines (- len params_keys)) in
  uts ← acquisition_uts settings_lines timezone;
  loops ← loops_section sections;
  Ret ([("posix_timestamp", PFloat uts);
        ("technique", PStr technique);
        ("raw", PStr (join nl lines))], params, loops).

(** *** [process_data] *)

(** Lines 174-181: canonical names in column order, and the unit table. *)
Definition column_table (names : list string) : pyres (list string * dict string) :=
  foldM (fun (st : list string * dict string) n =>
           cu ← dict_item column_units n;
           Ret ((fst st ++ [fst cu])%list,
                match snd cu with
                | Some u => dict_set (snd st) (fst cu) u
                | None => snd st
                end))
        ([], []) names.

(** Lines 189-201: one value of a data line. *)
Definition parse_cell (units : dict string) (locale name value : string)
  : pyres pyobj :=
  match dict_get units name with
  | None =>
      d ← parse_decimal value locale;
      ival ← int_of_decimal d;
      if String.eqb name "I Range"
      then param_from_key "I_range" (PInt ival) true
      else Ret (PInt ival)
  | Some _ =>
      match to_float value locale with
      | Ret fval => Ret (PFloat fval)
      | Raise e =>
          if isinstance e ValueError then Ret (PStr (strip value)) else Raise e
      end
  end.

(** Lines 186-201: the [vals] of one line. *)
Definition row_vals (units : dict string) (locale : string)
    (columns values : list string) : pyres (dict pyobj) :=
  foldM (fun vals (nv : string * string) =>
           v ← parse_cell units locale (fst nv) (snd nv);
           Ret (dict_set vals (fst nv) v))
        [] (combine columns values).

(** [l[i]] for an index held in a Python value. *)
Definition list_item_obj {A} (l : list A) (i : pyobj) : pyres A :=
  match i with
  | PInt z => list_item l z
  | PBool b => list_item l (if b then 1 else 0)
  | _ => raise TypeError "list indices must be integers or slices"
  end.

(** Lines 202-210. *)
Definition row_ranges (Eranges Iranges : list pyobj) (vals : dict pyobj)
  : pyres (pyobj * pyobj) :=
  ei ← (if dict_mem vals "Ns"
        then ns ← dict_item vals "Ns";
             e ← list_item_obj Eranges ns;
             i ← list_item_obj Iranges ns;
             Ret (e, i)
        else e ← list_item Eranges 0;
             i ← list_item Iranges 0;
             Ret (e, i));
  let Irstr := match dict_get vals "I Range" with
               | Some v => v
               | None => snd ei
               end in
  Irange ← param_from_key "I_range" Irstr false;
  Ret (fst ei, Irange).

Definition is_I_or_C (icv : pyobj) : bool :=
  match icv with
  | PStr s => String.eqb s "I" || String.eqb s "C"
  | _ => false
  end.

(** Lines 212-216: the renaming of a ["control_V_I"] column. *)
Definition rename_control (controls : list pyobj)
    (vals : dict pyobj) (units : dict string)
  : pyres (dict pyobj * dict string) :=
  if dict_mem vals "control_V_I" then
    ns ← dict_item vals "Ns";
    icv ← list_item_obj controls ns;
    let name := "control_" ++ format_value icv in
    v ← dict_item vals "control_V_I";
    Ret (dict_set (dict_del vals "control_V_I") name v,
         dict_set units name (if is_I_or_C icv then "mA" else "V"))
  else Ret (vals, units).

(** Lines 217-222. *)
Definition row_devs (units : dict string) (vals : dict pyobj)
    (Erange Irange : pyobj) : pyres (dict pyobj) :=
  foldM (fun devs (cv : string * pyobj) =>
           match dict_get units (fst cv) with
           | None => Ret devs
           | Some unit =>
               match snd cv with
               | PFloat val =>
                   s ← get_resolution (fst cv) val unit Erange Irange;
                   Ret (dict_set devs (fst cv) (PFloat s))
               | _ => raise AssertionError "`n` should not be string"
               end
           end)
        [] vals.

(** The state carried through the loop over the data lines: [units],
    [allvals] and [allmeta]. *)
Record acc : Type := mk_acc {
  acc_units : dict string;
  allvals : dict (list pyobj);
  allmeta : dict (list pyobj)
}.

(** Lines 185-224: the body of the loop, for line number [li]. *)
Definition process_row (Eranges Iranges controls : list pyobj)
    (locale : string) (columns : list string)
    (st : acc) (row : Z * string) : pyres acc :=
  let values := split (snd row) tab in
  vals ← row_vals (acc_units st) locale columns values;
  ei ← row_ranges Eranges Iranges vals;
  vu ← rename_control controls vals (acc_units st);
  devs ← row_devs (snd vu) (fst vu) (fst ei) (snd ei);
  let dm := append_dicts (fst vu) devs (allvals st) (allmeta st) (fst row) in
  Ret {| acc_units := snd vu; allvals := fst dm; allmeta := snd dm |}.

(** [enumerate(l)] *)
Definition enumerate {A} (l : list A) : list (Z * A) :=
  combine (range 0 (len l)) l.

(** Lines 174-224: everything before the call of [dicts_to_dataset]. *)
Definition process_rows (lines : list string)
    (Eranges Iranges controls : list pyobj) (locale : string) : pyres acc :=
  header ← list_item lines 1;
  let names := slice_to (split header tab) (-1) in
  cu ← column_table names;
  let data_lines := slice_from lines 2 in
  foldM (process_row Eranges Iranges controls locale (fst cu))
        {| acc_units := snd cu; allvals := []; allmeta := [] |}
        (enumerate data_lines).

Definition process_data (lines : list string)
    (Eranges Iranges controls : list pyobj) (locale : string) : pyres Dataset :=
  st ← process_rows lines Eranges Iranges controls locale;
  Ret (dicts_to_dataset (allvals st) (allmeta st) (acc_units st) false).

(** *** [extract] *)

Definition file_magic : string := "EC-Lab ASCII FILE" ++ nl.

(** What the two branches of lines 268-292 hand on. *)
Record header_info : Type := mk_header_info {
  hi_settings : dict pyobj;
  hi_params : list (dict pyobj);
  hi_start_time : pyobj;
  hi_fulldate : bool;
  hi_Eranges : list pyobj;
  hi_Iranges : list pyobj;
  hi_ctrls : list pyobj
}.

(** Lines 270-274. *)
Definition no_header : header_info :=
  {| hi_settings := []; hi_params := [];
     hi_start_time := PFloat 0%float; hi_fulldate := false;
     hi_Eranges := [PFloat 20%float]; hi_Iranges := [PStr "Auto"];
     hi_ctrls := [PNone] |}.

(** Lines 282-292: the ranges and the control of every sequence. *)
Definition sequence_ranges (params : list (dict pyobj))
  : pyres (list pyobj * list pyobj * list pyobj) :=
  foldM (fun (st : list pyobj * list pyobj * list pyobj) (el : dict pyobj) =>
           let E_range_max := default (PFloat infinity) (dict_get el "E_range_max") in
           let E_range_min := default (PFloat neg_infinity) (dict_get el "E_range_min") in
           e ← py_sub E_range_max E_range_min;
           let i := default (PStr "Auto") (dict_get el "I_range") in
           let c := match dict_get el "set_I/C" with
                    | Some v => v
                    | None => default PNone (dict_get el "apply_I/C")
                    end in
           Ret ((fst (fst st) ++ [e])%list, (snd (fst st) ++ [i])%list,
                (snd st ++ [c])%list))
        ([], [], []) params.

(** Lines 276-292. *)
Definition with_header (header_lines : list string) (timezone locale : string)
  : pyres header_info :=
  h ← process_header header_lines timezone locale;
  let settings := fst (fst h) in
  let params := snd (fst h) in
  r ← sequence_ranges params;
  Ret {| hi_settings := settings; hi_params := params;
         hi_start_time := default PNone (dict_get settings "posix_timestamp");
         hi_fulldate := true;
         hi_Eranges := fst (fst r); hi_Iranges := snd (fst r);
         hi_ctrls := snd r |}.

(** [ds[name]] *)
Definition ds_item (ds : Dataset) (name : string) : pyres (list pyobj) :=
  match dict_get (ds_vars ds) name with
  | Some da => Ret (da_values da)
  | None => dict_item (ds_coords ds) name
  end.

(** Lines 298-304. *)
Definition finish (ds : Dataset) (hi : header_info) : pyres Dataset :=
  ds ← (if ds_contains ds "time"
        then t ← ds_item ds "time";
             u ← mapM (fun v => py_add v (hi_start_time hi)) t;
             ds_set_uts ds u
        else ds_set_uts ds [hi_start_time hi]);
  attrs ← (if hi_fulldate hi
           then _ ← dict_item (ds_attrs ds) "fulldate";
                Ret (dict_del (ds_attrs ds) "fulldate")
           else Ret (ds_attrs ds));
  Ret (ds_with_attrs ds
         (dict_update attrs
            [("settings", PDict (hi_settings hi));
             ("params", PList (map PDict (hi_params hi)))])).

(** Lines 259-261: what follows the magic, split into lines. *)
Definition body_lines (contents : string) : list string :=
  let n := String.length file_magic in
  split (String.substring n (String.length contents - n) contents) nl.

(** Line 262: [int(lines[0].split()[-1])]. *)
Definition declared_count (lines : list string) : pyres Z :=
  l0 ← list_item lines 0;
  w ← list_item (split_ws l0) (-1);
  int_of_str w.

(** [extract], on the decoded text [contents] of the file [fn]. *)
Definition extract (contents locale timezone : string) : pyres Dataset :=
  _ ← py_assert (String.eqb (String.substring 0 (String.length file_magic) contents)
                            file_magic)
                "invalid file magic";
  let lines := body_lines contents in
  nb_header_lines ← declared_count lines;
  let header_lines := slice_to lines (nb_header_lines - 3) in
  let data_lines := slice_from lines (nb_header_lines - 3) in
  hi ← (if nb_header_lines <=? 3 then Ret no_header
        else with_header header_lines timezone locale);
  ds ← process_data data_lines (hi_Eranges hi) (hi_Iranges hi) (hi_ctrls hi) locale;
  finish ds hi.

(** *** Vocabulary of the statements about this module *)

(** The 20-character field of sequence column [seq] in a parameter line. *)
Definition field (param : string) (seq : Z) : string :=
  str_slice param (seq * 20) ((seq + 1) * 20).

(** [v] is what numeric parsing with the string fallback makes of the text
    [val]: the number when [parse_decimal] and [float()] both succeed, the
    stripped text when one of them raises a [ValueError]. *)
Definition parsed_or_stripped (locale val : string) (v : pyobj) : Prop :=
  (∃ d f, parse_decimal val locale = Ret d ∧ float_of_decimal d = Ret f ∧
          v = PFloat f) ∨
  (∃ e, to_float val locale = Raise e ∧ isinstance e ValueError = true ∧
        v = PStr (strip val)).

(** [uts] is the result of the first of the three formats, in their order,
    that [str_to_uts] accepts for [timestamp]. *)
Definition first_match (timestamp timezone : string) (uts : float) : Prop :=
  str_to_uts timestamp "%m/%d/%Y %H:%M:%S" timezone = Some uts ∨
  (str_to_uts timestamp "%m/%d/%Y %H:%M:%S" timezone = None ∧
   str_to_uts timestamp "%m.%d.%Y %H:%M:%S" timezone = Some uts) ∨
  (str_to_uts timestamp "%m/%d/%Y %H:%M:%S" timezone = None ∧
   str_to_uts timestamp "%m.%d.%Y %H:%M:%S" timezone = None ∧
   str_to_uts timestamp "%m/%d/%Y %H:%M:%S.%f" timezone = Some uts).

(** The column [k] of the table that the rows [rows] make: the value each
    row has for [k], [None] where a row has none. *)
Definition column_of (rows : list (dict pyobj)) (k : string) : list pyobj :=
  map (fun vals : dict pyobj => default PNone (dict_get vals k)) rows.

(** The row times of [ds] are its [time] column with [start] added, or
    [start] alone when it has no such column. *)
Definition uts_from (ds : Dataset) (start : pyobj) : Prop :=
  ∃ uts, ds_coords ds = [("uts", uts)] ∧
         match dict_get (ds_vars ds) "time" with
         | Some da => Forall2 (fun v u => py_add v start = Ret u) (da_values da) uts
         | None => uts = [start]
         end.

Definition no_match (timestamp timezone : string) : Prop :=
  str_to_uts timestamp "%m/%d/%Y %H:%M:%S" timezone = None ∧
  str_to_uts timestamp "%m.%d.%Y %H:%M:%S" timezone = None ∧
  str_to_uts timestamp "%m/%d/%Y %H:%M:%S.%f" timezone = None.

End Extractor.

End Mpt.

(** ** The Fusion zip extractor, [zip.py] *)

Module Fusion.
Import Py Mpt.

(** A [DataTree] object of the [datatree] library as [merge_datatrees]
    reads and writes it: its [name], its data and its [children].  The
    library keeps the data of a node in the node: [dt.ds] is a view of it
    and is never [None] (a node without row data has an empty Dataset),
    and [dt.attrs] is the attribute dictionary of that data.  Objects live
    in a store and are referred to by their address, so that two
    references to one object see each other's writes.  The checks the
    library makes on the names when data or a child is assigned (a child
    may not be named like a variable of its parent) are outside this
    model. *)
Record node : Type := mk_node {
  nd_name : option string;
  nd_ds : Dataset;
  nd_children : dict nat
}.

Abbreviation loc := nat.
Abbreviation heap := (list node).

(** A freshly built tree, as a value. *)
Inductive tree : Type :=
| Node (name : option string) (ds : Dataset) (children : list (string * tree)).

(** What [zip.py] imports: [xr.concat([a, b], dim="uts",
    combine_attrs="identical", coords="minimal", compat="no_conflicts")]
    and the extractor of one member, [yadg.extractors.fusion.json.extract],
    which builds a new tree from the member named [ffn]. *)
Class FusionEnv : Type := {
  xr_concat : Dataset → Dataset → pyres Dataset;
  extract_json : string → string → string → pyres tree
}.

Definition get (h : heap) (l : loc) : pyres node :=
  match h !! l with
  | Some n => Ret n
  | None => raise ModelError "dangling reference"
  end.

Definition empty_ds : Dataset :=
  {| ds_coords := []; ds_vars := []; ds_attrs := [] |}.

(** [dt.ds]: the data of the node, never [None]. *)
Definition ds_of (n : node) : option Dataset := Some (nd_ds n).

(** [dt.ds = data]; data that is [None] leaves the node with an empty
    Dataset. *)
Definition set_ds (n : node) (data : option Dataset) : node :=
  {| nd_name := nd_name n; nd_ds := default empty_ds data;
     nd_children := nd_children n |}.

(** [dt.attrs]: the attributes of the data of the node. *)
Definition attrs (n : node) : dict pyobj := ds_attrs (nd_ds n).

Definition set_attrs (n : node) (a : dict pyobj) : node :=
  {| nd_name := nd_name n; nd_ds := ds_with_attrs (nd_ds n) a;
     nd_children := nd_children n |}.

Definition set_child (n : node) (key : string) (c : loc) : node :=
  {| nd_name := nd_name n; nd_ds := nd_ds n;
     nd_children := dict_set (nd_children n) key c |}.

(** Storing the children [cs] of a tree value one after the other with
    [alloc], and the dictionary of their addresses. *)
Fixpoint alloc_children (alloc : heap → tree → heap * loc)
    (h : heap) (cs : list (string * tree)) : heap * dict nat :=
  match cs with
  | [] => (h, [])
  | kc :: r =>
      let hl := alloc h (snd kc) in
      let hr := alloc_children alloc (fst hl) r in
      (fst hr, (fst kc, snd hl) :: snd hr)
  end.

(** Storing a tree value: the children first, then the node itself. *)
Fixpoint alloc (h : heap) (t : tree) : heap * loc :=
  match t with
  | Node name ds children =>
      let kids := alloc_children alloc h children in
      ((fst kids ++ [mk_node name ds (snd kids)])%list, length (fst kids))
  end.

(** The tree of the object [l] as a value; [fuel] bounds its depth. *)
Fixpoint read_tree (fuel : nat) (h : heap) (l : loc) : pyres tree :=
  match fuel with
  | O => raise ModelError "out of fuel"
  | S fuel' =>
      n ← get h l;
      children ← mapM (fun kc : string * loc =>
                         t ← read_tree fuel' h (snd kc);
                         Ret (fst kc, t))
                      (nd_children n);
      Ret (Node (nd_name n) (nd_ds n) children)
  end.

(** The tree [t] under the name [name]. *)
Definition renamed (name : string) (t : tree) : tree :=
  match t with Node _ ds children => Node (Some name) ds children end.

Definition name_repr (name : option string) : string :=
  match name with Some s => s | None => "None" end.

Section Merge.
Context {env : FusionEnv}.

(** Lines 81-97: the datasets at the current node. *)
Definition merge_ds (h : heap) (dt1 dt2 : loc) : pyres heap :=
  n1 ← get h dt1;
  n2 ← get h dt2;
  match ds_of n1, ds_of n2 with
  | Some dt1_ds, Some dt2_ds =>
      match xr_concat dt1_ds dt2_ds with
      | Ret d => Ret (<[dt1 := set_ds n1 (Some d)]> h)
      | Raise e =>
          if isinstance e MergeError
          then raise RuntimeError
                 ("Merging datasets at node '" ++ name_repr (nd_name n1)
                  ++ "' failed due to conflicting data variables or coordinates.")
          else Raise e
      end
  | None, ds2 => Ret (<[dt1 := set_ds n1 ds2]> h)
  | Some _, None => Ret h
  end.

(** Line 99: [dt1.attrs.update(dt2.attrs)]. *)
Definition merge_attrs (h : heap) (dt1 dt2 : loc) : pyres heap :=
  n1 ← get h dt1;
  n2 ← get h dt2;
  Ret (<[dt1 := set_attrs n1 (dict_update (attrs n1) (attrs n2))]> h).

(** [dt1[key] = node] of the library: not [node] itself but a shallow copy
    of its tree, named [key], becomes the child [key] of [dt1]; the
    objects of [node] are left as they are.  A tree of the store has no
    more levels than the store has objects, which bounds the reading. *)
Definition assign_child (h : heap) (dt1 : loc) (key : string) (node : loc)
  : pyres heap :=
  t ← read_tree (length h) h node;
  let hl := alloc h (renamed key t) in
  n1 ← get (fst hl) dt1;
  Ret (<[dt1 := set_child n1 key (snd hl)]> (fst hl)).

(** [dt[key]] for the name of a child. *)
Definition child (h : heap) (dt : loc) (key : string) : pyres loc :=
  n ← get h dt;
  dict_item (nd_children n) key.

(** Lines 102-105: the body of the loop over [dt2.children], with the
    recursive call as [merge]. *)
Definition merge_child (merge : heap → loc → loc → pyres (heap * loc))
    (dt1 dt2 : loc) (h : heap) (key : string) : pyres heap :=
  n1 ← get h dt1;
  if dict_mem (nd_children n1) key then
    c1 ← child h dt1 key;
    c2 ← child h dt2 key;
    m ← merge h c1 c2;
    assign_child (fst m) dt1 key (snd m)
  else
    c2 ← child h dt2 key;
    assign_child h dt1 key c2.

(** [merge_datatrees]; [fuel] bounds the depth of the recursion. *)
Fixpoint merge_datatrees (fuel : nat) (h : heap) (dt1 dt2 : loc)
  : pyres (heap * loc) :=
  match fuel with
  | O => raise ModelError "out of fuel"
  | S fuel' =>
      h ← merge_ds h dt1 dt2;
      h ← merge_attrs h dt1 dt2;
      n2 ← get h dt2;
      h ← foldM (merge_child (merge_datatrees fuel') dt1 dt2) h
                (dict_keys (nd_children n2));
      Ret (h, dt1)
  end.

(** [sorted(filenames)] *)
Fixpoint insert_sorted (x : string) (l : list string) : list string :=
  match l with
  | [] => [x]
  | y :: r => if String.leb x y then x :: l else y :: insert_sorted x r
  end.

Definition sorted (l : list string) : list string :=
  fold_right insert_sorted [] l.

(** [reduce(merge_datatrees, dt_list)].  A tree of the store has no more
    levels than the store has objects, which bounds the recursion. *)
Definition reduce_merge (h : heap) (dt_list : list loc) : pyres (heap * loc) :=
  match dt_list with
  | [] => raise TypeError "reduce() of empty iterable with no initial value"
  | dt :: rest =>
      foldM (fun (st : heap * loc) dt2 =>
               merge_datatrees (S (length (fst st))) (fst st) (snd st) dt2)
            (h, dt) rest
  end.

(** Lines 66-71: the trees of the members, in the order of their names. *)
Definition member_trees (filenames : list string) (timezone encoding : string)
  : pyres (heap * list loc) :=
  foldM (fun (st : heap * list loc) ffn =>
           fdt ← extract_json ffn timezone encoding;
           let hl := alloc (fst st) fdt in
           Ret (fst hl, (snd st ++ [snd hl])%list))
        ([], []) (sorted filenames).

(** [extract], on the names [listing] that [os.listdir] finds in the
    directory the archive was unpacked to. *)
Definition extract (listing : list string) (timezone encoding : string)
  : pyres (heap * loc) :=
  let filenames := List.filter (fun ffn => endswith ffn "fusion-data") listing in
  st ← member_trees filenames timezone encoding;
  reduce_merge (fst st) (snd st).

End Merge.

(** *** Vocabulary of the statements about this module *)

(** [owns depth h l fp]: in the store [h] the object at [l] is the root of
    a tree no deeper than [depth], whose objects are those of [fp], the
    root first, and whose nodes bind every child name once. *)
Fixpoint owns (depth : nat) (h : heap) (l : loc) (fp : list loc) : Prop :=
  match depth with
  | O => False
  | S depth' =>
      ∃ n fps,
        h !! l = Some n ∧
        NoDup (dict_keys (nd_children n)) ∧
        Forall2 (fun (kc : string * loc) fp' => owns depth' h (snd kc) fp')
                (nd_children n) fps ∧
        fp = l :: concat fps
  end.

(** [tree_at h lo t l]: in the store [h] the object at [l] is the root of
    the tree [t]: it has the name and the data of [t], and its children
    are, name by name and in the same order, the roots of the children of
    [t].  All objects of the tree lie at [lo] or above. *)
Fixpoint tree_at (h : heap) (lo : nat) (t : tree) (l : loc) {struct t} : Prop :=
  match t with
  | Node name ds children =>
      (lo ≤ l)%nat ∧
      ∃ n, h !! l = Some n ∧ nd_name n = name ∧ nd_ds n = ds ∧
           (fix all (cs : list (string * tree)) (kids : dict nat) : Prop :=
              match cs, kids with
              | [], [] => True
              | kc :: r, kl :: kr =>
                  fst kl = fst kc ∧ tree_at h lo (snd kc) (snd kl) ∧ all r kr
              | _, _ => False
              end) children (nd_children n)
  end.

(** A tree value binds every child name once, at every node. *)
Fixpoint tree_wf (t : tree) : Prop :=
  match t with
  | Node _ _ children =>
      NoDup (dict_keys children) ∧
      (fix all (cs : list (string * tree)) : Prop :=
         match cs with
         | [] => True
         | kc :: r => tree_wf (snd kc) ∧ all r
         end) children
  end.

Definition root_ds (t : tree) : Dataset :=
  match t with Node _ ds _ => ds end.

Definition root_name (t : tree) : option string :=
  match t with Node name _ _ => name end.

Definition root_children (t : tree) : list (string * tree) :=
  match t with Node _ _ children => children end.

Fixpoint tree_depth (t : tree) : nat :=
  match t with
  | Node _ _ children =>
      S ((fix deepest (cs : list (string * tree)) : nat :=
            match cs with
            | [] => O
            | kc :: r => Nat.max (tree_depth (snd kc)) (deepest r)
            end) children)
  end.

(** What [alloc] builds: a tree of the store, made of new objects only. *)
Definition alloc_ok (t : tree) : Prop :=
  tree_wf t → ∀ h h' l,
    alloc h t = (h', l) →
    ∃ fp ext,
      h' = (h ++ ext)%list ∧ owns (tree_depth t) h' l fp ∧ NoDup fp ∧
      (∀ x, x ∈ fp → (length h ≤ x < length h')%nat) ∧
      ∃ kids, h' !! l = Some (mk_node (root_name t) (root_ds t) kids) ∧
              dict_keys kids = dict_keys (root_children t).

(** The node [n] with the children [ch]. *)
Definition with_children (n : node) (ch : dict nat) : node :=
  {| nd_name := nd_name n; nd_ds := nd_ds n; nd_children := ch |}.

(** The data of [dt1] after lines 81-99, where [xr.concat] gave [d] and
    [a2] are the attributes of [dt2]: [d] with its attributes updated. *)
Definition merged_data (d : Dataset) (a2 : dict pyobj) : Dataset :=
  ds_with_attrs d (dict_update (ds_attrs d) a2).

(** The child names of [dt1] after the loop of lines 101-105 over the
    names [keys2]: its own, in their places, then those of [keys2] that it
    lacked, in their order. *)
Definition merged_keys (ch1 : dict nat) (keys2 : list string) : list string :=
  (dict_keys ch1
   ++ List.filter (fun k => negb (dict_mem ch1 k)) keys2)%list.

Section Terms.
Context {env : FusionEnv}.

(** The exception [e] is what lines 82-95 make of a failure of
    [xr.concat]: the [RuntimeError] raised for a [MergeError], or the
    exception of [xr.concat] itself when it is of another class. *)
Definition concat_failure (e : exn) : Prop :=
  ∃ a b e0, xr_concat a b = Raise e0 ∧
            if isinstance e0 MergeError then exn_cls e = RuntimeError else e = e0.

(** The object [c] of the store [h'] is what lines 102-105 bind under
    the name [key] of [dt1], where [n1] and [n2] were the objects [dt1]
    and [dt2] in the store [h]: an object that [h] did not have, the root
    of a tree of such objects, named [key].  Where [dt1] had no child
    [key], that tree is a copy of the child of [dt2].  Where it had the
    child [c1], the two children were merged by the recursive call, run in
    a store [hq] in which both were as they were in [h], and the tree is a
    copy of what that call left at [c1]. *)
Definition grafted (fuel : nat) (h : heap) (n1 n2 : node) (h' : heap)
    (key : string) (c : loc) : Prop :=
  match dict_get (nd_children n2) key with
  | None => False
  | Some c2 =>
      match dict_get (nd_children n1) key with
      | None =>
          ∃ t, tree_at h 0 t c2 ∧ tree_at h' (length h) (renamed key t) c
      | Some c1 =>
          ∃ hq hm t,
            (∃ d1 fa, owns d1 h c1 fa ∧ ∀ x, x ∈ fa → hq !! x = h !! x) ∧
            (∃ d2 fb, owns d2 h c2 fb ∧ ∀ x, x ∈ fb → hq !! x = h !! x) ∧
            merge_datatrees fuel hq c1 c2 = Ret (hm, c1) ∧
            tree_at hm 0 t c1 ∧
            tree_at h' (length h) (renamed key t) c
      end
  end.

(** The object [dt1] of the store [h'] after [merge_datatrees fuel] has
    merged it with [dt2] in the store [h]: its name is kept; its data is
    what [xr.concat] made of the data of the two, with the attributes
    updated by those of [dt2]; its child names are its own followed by the
    new ones of [dt2]; a child whose name [dt2] lacks is the object it
    was; and under every child name of [dt2] there is a grafted copy. *)
Definition merged_node (fuel : nat) (h h' : heap) (l1 l2 : loc) : Prop :=
  ∃ n1 n2 d n1',
    h !! l1 = Some n1 ∧ h !! l2 = Some n2 ∧
    xr_concat (nd_ds n1) (nd_ds n2) = Ret d ∧
    h' !! l1 = Some n1' ∧
    nd_name n1' = nd_name n1 ∧
    nd_ds n1' = merged_data d (attrs n2) ∧
    dict_keys (nd_children n1')
      = merged_keys (nd_children n1) (dict_keys (nd_children n2)) ∧
    (∀ k, k ∉ dict_keys (nd_children n2) →
          dict_get (nd_children n1') k = dict_get (nd_children n1) k) ∧
    (∀ k, k ∈ dict_keys (nd_children n2) →
          ∃ c, dict_get (nd_children n1') k = Some c ∧
               grafted (pred fuel) h n1 n2 h' k c).

(** One child [kc] of [dt1], with its footprint [fp], in the loop of lines
    101-105 once the names [done] have been handled.  A child whose name
    has been handled is a grafted copy, a tree of objects that the store
    [h0] did not have; any other child is the tree it was in [h0]. *)
Definition child_inv (fuel depth : nat) (h0 : heap) (n1 n2 : node)
    (fps : list (list loc)) (done : list string) (hj : heap)
    (kc : string * loc) (fp : list loc) : Prop :=
  if bool_decide (fst kc ∈ done)
  then (∃ dj, owns dj hj (snd kc) fp) ∧
       (∀ x, x ∈ fp → (length h0 ≤ x)%nat) ∧
       grafted fuel h0 n1 n2 hj (fst kc) (snd kc)
  else owns depth hj (snd kc) fp ∧
       ∃ i, nd_children n1 !! i = Some kc ∧ fps !! i = Some fp.

(** The store [hj] in the loop of lines 101-105 over the children of
    [dt2], once the names [done] have been handled: [h0] is the store in
    which [merge_datatrees] was called, [n1] is the object [dt1] when the
    loop starts, [n2] is [dt2], and [fps] are the footprints of the
    children of [n1].  The store has only grown; the children of [dt1]
    are those it had and the handled ones of [dt2], each a tree apart from
    the others; and of the objects of [h0] none was written except [dt1]
    and the trees of its handled children. *)
Definition loop_inv (fuel depth : nat) (h0 : heap) (l1 : loc) (n1 n2 : node)
    (fps : list (list loc)) (done : list string) (hj : heap) : Prop :=
  (length h0 ≤ length hj)%nat ∧
  (∃ ch fpsj,
     hj !! l1 = Some (with_children n1 ch) ∧
     NoDup (dict_keys ch) ∧
     dict_keys ch = merged_keys (nd_children n1) done ∧
     Forall2 (child_inv fuel depth h0 n1 n2 fps done hj) ch fpsj ∧
     NoDup (concat fpsj)) ∧
  ∀ x, (x < length h0)%nat → x ≠ l1 →
       (∀ i kc fp, nd_children n1 !! i = Some kc → fps !! i = Some fp →
                   fst kc ∈ done → x ∉ fp) →
       hj !! x = h0 !! x.

(** What [merge_datatrees fuel] leaves of the store [h] in which [fp1] is
    the tree of [dt1]: the store has only grown, of its objects only those
    of [fp1] may have been written, [dt1] is again the root of a tree, and
    it is the merged object. *)
Definition merge_post (fuel : nat) (h : heap) (l1 l2 : loc) (fp1 : list loc)
    (h' : heap) : Prop :=
  (length h ≤ length h')%nat ∧
  (∀ x, (x < length h)%nat → x ∉ fp1 → h' !! x = h !! x) ∧
  (∃ d' fp', owns d' h' l1 fp' ∧ NoDup fp') ∧
  merged_node fuel h h' l1 l2.

End Terms.

(** The rows of a dataset: its [uts] coordinate. *)
Definition ds_uts (d : Dataset) : list pyobj :=
  default [] (dict_get (ds_coords d) "uts").



End Fusion.

(** ** A sample environment

    Small executable stand-ins for the imported functions, used to run the
    extractor on concrete files.  The general statements below hold for
    every environment. *)

Module Sample.
Import Py Mpt.

Definition float_of_Z (z : Z) : float :=
  let m := PrimFloat.of_uint63 (Uint63.of_Z (Z.abs z)) in
  if z <? 0 then (- m)%float else m.

(** A decimal number [mantissa / 10 ^ scale], or a signalling NaN. *)
Inductive sample_decimal : Type :=
| Finite (mantissa : Z) (scale : N)
| SNaN.

Fixpoint decimal_go (s : string) (m : Z) (scale : option N) (seen : bool)
  : option sample_decimal :=
  match s with
  | EmptyString => if seen then Some (Finite m (default 0%N scale)) else None
  | String c r =>
      match digit_of c, scale with
      | Some d, None => decimal_go r (10 * m + d) None true
      | Some d, Some k => decimal_go r (10 * m + d) (Some (k + 1)%N) true
      | None, None =>
          if Ascii.eqb c "." then decimal_go r m (Some 0%N) seen
          else if Ascii.eqb c "," then decimal_go r m None seen
          else None
      | None, Some _ => None
      end
  end.

Definition negate (d : sample_decimal) : sample_decimal :=
  match d with
  | Finite m k => Finite (- m) k
  | SNaN => SNaN
  end.

(** [parse_decimal] for the locale ["en_US"]: group separator [,] and
    decimal point [.], and the text ["sNaN"], which [Decimal] accepts; any
    other text is a [NumberFormatError]. *)
Definition sample_parse_decimal (value locale : string) : pyres sample_decimal :=
  if negb (String.eqb locale "en_US")
  then raise UnknownLocaleError locale
  else
    let body := strip value in
    let parsed :=
      if String.eqb body "sNaN" then Some SNaN
      else match body with
           | String "-" r => negate <$> decimal_go r 0 None false
           | _ => decimal_go body 0 None false
           end in
    match parsed with
    | Some d => Ret d
    | None => raise NumberFormatError (value ++ " is not a valid decimal number")
    end.

Definition sample_float_of_decimal (d : sample_decimal) : pyres float :=
  match d with
  | Finite m k => Ret (float_of_Z m / float_of_Z (10 ^ Z.of_N k))%float
  | SNaN => raise ValueError "cannot convert signaling NaN to float"
  end.

Definition sample_int_of_decimal (d : sample_decimal) : pyres Z :=
  match d with
  | Finite m k => Ret (Z.quot m (10 ^ Z.of_N k))
  | SNaN => raise ValueError "cannot convert NaN to integer"
  end.

(** A small catalogue in the manner of [eclab.techniques]: two technique
    names, each with its short name and a few parameter names. *)
Definition sample_technique_params (technique : string) (settings_lines : list string)
  : pyres (string * list string) :=
  if String.eqb technique "Constant Current"
  then Ret ("CC", ["Ns"; "set_I/C"; "E_range_min"; "E_range_max"; "I_range"])
  else if String.eqb technique "Open Circuit Voltage"
  then Ret ("OCV", ["Ns"; "E_range_min"; "E_range_max"])
  else raise NotImplementedError ("Technique " ++ technique ++ " not implemented.").

(** Current ranges: code, label, value in ampere. *)
Definition sample_I_ranges : list (Z * string * pyobj) :=
  [(7, "100 mA", PFloat 0.1%float); (8, "10 mA", PFloat 0.01%float);
   (9, "1 mA", PFloat 0.001%float); (131, "Auto", PNone)].

Definition sample_param_from_key (param : string) (key : pyobj) (to_str : bool)
  : pyres pyobj :=
  if negb (String.eqb param "I_range") then raise KeyError param
  else
    let hit (e : Z * string * pyobj) :=
      match key with
      | PInt z => fst (fst e) =? z
      | PStr s => String.eqb (snd (fst e)) s
      | _ => false
      end in
    match List.find hit sample_I_ranges with
    | Some e => Ret (if to_str then PStr (snd (fst e)) else snd e)
    | None => raise ValueError "is not in list"
    end.

Definition sample_get_resolution (name : string) (value : float) (unit : string)
    (Erange Irange : pyobj) : pyres float :=
  match Erange with
  | PFloat e => if String.eqb unit "V" then Ret (e / 65535)%float else Ret 0%float
  | _ => Ret 0%float
  end.

(** A small [strptime] for the directives of the three formats, then the
    seconds since the epoch of that civil date and time in UTC. *)
Record stamp : Type := mk_stamp {
  st_Y : Z; st_m : Z; st_d : Z; st_H : Z; st_M : Z; st_S : Z; st_f : Z
}.

Fixpoint take_digits (n : nat) (s : string) (acc : Z) (got : nat)
  : Z * nat * string :=
  match n, s with
  | S n', String c r =>
      match digit_of c with
      | Some d => take_digits n' r (10 * acc + d) (got + 1)
      | None => (acc, got, s)
      end
  | _, _ => (acc, got, s)
  end.

Definition set_field (d : ascii) (v : Z) (got : nat) (t : stamp) : option stamp :=
  let upd yy mo dd hh mi ss ff :=
    Some {| st_Y := yy; st_m := mo; st_d := dd; st_H := hh; st_M := mi;
            st_S := ss; st_f := ff |} in
  let '(mk_stamp yy mo dd hh mi ss ff) := t in
  if Ascii.eqb d "Y" then (if (got =? 4)%nat then upd v mo dd hh mi ss ff else None)
  else if Ascii.eqb d "m" then (if (1 <=? v) && (v <=? 12) then upd yy v dd hh mi ss ff else None)
  else if Ascii.eqb d "d" then (if (1 <=? v) && (v <=? 31) then upd yy mo v hh mi ss ff else None)
  else if Ascii.eqb d "H" then (if v <=? 23 then upd yy mo dd v mi ss ff else None)
  else if Ascii.eqb d "M" then (if v <=? 59 then upd yy mo dd hh v ss ff else None)
  else if Ascii.eqb d "S" then (if v <=? 61 then upd yy mo dd hh mi v ff else None)
  else if Ascii.eqb d "f" then upd yy mo dd hh mi ss (v * 10 ^ (6 - Z.of_nat got))
  else None.

Definition field_width (d : ascii) : nat :=
  if Ascii.eqb d "Y" then 4%nat else if Ascii.eqb d "f" then 6%nat else 2%nat.

Fixpoint strptime (fmt s : string) (t : stamp) : option stamp :=
  match fmt with
  | EmptyString => match s with EmptyString => Some t | _ => None end
  | String "%" (String d fmt') =>
      let '(v, got, rest) := take_digits (field_width d) s 0 0 in
      if (got =? 0)%nat then None
      else match set_field d v got t with
           | Some t' => strptime fmt' rest t'
           | None => None
           end
  | String c fmt' =>
      match s with
      | String c' rest => if Ascii.eqb c c' then strptime fmt' rest t else None
      | EmptyString => None
      end
  end.

Definition days_from_civil (y m d : Z) : Z :=
  let y' := if m <=? 2 then y - 1 else y in
  let era := y' / 400 in
  let yoe := y' - era * 400 in
  let doy := (153 * (if 2 <? m then m - 3 else m + 9) + 2) / 5 + d - 1 in
  let doe := yoe * 365 + yoe / 4 - yoe / 100 + doy in
  era * 146097 + doe - 719468.

Definition sample_str_to_uts (timestamp format timezone : string) : option float :=
  if negb (String.eqb timezone "UTC") then None
  else
    match strptime format timestamp (mk_stamp 1900 1 1 0 0 0 0) with
    | Some t =>
        let secs := days_from_civil (st_Y t) (st_m t) (st_d t) * 86400
                    + st_H t * 3600 + st_M t * 60 + st_S t in
        Some (float_of_Z secs + float_of_Z (st_f t) / 1000000)%float
    | None => None
    end.

Definition sample_format_value (v : pyobj) : string :=
  match v with
  | PStr s => s
  | PNone => "None"
  | PBool b => if b then "True" else "False"
  | _ => "<object>"
  end.

#[global] Instance sample_env : MptEnv := {|
  Decimal := sample_decimal;
  parse_decimal := sample_parse_decimal;
  float_of_decimal := sample_float_of_decimal;
  int_of_decimal := sample_int_of_decimal;
  technique_params := sample_technique_params;
  param_from_key := sample_param_from_key;
  get_resolution := sample_get_resolution;
  str_to_uts := sample_str_to_uts;
  format_value := sample_format_value
|}.

(** [lines] joined with newlines, as the text of a file. *)
Definition text (lines : list string) : string := join nl lines.

(** A file without a header: the magic line, the count and the column
    names are its three header lines. *)
Definition file_no_header : string :=
  text ["EC-Lab ASCII FILE"; "Nb header lines : 3";
        "time/s" ++ tab ++ "Ewe/V" ++ tab;
        "0.5" ++ tab ++ "1.25";
        "1.5" ++ tab ++ "1.5"].

(** A parameter line: a label and one field per sequence, each padded to
    20 characters. *)
Definition param_line (label : string) (fields : list string) : string :=
  let pad (s : string) :=
    s ++ string_of_list_ascii (repeat " "%char (20 - String.length s)) in
  String.concat EmptyString (map pad (label :: fields)).

(** A file whose header has the technique and the settings sections, for
    two sequences. *)
Definition file_with_header : string :=
  text ["EC-Lab ASCII FILE"; "Nb header lines : 15"; EmptyString;
        "Constant Current"; EmptyString;
        "Run on channel : 1";
        "Acquisition started on : 01/02/2021 03:04:05";
        "Electrode surface area : 0.001 cm";
        param_line "Ns" ["0"; "1"];
        param_line "ctrl_type" ["I"; "C"];
        param_line "E range min (V)" ["-5.0"; "0.0"];
        param_line "E range max (V)" ["5.0"; "10.0"];
        param_line "I Range" ["100 mA"; "10 mA"];
        EmptyString;
        "Ns" ++ tab ++ "time/s" ++ tab ++ "control/V/mA" ++ tab ++ "Ewe/V" ++ tab;
        "0" ++ tab ++ "0.5" ++ tab ++ "10.0" ++ tab ++ "1.25";
        "1" ++ tab ++ "1.5" ++ tab ++ "20.0" ++ tab ++ "1.5"].

(** The header lines that [extract] hands to [process_header] for it. *)
Definition header_with_settings : list string :=
  slice_to (body_lines file_with_header) 12.

(** The lines that [extract] hands to [process_data] for it. *)
Definition data_with_settings : list string :=
  slice_from (body_lines file_with_header) 12.

(** A file whose header holds only a loop section after the first one. *)
Definition file_loops_only : string :=
  text ["EC-Lab ASCII FILE"; "Nb header lines : 7"; EmptyString;
        "Number of loops : 1";
        "Loop 0 from point number 0 to 1"; EmptyString;
        "time/s" ++ tab ++ "Ewe/V" ++ tab;
        "0.5" ++ tab ++ "1.25"].

(** A file whose header stops after the technique name: two sections. *)
Definition file_two_sections : string :=
  text ["EC-Lab ASCII FILE"; "Nb header lines : 6"; EmptyString;
        "Constant Current"; EmptyString;
        "time/s" ++ tab ++ "Ewe/V" ++ tab;
        "0.5" ++ tab ++ "1.25"].

End Sample.

(** *** A sample environment for the zip extractor *)

Module SampleFusion.
Import Py Mpt Fusion.

(** [==] on Python values; dictionaries compare regardless of order. *)
Fixpoint pyobj_eqb (a b : pyobj) {struct a} : bool :=
  match a, b with
  | PNone, PNone => true
  | PBool x, PBool y => Bool.eqb x y
  | PInt x, PInt y => x =? y
  | PFloat x, PFloat y => PrimFloat.eqb x y
  | PStr x, PStr y => String.eqb x y
  | PList x, PList y =>
      (fix go (x y : list pyobj) : bool :=
         match x, y with
         | [], [] => true
         | u :: x', v :: y' => pyobj_eqb u v && go x' y'
         | _, _ => false
         end) x y
  | PDict x, PDict y =>
      (length x =? length y)%nat &&
      (fix go (x : list (string * pyobj)) : bool :=
         match x with
         | [] => true
         | kv :: x' =>
             match dict_get y (fst kv) with
             | Some w => pyobj_eqb (snd kv) w
             | None => false
             end && go x'
         end) x
  | _, _ => false
  end.

Definition option_eqb {A} (eqb : A → A → bool) (a b : option A) : bool :=
  match a, b with
  | Some x, Some y => eqb x y
  | None, None => true
  | _, _ => false
  end.

(** The variables of [b] joined to those of [a], row-wise; [None] when a
    variable of [a] is missing from [b] or carries another unit. *)
Definition concat_vars (a b : dict DataArray) : option (dict DataArray) :=
  fold_right
    (fun (kv : string * DataArray) (acc : option (dict DataArray)) =>
       match acc, dict_get b (fst kv) with
       | Some r, Some db =>
           if option_eqb String.eqb (da_units (snd kv)) (da_units db)
           then Some ((fst kv,
                       {| da_values := (da_values (snd kv) ++ da_values db)%list;
                          da_sigma :=
                            match da_sigma (snd kv), da_sigma db with
                            | Some x, Some y => Some (x ++ y)%list
                            | _, _ => None
                            end;
                          da_units := da_units (snd kv) |}) :: r)
           else None
       | _, _ => None
       end)
    (Some []) a.

(** A stand-in for [xr.concat] along [uts] on datasets whose only
    coordinate is [uts] and whose variables all lie along it: the
    attributes must be identical ([MergeError] otherwise), the two sides
    must have the same variables with the same units, and the rows of the
    second dataset follow those of the first. *)
Definition sample_concat (a b : Dataset) : pyres Dataset :=
  if negb (pyobj_eqb (PDict (ds_attrs a)) (PDict (ds_attrs b)))
  then raise MergeError "combine_attrs='identical', but attrs differ"
  else if negb ((length (ds_vars a) =? length (ds_vars b))%nat)
  then raise ValueError "variables present in some datasets but not others"
  else match concat_vars (ds_vars a) (ds_vars b) with
       | Some vars =>
           Ret {| ds_coords := [("uts", (ds_uts a ++ ds_uts b)%list)];
                  ds_vars := vars;
                  ds_attrs := ds_attrs a |}
       | None => raise MergeError "conflicting variables"
       end.

(** A dataset with one variable, [valve], along [uts], and the attributes
    [a]. *)
Definition valve_ds_with (a : dict pyobj) (uts : list float) (valve : list Z)
  : Dataset :=
  {| ds_coords := [("uts", map PFloat uts)];
     ds_vars := [("valve", {| da_values := map PInt valve;
                              da_sigma := None; da_units := None |})];
     ds_attrs := a |}.

Definition valve_ds (uts : list float) (valve : list Z) : Dataset :=
  valve_ds_with [] uts valve.

Definition leaf (name : option string) (ds : Dataset) : tree :=
  Node name ds [].

(** The attributes of the data at the roots of the sample trees. *)
Definition root_attrs : dict pyobj := [("instrument", PStr "fusion")].

(** The members of the sample archives: [a] with rows at 30 and 40, [b]
    with rows at 10 and 20, [c] with one row at 50. *)
Definition ds_a : Dataset := valve_ds_with root_attrs [30%float; 40%float] [1; 2].
Definition ds_b : Dataset := valve_ds_with root_attrs [10%float; 20%float] [3; 4].
Definition ds_c : Dataset := valve_ds_with root_attrs [50%float] [0].

Definition tree_a : tree :=
  Node None ds_a
       [("TCD", leaf (Some "TCD") (valve_ds [30%float; 40%float] [5; 6]))].

Definition tree_b : tree :=
  Node None ds_b
       [("TCD", leaf (Some "TCD") (valve_ds [10%float; 20%float] [7; 8]));
        ("FID", leaf (Some "FID") (valve_ds [10%float; 20%float] [9; 9]))].

Definition tree_c : tree := leaf None ds_c.

Definition sample_extract_json (ffn timezone encoding : string) : pyres tree :=
  if String.eqb ffn "a.fusion-data" then Ret tree_a
  else if String.eqb ffn "b.fusion-data" then Ret tree_b
  else if String.eqb ffn "c.fusion-data" then Ret tree_c
  else raise ValueError ("cannot read " ++ ffn).

(** Two separate trees in one store, both with row data and with the same
    attributes: the object 1 with its child 0, and the object 4 with its
    children 2 and 3. *)
Definition two_trees : heap :=
  [mk_node (Some "TCD") (valve_ds [30%float; 40%float] [5; 6]) [];
   mk_node None ds_a [("TCD", 0%nat)];
   mk_node (Some "TCD") (valve_ds [10%float; 20%float] [7; 8]) [];
   mk_node (Some "FID") (valve_ds [10%float; 20%float] [9; 9]) [];
   mk_node None ds_b [("TCD", 2%nat); ("FID", 3%nat)]].

(** The same two trees, but the data at the two roots carry different
    attributes. *)
Definition two_differing : heap :=
  [mk_node (Some "TCD") (valve_ds [30%float; 40%float] [5; 6]) [];
   mk_node None (valve_ds_with [("run", PInt 1)] [30%float; 40%float] [1; 2])
           [("TCD", 0%nat)];
   mk_node (Some "TCD") (valve_ds [10%float; 20%float] [7; 8]) [];
   mk_node (Some "FID") (valve_ds [10%float; 20%float] [9; 9]) [];
   mk_node None (valve_ds_with [("run", PInt 2)] [10%float; 20%float] [3; 4])
           [("TCD", 2%nat); ("FID", 3%nat)]].

(** Two single objects whose datasets have the variable [valve] with
    different values at the same row times. *)
Definition two_conflicting : heap :=
  [mk_node None (valve_ds [10%float; 20%float] [1; 2]) [];
   mk_node None (valve_ds [10%float; 20%float] [3; 4]) []].

#[global] Instance sample_fusion_env : FusionEnv := {|
  xr_concat := sample_concat;
  extract_json := sample_extract_json
|}.

End SampleFusion.

(** *** Further sample headers *)

Module MptSamples.
Import Py Mpt Sample.

(** The sections of a header that ends with a loops section. *)
Definition loop_sections : list string :=
  ["Nb header lines : 9"; "Constant Current"; "Run on channel : 1";
   join nl ["Number of loops : 2";
            "Loop 0 from point number 0 to 5";
            "Loop 1 from point number 6 to 9"]].

(** A header with the technique and its settings, but no line that tells
    when the acquisition started. *)
Definition header_no_acquisition : list string :=
  ["Nb header lines : 12"; EmptyString; "Constant Current"; EmptyString;
   "Run on channel : 1";
   param_line "Ns" ["0"; "1"];
   param_line "ctrl_type" ["I"; "C"];
   param_line "E range min (V)" ["-5.0"; "0.0"];
   param_line "E range max (V)" ["5.0"; "10.0"];
   param_line "I Range" ["100 mA"; "10 mA"]].

End MptSamples.

(** *** Vocabulary of further statements about the zip extractor *)

Module FusionTerms.
Import Py Mpt Fusion.

(** [a <= b] in the order [sorted] uses for the names. *)
Definition name_le (a b : string) : Prop := String.leb a b = true.

End FusionTerms.

(** ** [yadg.dgutils.utils]: the update of a version 3 schema

    [schema_3to4] works on what a JSON or YAML file of a version 3 schema
    holds: a list of steps, each a mapping.  Its exceptions are those of
    the operations on these objects, so the model has an error type of its
    own: the key of a [KeyError], or the class of the exception.  The
    warnings it logs are left out.

    The function rewrites the [import] mapping of the steps in place and
    puts the same object in the new schema; the model returns the new
    schema and the list of steps as the caller finds it afterwards. *)

Module Utils.
Import Py.

Inductive failure : Set :=
| KeyErr (key : string)
| TypeErr
| AttributeErr.

Inductive res (A : Type) : Type :=
| Ok (a : A)
| Err (f : failure).
Arguments Ok {A} a.
Arguments Err {A} f.

#[global] Instance res_ret : MRet res := fun A a => Ok a.
#[global] Instance res_bind : MBind res := fun A B f m =>
  match m with
  | Ok a => f a
  | Err e => Err e
  end.

Fixpoint traverse {A B} (f : A → res B) (l : list A) : res (list B) :=
  match l with
  | [] => Ok []
  | x :: r => y ← f x; ys ← traverse f r; Ok (y :: ys)
  end.

(** [o[key]] for a [str] key: only a mapping can be subscripted by it. *)
Definition subscript (o : pyobj) (key : string) : res pyobj :=
  match o with
  | PDict d =>
      match dict_get d key with
      | Some v => Ok v
      | None => Err (KeyErr key)
      end
  | _ => Err TypeErr
  end.

(** [o == s] for a [str] [s]. *)
Definition eq_str (o : pyobj) (s : string) : bool :=
  match o with
  | PStr s' => String.eqb s' s
  | _ => false
  end.

(** [key in o]: a key of a mapping, an element of a list, a part of a
    string; the other objects are not iterable. *)
Definition contains (o : pyobj) (key : string) : res bool :=
  match o with
  | PDict d => Ok (dict_mem d key)
  | PList l => Ok (existsb (fun x => eq_str x key) l)
  | PStr s => Ok (match String.index 0 key s with Some _ => true | None => false end)
  | _ => Err TypeErr
  end.

(** [o.pop(key)]: the value and what is left of [o].  A list takes an
    index, not a [str]; the other objects have no [pop]. *)
Definition pop (o : pyobj) (key : string) : res (pyobj * pyobj) :=
  match o with
  | PDict d =>
      match dict_get d key with
      | Some v => Ok (v, PDict (dict_del d key))
      | None => Err (KeyErr key)
      end
  | PList _ => Err TypeErr
  | _ => Err AttributeErr
  end.

(** [o[key] = v] for a [str] key. *)
Definition setitem (o : pyobj) (key : string) (v : pyobj) : res pyobj :=
  match o with
  | PDict d => Ok (PDict (dict_set d key v))
  | _ => Err TypeErr
  end.

(** [o.items()] *)
Definition items (o : pyobj) : res (dict pyobj) :=
  match o with
  | PDict d => Ok d
  | _ => Err AttributeErr
  end.

(** Lines 85-98: whether the parameter [k] with the value [v] is kept. *)
Definition kept (k : string) (v : pyobj) : bool :=
  if existsb (String.eqb k) ["Tcalfile"; "MFCcalfile"; "calfile"] then false
  else if String.eqb k "method" && eq_str v "q0refl" then false
  else true.

(** Lines 83-98. *)
Definition new_parameters (old : dict pyobj) : dict pyobj :=
  fold_left (fun parameters kv =>
               if kept (fst kv) (snd kv)
               then dict_set parameters (fst kv) (snd kv)
               else parameters)
            old [].

(** Lines 76-77: the [import] mapping after the renaming of [paths]. *)
Definition rename_paths (import : pyobj) : res pyobj :=
  has ← contains import "paths";
  if has : bool then
    vo ← pop import "paths";
    setitem (snd vo) "files" (fst vo)
  else Ok import.

(** The step [oldstep], whose [import] is the object [import]. *)
Definition with_import (oldstep : dict pyobj) (import : pyobj) : dict pyobj :=
  dict_set oldstep "import" import.

(** Lines 80-81 and 99-100: the new step gets a [tag] when the old one has
    an [export] that is not [None], and [parameters] when some are kept. *)
Definition new_step (parser input export : pyobj) (parameters : dict pyobj)
  : dict pyobj :=
  let newstep := [("parser", parser); ("input", input)] in
  let newstep := match export with
                 | PNone => newstep
                 | _ => dict_set newstep "tag" export
                 end in
  match parameters with
  | [] => newstep
  | _ => dict_set newstep "parameters" (PDict parameters)
  end.

(** Lines 70-101: one turn of the loop: the new step, and the old step as
    it is afterwards. *)
Definition convert_step (oldstep : pyobj) : res (pyobj * pyobj) :=
  datagram ← subscript oldstep "datagram";
  let parser := if eq_str datagram "gctrace" then PStr "chromtrace" else datagram in
  import ← subscript oldstep "import";
  import ← rename_paths import;
  match oldstep with
  | PDict step =>
      let export := default PNone (dict_get step "export") in
      old_parameters ← subscript oldstep "parameters";
      old_parameters ← items old_parameters;
      Ok (PDict (new_step parser import export (new_parameters old_parameters)),
          PDict (with_import step import))
  | _ => Err TypeErr
  end.

Section Schema.
(** What [dgutils.get_yadg_metadata()] returns. *)
Variable yadg_metadata : pyobj.

(** Lines 55-66. *)
Definition new_metadata : pyobj :=
  PDict [("provenance",
          PDict [("type", PStr "yadg update");
                 ("metadata",
                  PDict [("yadg", yadg_metadata);
                         ("update_schema",
                          PDict [("updater", PStr "schema_3to4")])])]);
         ("version", PStr "4.1");
         ("timezone", PStr "localtime")].

(** [schema_3to4]: the new schema, and [oldschema] as it is afterwards. *)
Definition schema_3to4 (oldschema : list pyobj) : res (pyobj * list pyobj) :=
  steps ← traverse convert_step oldschema;
  Ok (PDict [("metadata", new_metadata); ("steps", PList (map fst steps))],
      map snd steps).

End Schema.

(** *** [schema_from_preset]: the paths of a step *)

Section Preset.
(** [os.path.isabs], [os.path.abspath], [os.path.join] and [os.path.sep]. *)
Variable isabs : string → bool.
Variable abspath : string → string.
Variable join_path : string → string → string.
Variable sep : string.

(** Lines 156-170: the loop over the paths [files] that the step has under
    the key [filk], giving the list [newf] that line 171 puts in their
    place. *)
Definition patch_file (folder filk : string) (newf : list string) (oldf : string)
  : pyres (list string) :=
  if isabs oldf then Ret newf
  else
    _ ← py_assert (negb (startswith oldf ("." ++ sep)))
          ("Item '" ++ oldf ++ "' in '" ++ filk ++ "' does start with '."
           ++ sep ++ "' and therefore should not be patched using '"
           ++ folder ++ "'.");
    let newp := abspath (join_path folder oldf) in
    Ret (newf ++ [newp])%list.

Definition patch_files (folder filk : string) (files : list string)
  : pyres (list string) :=
  foldM (patch_file folder filk) [] files.

End Preset.

(** *** Vocabulary of the statements about this module *)

(** An [import] that lines 76-77 accept: a mapping, or a string or a list
    without ["paths"] in it. *)
Definition import_ok (import : pyobj) : Prop :=
  match import with
  | PDict _ => True
  | PStr s => String.index 0 "paths" s = None
  | PList l => existsb (fun x => eq_str x "paths") l = false
  | _ => False
  end.

(** A step that [schema_3to4] converts: a mapping with a [datagram], an
    [import] as above and a mapping of [parameters]. *)
Definition convertible (step : pyobj) : Prop :=
  ∃ d import parameters,
    step = PDict d ∧ dict_mem d "datagram" = true ∧
    dict_get d "import" = Some import ∧ import_ok import ∧
    dict_get d "parameters" = Some (PDict parameters).

End Utils.

(** *** A sample schema of version 3 *)

Module SampleSchema.
Import Py Utils.

Definition import_gc : dict pyobj :=
  [("paths", PList [PStr "gc/run1.dat"]); ("encoding", PStr "utf-8")].

Definition parameters_gc : dict pyobj :=
  [("calfile", PStr "gc/calib.json"); ("tracetype", PStr "fusion");
   ("method", PStr "q0refl")].

Definition step_gc : dict pyobj :=
  [("datagram", PStr "gctrace"); ("import", PDict import_gc);
   ("export", PStr "gc"); ("parameters", PDict parameters_gc)].

Definition step_qf : dict pyobj :=
  [("datagram", PStr "qftrace");
   ("import", PDict [("folders", PList [PStr "qf"])]);
   ("export", PNone);
   ("parameters", PDict [("method", PStr "q0refl")])].

Definition schema_v3 : list pyobj := [PDict step_gc; PDict step_qf].

Definition metadata_v5 : pyobj := PDict [("version", PStr "5.1")].

(** Paths as on a POSIX system, without normalisation. *)
Definition posix_isabs (p : string) : bool := startswith p "/".
Definition posix_join (a b : string) : string :=
  if posix_isabs b then b else a ++ "/" ++ b.

End SampleSchema.

(** * Properties *)

(** ** The error monad, sequences and dictionaries *)

Module PyFacts.
Import Py.

Lemma bind_ret {A B} (m : pyres A) (f : A → pyres B) (b : B) :
  m ≫= f = Ret b ↔ ∃ a, m = Ret a ∧ f a = Ret b.
Proof.
  destruct m as [a|e]; cbn; split.
  - intros H. by exists a.
  - by intros (a' & [= ->] & H).
  - intros [=].
  - by intros (a' & [=] & _).
Qed.

Lemma bind_raise {A B} (m : pyres A) (f : A → pyres B) (e : exn) :
  m = Raise e → m ≫= f = Raise e.
Proof. by intros ->. Qed.

Lemma bind_ret_l {A B} (m : pyres A) (f : A → pyres B) (a : A) :
  m = Ret a → m ≫= f = f a.
Proof. by intros ->. Qed.

Lemma py_assert_ret (c : bool) (msg : string) (u : unit) :
  py_assert c msg = Ret u ↔ c = true.
Proof. unfold py_assert, raise. destruct c, u; split; congruence. Qed.

(** A successful [mapM] ran the function successfully on every element. *)
Lemma mapM_ret {A B} (f : A → pyres B) (l : list A) (ys : list B) :
  mapM f l = Ret ys ↔ Forall2 (fun x y => f x = Ret y) l ys.
Proof.
  revert ys. induction l as [|x l IH]; intros ys; cbn.
  - split.
    + intros [= <-]. constructor.
    + intros H. by inversion H.
  - rewrite bind_ret. split.
    + intros (y & Hy & H). apply bind_ret in H as (ys' & Hys & [= <-]).
      constructor; [done|]. by apply IH.
    + intros H. inversion H as [|? y ? ys' Hy Hys]; subst.
      exists y. split; [done|]. apply bind_ret. exists ys'.
      split; [by apply IH|done].
Qed.

Lemma mapM_length {A B} (f : A → pyres B) (l : list A) (ys : list B) :
  mapM f l = Ret ys → length ys = length l.
Proof. intros H%mapM_ret. symmetry. by eapply Forall2_length. Qed.

(** One failing element makes [mapM] fail. *)
Lemma mapM_raise_at {A B} (f : A → pyres B) (l : list A) (x : A) (e : exn) :
  In x l → f x = Raise e → ∀ ys, mapM f l ≠ Ret ys.
Proof.
  intros Hin Hx ys H%mapM_ret. revert Hin.
  induction H as [|x' y l ys Hy _ IH]; intros Hin; [by destruct Hin|].
  destruct Hin as [<-|Hin]; [congruence|by apply IH].
Qed.

(** An invariant of the state survives a successful [foldM]. *)
Lemma foldM_invariant {A S} (P : S → Prop) (f : S → A → pyres S)
    (l : list A) (s0 s : S) :
  P s0 →
  (∀ s x s', In x l → P s → f s x = Ret s' → P s') →
  foldM f s0 l = Ret s → P s.
Proof.
  revert s0. induction l as [|x l IH]; intros s0 H0 Hstep; cbn.
  - by intros [= <-].
  - intros (s1 & H1 & H)%bind_ret.
    apply (IH s1); [|by intros; eapply Hstep; eauto; right|done].
    eapply Hstep; [by left|done..].
Qed.

(** A step that cannot succeed makes [foldM] fail. *)
Lemma foldM_stuck {A S} (f : S → A → pyres S) (l : list A) (s0 : S) (x : A) :
  In x l → (∀ s s', f s x ≠ Ret s') → ∀ s, foldM f s0 l ≠ Ret s.
Proof.
  revert s0. induction l as [|y l IH]; intros s0 Hin Hx s; [by destruct Hin|].
  cbn. intros (s1 & H1 & H)%bind_ret.
  destruct Hin as [->|Hin]; [by eapply Hx|by eapply IH].
Qed.

(** *** Dictionaries *)

Lemma dict_get_set {V} (d : dict V) (k k' : string) (v : V) :
  dict_get (dict_set d k v) k' =
  if String.eqb k k' then Some v else dict_get d k'.
Proof.
  induction d as [|[k0 v0] d IH]; cbn.
  - done.
  - destruct (String.eqb_spec k0 k) as [->|Hne]; cbn.
    + by destruct (String.eqb k k').
    + rewrite IH. destruct (String.eqb_spec k0 k') as [->|Hne'].
      * by rewrite (proj2 (String.eqb_neq k k')) by congruence.
      * done.
Qed.

Lemma dict_get_del_ne {V} (d : dict V) (k k' : string) :
  k ≠ k' → dict_get (dict_del d k) k' = dict_get d k'.
Proof.
  intros Hne. induction d as [|[k0 v0] d IH]; cbn; [done|].
  destruct (String.eqb_spec k0 k) as [->|Hk]; cbn.
  - by rewrite (proj2 (String.eqb_neq k k')).
  - by rewrite IH.
Qed.

Lemma dict_get_In {V} (d : dict V) (k : string) (v : V) :
  dict_get d k = Some v → In (k, v) d.
Proof.
  induction d as [|[k0 v0] d IH]; cbn; [done|].
  destruct (String.eqb_spec k0 k) as [->|Hk].
  - intros [= ->]. by left.
  - intros H. right. by apply IH.
Qed.

Lemma dict_mem_keys {V} (d : dict V) (k : string) :
  dict_mem d k = true ↔ In k (dict_keys d).
Proof.
  unfold dict_mem. induction d as [|[k0 v0] d IH]; cbn.
  - split; [done|tauto].
  - destruct (String.eqb_spec k0 k) as [->|Hk].
    + split; [by left|done].
    + rewrite IH. split; [by right|]. by intros [?|?].
Qed.

Lemma dict_keys_set {V} (d : dict V) (k k' : string) (v : V) :
  In k' (dict_keys (dict_set d k v)) ↔ k' = k ∨ In k' (dict_keys d).
Proof.
  rewrite <- !dict_mem_keys. unfold dict_mem. rewrite dict_get_set.
  destruct (String.eqb_spec k k') as [->|Hk].
  - split; [by left|done].
  - split; [by right|]. intros [->|?]; [done..].
Qed.

Lemma dict_get_update_absent {V} (d e : dict V) (k : string) :
  ¬ In k (dict_keys e) → dict_get (dict_update d e) k = dict_get d k.
Proof.
  unfold dict_update. revert d.
  induction e as [|[k0 v0] e IH]; intros d Hk; cbn; [done|].
  rewrite IH by (intros ?; apply Hk; by right).
  rewrite dict_get_set. cbn.
  destruct (String.eqb_spec k0 k) as [->|?]; [|done].
  exfalso. apply Hk. by left.
Qed.

End PyFacts.

(** ** [process_header] *)

Module HeaderFacts.
Import Py Columns Mpt PyFacts.

Section Header.
Context {env : MptEnv}.

Lemma range_length (a b : Z) : length (range a b) = Z.to_nat (b - a).
Proof. unfold range. by rewrite length_map, length_seq. Qed.

Lemma range_lookup (a b : Z) (i : nat) (x : Z) :
  range a b !! i = Some x → x = a + Z.of_nat i.
Proof.
  unfold range. rewrite list_lookup_fmap.
  destruct (seq 0 (Z.to_nat (b - a)) !! i) as [k|] eqn:Hk; [|done].
  apply lookup_seq in Hk as [-> _]. cbn. by intros [= <-].
Qed.

Lemma parse_param_spec (locale param : string) (seq : Z) (v : pyobj) :
  parse_param locale param seq = Ret v →
  parsed_or_stripped locale (field param seq) v.
Proof.
  unfold parse_param, parsed_or_stripped, field.
  destruct (to_float _ locale) as [f|e] eqn:Hf.
  - intros [= <-]. left. apply bind_ret in Hf as (d & Hd & Hf). by exists d, f.
  - destruct (isinstance e ValueError) eqn:He; [|done].
    intros [= <-]. right. by exists e.
Qed.

(** The mappings [sequence_params] returns: one per 20-character field
    after the first, each value parsed from its field. *)
Lemma sequence_params_spec (plines keys : list string) (locale : string)
    (maps : list (dict pyobj)) :
  sequence_params plines keys locale = Ret maps →
  ∃ p0 values,
    list_item plines 0 = Ret p0 ∧
    maps = map (dict_of_zip keys) values ∧
    len values = Z.max 0 (str_len p0 / 20 - 1) ∧
    ∀ (i : nat) row, values !! i = Some row →
      Forall2 (fun p v => parsed_or_stripped locale (field p (Z.of_nat i + 1)) v)
              plines row.
Proof.
  unfold sequence_params. intros H.
  apply bind_ret in H as (p0 & Hp0 & H).
  apply bind_ret in H as (values & Hv & [= <-]).
  exists p0, values. split; [done|]. split; [done|].
  apply mapM_ret in Hv. split.
  - unfold len. rewrite <- (Forall2_length _ _ _ Hv), range_length. lia.
  - intros i row Hrow.
    destruct (Forall2_lookup_r _ _ _ _ _ Hv Hrow) as (seq & Hseq & Hm).
    apply range_lookup in Hseq as ->.
    apply mapM_ret in Hm.
    eapply Forall2_impl; [exact Hm|].
    intros p v Hpv. cbn in Hpv. apply parse_param_spec in Hpv.
    by replace (Z.of_nat i + 1) with (1 + Z.of_nat i) by lia.
Qed.

(** C2 (as amended): the number [width / 20] that line 101 calls
    [n_sequences] counts the label column as well; [process_header] returns
    one parameter mapping for each 20-character field after the label,
    that is [width / 20 - 1] of them (none when the line is shorter than 40
    characters), and every value of a mapping is its field parsed
    numerically or, failing that, the stripped text of the field. *)
Theorem process_header_mappings (lines : list string) (timezone locale : string)
    (settings : dict pyobj) (params : list (dict pyobj)) (loops : pyobj) :
  process_header lines timezone locale = Ret (settings, params, loops) →
  ∃ s1 s2 tk p0 values,
    list_item (header_sections lines) 1 = Ret s1 ∧
    list_item (header_sections lines) 2 = Ret s2 ∧
    technique_params (strip s1) (split s2 nl) = Ret tk ∧
    list_item (slice_from (split s2 nl) (- len (snd tk))) 0 = Ret p0 ∧
    params = map (dict_of_zip (snd tk)) values ∧
    len params = Z.max 0 (str_len p0 / 20 - 1) ∧
    ∀ (i : nat) row, values !! i = Some row →
      Forall2 (fun p v => parsed_or_stripped locale (field p (Z.of_nat i + 1)) v)
              (slice_from (split s2 nl) (- len (snd tk))) row.
Proof.
  unfold process_header. intros H.
  apply bind_ret in H as (s1 & Hs1 & H).
  apply bind_ret in H as (? & _ & H).
  apply bind_ret in H as (? & _ & H).
  apply bind_ret in H as (s2 & Hs2 & H).
  apply bind_ret in H as (tk & Htk & H).
  apply bind_ret in H as (maps & Hmaps & H).
  apply bind_ret in H as (uts & _ & H).
  apply bind_ret in H as (lp & _ & [= <- <- <-]).
  apply sequence_params_spec in Hmaps as (p0 & values & Hp0 & -> & Hlen & Hrows).
  exists s1, s2, tk, p0, values.
  repeat split; try done.
  unfold len in *. by rewrite length_map.
Qed.

Lemma first_uts_match (timestamp timezone : string) (uts : float) :
  first_uts timestamp timezone timestamp_formats = Some uts ↔
  first_match timestamp timezone uts.
Proof.
  unfold first_match, timestamp_formats. cbn.
  destruct (str_to_uts timestamp "%m/%d/%Y %H:%M:%S" timezone) as [u1|];
    [intuition congruence|].
  destruct (str_to_uts timestamp "%m.%d.%Y %H:%M:%S" timezone) as [u2|];
    [intuition congruence|].
  destruct (str_to_uts timestamp "%m/%d/%Y %H:%M:%S.%f" timezone) as [u3|];
    intuition congruence.
Qed.

Lemma first_uts_no_match (timestamp timezone : string) :
  first_uts timestamp timezone timestamp_formats = None ↔
  no_match timestamp timezone.
Proof.
  unfold no_match, timestamp_formats. cbn.
  destruct (str_to_uts timestamp "%m/%d/%Y %H:%M:%S" timezone) as [u1|];
    [intuition congruence|].
  destruct (str_to_uts timestamp "%m.%d.%Y %H:%M:%S" timezone) as [u2|];
    [intuition congruence|].
  destruct (str_to_uts timestamp "%m/%d/%Y %H:%M:%S.%f" timezone) as [u3|];
    intuition congruence.
Qed.

(** C8: once the settings block of a header has been sliced and the text
    after ["Acquisition started on : "] found, [process_header] takes as
    [posix_timestamp] the result of the first of the three formats, tried
    in their order, that parses that text, and raises
    [NotImplementedError] when none of them does. *)
Theorem process_header_timestamp (lines : list string) (timezone locale : string)
    (s1 s2 : string) (tk : string * list string)
    (params : list (dict pyobj)) (timestamp : string) :
  list_item (header_sections lines) 1 = Ret s1 →
  startswith s1 "Number of loops : " = false →
  3 <= len (header_sections lines) →
  list_item (header_sections lines) 2 = Ret s2 →
  technique_params (strip s1) (split s2 nl) = Ret tk →
  sequence_params (slice_from (split s2 nl) (- len (snd tk))) (snd tk) locale
    = Ret params →
  search_after "Acquisition started on : "
    (join nl (map strip (slice_to (split s2 nl) (- len (snd tk)))))
    = Some timestamp →
  (∀ uts, first_match timestamp timezone uts →
     process_header lines timezone locale =
       (loops ← loops_section (header_sections lines);
        Ret ([("posix_timestamp", PFloat uts);
              ("technique", PStr (fst tk));
              ("raw", PStr (join nl lines))], params, loops))) ∧
  (no_match timestamp timezone →
     process_header lines timezone locale =
       raise NotImplementedError
             ("Time format for " ++ timestamp ++ " not implemented.")).
Proof.
  intros Hs1 Hloop Hlen Hs2 Htk Hparams Hts.
  assert (Hfront : ∀ uts_res,
            acquisition_uts (map strip (slice_to (split s2 nl) (- len (snd tk))))
                            timezone = uts_res →
            process_header lines timezone locale =
              (uts ← uts_res;
               loops ← loops_section (header_sections lines);
               Ret ([("posix_timestamp", PFloat uts);
                     ("technique", PStr (fst tk));
                     ("raw", PStr (join nl lines))], params, loops))).
  { intros uts_res <-. unfold process_header.
    apply Z.leb_le in Hlen.
    rewrite (bind_ret_l _ _ _ Hs1), Hloop, Hlen.
    change (py_assert (negb false) "no settings present") with (Ret tt).
    change (py_assert true "no settings present") with (Ret tt).
    rewrite !(bind_ret_l (Ret tt) _ tt eq_refl).
    rewrite (bind_ret_l _ _ _ Hs2), (bind_ret_l _ _ _ Htk).
    by rewrite (bind_ret_l _ _ _ Hparams). }
  split.
  - intros uts Hm%first_uts_match.
    rewrite (Hfront (Ret uts)); [done|].
    unfold acquisition_uts. by rewrite Hts, Hm.
  - intros Hn%first_uts_no_match.
    rewrite (Hfront (raise NotImplementedError
                       ("Time format for " ++ timestamp ++ " not implemented.")));
      [done|].
    unfold acquisition_uts. by rewrite Hts, Hn.
Qed.

End Header.

(** The sample header: its parameter lines are 60 characters wide, one
    label column and two sequences. *)
Lemma process_header_mappings_witness :
  ∃ settings params loops,
    process_header Sample.header_with_settings "UTC" "en_US"
      = Ret (settings, params, loops) ∧
    ∃ s1 s2 tk p0 values,
      list_item (header_sections Sample.header_with_settings) 1 = Ret s1 ∧
      list_item (header_sections Sample.header_with_settings) 2 = Ret s2 ∧
      technique_params (strip s1) (split s2 nl) = Ret tk ∧
      list_item (slice_from (split s2 nl) (- len (snd tk))) 0 = Ret p0 ∧
      params = map (dict_of_zip (snd tk)) values ∧
      len params = Z.max 0 (str_len p0 / 20 - 1) ∧
      ∀ (i : nat) row, values !! i = Some row →
        Forall2 (fun p v => parsed_or_stripped "en_US" (field p (Z.of_nat i + 1)) v)
                (slice_from (split s2 nl) (- len (snd tk))) row.
Proof.
  eexists _, _, _. split; [vm_compute; reflexivity|].
  eapply (process_header_mappings Sample.header_with_settings "UTC" "en_US").
  vm_compute. reflexivity.
Defined.

(** C2 fails as stated: the parameter lines of the sample header are 60
    characters wide, so [width / 20] is 3, and [process_header] returns 2
    mappings, not 3. *)
Lemma process_header_mappings_counterexample :
  ∃ settings params loops,
    process_header Sample.header_with_settings "UTC" "en_US"
      = Ret (settings, params, loops) ∧
    Forall (fun p => str_len p / 20 = 3)
           (slice_from (split (default EmptyString
                                 (header_sections Sample.header_with_settings !! 2%nat))
                              nl) (-5)) ∧
    len params = 2 ∧
    len params ≠ 3.
Proof.
  eexists _, _, _. split; [vm_compute; reflexivity|].
  split; [|split; [reflexivity|vm_compute; discriminate]].
  vm_compute. repeat constructor.
Qed.

(** A field that holds [sNaN]: [parse_decimal] accepts it, [float()]
    rejects the [Decimal] with a [ValueError], and the stripped text is
    kept; the next field is a number. *)
Lemma parse_param_signalling_nan :
  parse_param "en_US" (Sample.param_line "Imax" ["sNaN"; "1.5"]) 1
    = Ret (PStr "sNaN") ∧
  parse_param "en_US" (Sample.param_line "Imax" ["sNaN"; "1.5"]) 2
    = Ret (PFloat 1.5).
Proof. split; vm_compute; reflexivity. Qed.

(** The sample header: the first format parses its timestamp. *)
Lemma process_header_timestamp_witness :
  (∀ uts, first_match "01/02/2021 03:04:05" "UTC" uts →
     process_header Sample.header_with_settings "UTC" "en_US" =
       (loops ← loops_section (header_sections Sample.header_with_settings);
        Ret ([("posix_timestamp", PFloat uts);
              ("technique", PStr "CC");
              ("raw", PStr (join nl Sample.header_with_settings))],
             [[("Ns", PFloat 0); ("set_I/C", PStr "I");
               ("E_range_min", PFloat (-5)); ("E_range_max", PFloat 5);
               ("I_range", PStr "100 mA")];
              [("Ns", PFloat 1); ("set_I/C", PStr "C");
               ("E_range_min", PFloat 0); ("E_range_max", PFloat 10);
               ("I_range", PStr "10 mA")]], loops))) ∧
  (no_match "01/02/2021 03:04:05" "UTC" →
     process_header Sample.header_with_settings "UTC" "en_US" =
       raise NotImplementedError
             ("Time format for " ++ "01/02/2021 03:04:05" ++ " not implemented.")).
Proof.
  eapply (process_header_timestamp Sample.header_with_settings "UTC" "en_US"
            "Constant Current" _
            ("CC", ["Ns"; "set_I/C"; "E_range_min"; "E_range_max"; "I_range"])).
  - vm_compute. reflexivity.
  - vm_compute. reflexivity.
  - vm_compute. discriminate.
  - vm_compute. reflexivity.
  - vm_compute. reflexivity.
  - vm_compute. reflexivity.
  - vm_compute. reflexivity.
Defined.

End HeaderFacts.

(** ** [process_data] *)

Module DataFacts.
Import Py Columns Mpt PyFacts.

(** *** The column table *)

Lemma table_forall (P : string * (string * option string) → bool) :
  forallb P column_units = true →
  ∀ n cu, dict_get column_units n = Some cu → P (n, cu) = true.
Proof.
  intros H n cu Hget%dict_get_In.
  by apply (proj1 (forallb_forall P column_units) H).
Qed.

(** The six labels with a micro sign are found under the text a file has
    for them, in which the sign is the one character 181. *)
Lemma micro_labels :
  String.length micro = 1%nat ∧
  Forall (fun n => dict_mem column_units n = true)
         ["Capacitance charge/" ++ micro ++ "F";
          "Capacitance discharge/" ++ micro ++ "F";
          "Cp-2/" ++ micro ++ "F-2"; "Cp/" ++ micro ++ "F";
          "Cs-2/" ++ micro ++ "F-2"; "Cs/" ++ micro ++ "F"].
Proof. split; [reflexivity|]. repeat constructor. Qed.

(** No label is given the canonical name ["control_V_I"]. *)
Lemma no_control_V_I (n : string) (cu : string * option string) :
  dict_get column_units n = Some cu → fst cu ≠ "control_V_I".
Proof.
  intros H.
  apply (table_forall
           (fun e => negb (String.eqb (fst (snd e)) "control_V_I"))) in H;
    [|by vm_compute].
  cbn in H. intros Heq. rewrite Heq in H. by vm_compute in H.
Qed.

(** Whatever label maps to ["control_VI"] gives it the unit ["mA"]. *)
Lemma control_VI_unit (n u : string) :
  dict_get column_units n = Some ("control_VI", Some u) → u = "mA".
Proof.
  intros H.
  apply (table_forall
           (fun e => negb (String.eqb (fst (snd e)) "control_VI")
                     || match snd (snd e) with
                        | Some u => String.eqb u "mA"
                        | None => false
                        end)) in H; [|by vm_compute].
  cbn in H. by apply String.eqb_eq.
Qed.

Section Data.
Context {env : MptEnv}.

(** *** [column_table] *)

Lemma dict_item_ret {V} (d : dict V) (k : string) (v : V) :
  dict_item d k = Ret v ↔ dict_get d k = Some v.
Proof.
  unfold dict_item, raise. destruct (dict_get d k); split; congruence.
Qed.

(** Canonical names and units come from entries of the table. *)
Lemma column_table_sound (names columns : list string) (units : dict string) :
  column_table names = Ret (columns, units) →
  (∀ c, In c columns → ∃ n cu, dict_get column_units n = Some cu ∧ c = fst cu) ∧
  (∀ c u, dict_get units c = Some u →
          ∃ n, dict_get column_units n = Some (c, Some u)).
Proof.
  unfold column_table. intros H.
  apply (foldM_invariant
           (fun st : list string * dict string =>
              (∀ c, In c (fst st) →
                    ∃ n cu, dict_get column_units n = Some cu ∧ c = fst cu) ∧
              (∀ c u, dict_get (snd st) c = Some u →
                      ∃ n, dict_get column_units n = Some (c, Some u))))
    in H; [done|by split|].
  intros [cols us] n st' _ [Hc Hu] Hstep. cbn in *.
  apply bind_ret in Hstep as ([c ou] & Hget%dict_item_ret & [= <-]). cbn.
  split.
  - intros c' [Hin|[<-|[]]]%in_app_or; [by apply Hc|]. by exists n, (c, ou).
  - intros c' u'. destruct ou as [u|]; [|by apply Hu].
    rewrite dict_get_set. destruct (String.eqb_spec c c') as [<-|?].
    + intros [= <-]. by exists n.
    + by apply Hu.
Qed.

(** Every label of the header line has its canonical name among the
    columns, and its unit, if it has one, in the unit table. *)
Lemma column_table_complete (names : list string) :
  ∀ cols0 units0 columns units,
    foldM (fun st n =>
             cu ← dict_item column_units n;
             Ret ((fst st ++ [fst cu])%list,
                  match snd cu with
                  | Some u => dict_set (snd st) (fst cu) u
                  | None => snd st
                  end)) (cols0, units0) names = Ret (columns, units) →
    (∀ c, In c cols0 → In c columns) ∧
    (∀ c, dict_mem units0 c = true → dict_mem units c = true) ∧
    (∀ n c u, In n names → dict_get column_units n = Some (c, Some u) →
              In c columns ∧ dict_mem units c = true).
Proof.
  induction names as [|n names IH]; intros cols0 units0 columns units; cbn.
  - intros [= <- <-]. repeat split; done.
  - intros (st1 & Hstep & H)%bind_ret.
    apply bind_ret in Hstep as ([c ou] & Hget%dict_item_ret & [= <-]). cbn in H.
    apply IH in H as (Hcols & Hunits & Hnames).
    split; [|split].
    + intros c' Hin. apply Hcols, in_or_app. by left.
    + intros c' Hin. apply Hunits. destruct ou as [u|]; [|done].
      unfold dict_mem in *. rewrite dict_get_set.
      by destruct (String.eqb c c').
    + intros n' c' u' [Heq|Hin] Hn'; [subst n'|by eapply Hnames].
      rewrite Hget in Hn'. injection Hn' as -> ->. split.
      * apply Hcols, in_or_app. right. by left.
      * apply Hunits. unfold dict_mem. rewrite dict_get_set.
        by rewrite String.eqb_refl.
Qed.

(** The canonical names come in the order of the labels. *)
Lemma column_fold_order (names : list string) :
  ∀ cols0 units0 columns units,
    foldM (fun (st : list string * dict string) n =>
             cu ← dict_item column_units n;
             Ret ((fst st ++ [fst cu])%list,
                  match snd cu with
                  | Some u => dict_set (snd st) (fst cu) u
                  | None => snd st
                  end)) (cols0, units0) names = Ret (columns, units) →
    ∃ cs, columns = (cols0 ++ cs)%list ∧
          Forall2 (fun n c => ∃ u, dict_get column_units n = Some (c, u)) names cs.
Proof.
  induction names as [|n names IH]; intros cols0 units0 columns units; cbn [foldM].
  - intros [= <- <-]. exists []. by rewrite app_nil_r.
  - intros (st1 & Hstep & H)%bind_ret.
    apply bind_ret in Hstep as ([c ou] & Hget%dict_item_ret & [= <-]).
    cbn [fst snd] in H. apply IH in H as (cs & -> & Hcs).
    exists (c :: cs). rewrite <- app_assoc. split; [done|].
    constructor; [by exists ou|done].
Qed.

(** *** One data line *)

Lemma map_fst_combine {A B} (l : list A) (l' : list B) :
  map fst (combine l l') = firstn (length l') l.
Proof.
  revert l'. induction l as [|x l IH]; intros [|y l']; cbn; try done.
  by rewrite IH.
Qed.

Lemma row_vals_fold (units : dict string) (locale : string)
    (cells : list (string * string)) :
  ∀ vals0 vals,
    foldM (fun vals (nv : string * string) =>
             v ← parse_cell units locale (fst nv) (snd nv);
             Ret (dict_set vals (fst nv) v)) vals0 cells = Ret vals →
    ∀ k, In k (dict_keys vals) ↔ In k (dict_keys vals0) ∨ In k (map fst cells).
Proof.
  induction cells as [|[n x] cells IH]; intros vals0 vals; cbn [foldM].
  - intros [= <-] k. split; [by left|]. by intros [?|[]].
  - intros (vals1 & Hstep & Hrest)%bind_ret k.
    apply bind_ret in Hstep as (v & _ & [= <-]). cbn [fst snd] in *.
    rewrite (IH _ _ Hrest), dict_keys_set. cbn [map fst In]. split.
    + intros [[->|?]|?]; [right; by left|by left|right; by right].
    + intros [?|[<-|?]]; [left; by right|left; by left|by right].
Qed.

(** The keys of [vals] are canonical column names. *)
Lemma row_vals_keys (units : dict string) (locale : string)
    (columns values : list string) (vals : dict pyobj) :
  row_vals units locale columns values = Ret vals →
  ∀ k, In k (dict_keys vals) → In k columns.
Proof.
  unfold row_vals.
  apply (foldM_invariant
           (fun vals : dict pyobj => ∀ k, In k (dict_keys vals) → In k columns));
    [by intros ? []|].
  intros vs [name value] vs' Hin Hvs Hstep. cbn in Hstep.
  apply bind_ret in Hstep as (v & _ & [= <-]).
  intros k [->|Hk]%dict_keys_set; [|by apply Hvs].
  by apply in_combine_l in Hin.
Qed.

Lemma rename_control_skip (controls : list pyobj) (vals : dict pyobj)
    (units : dict string) :
  dict_mem vals "control_V_I" = false →
  rename_control controls vals units = Ret (vals, units).
Proof. unfold rename_control. by intros ->. Qed.

(** In a line of a file the branch of lines 212-216 is not taken. *)
Lemma control_branch_dead (names columns : list string) (units0 units : dict string)
    (locale : string) (values : list string) (vals : dict pyobj) :
  column_table names = Ret (columns, units0) →
  row_vals units locale columns values = Ret vals →
  dict_mem vals "control_V_I" = false.
Proof.
  intros [Hcols _]%column_table_sound Hvals.
  destruct (dict_mem vals "control_V_I") eqn:Hmem; [|done].
  apply dict_mem_keys, (row_vals_keys _ _ _ _ _ Hvals), Hcols in Hmem
    as (n & cu & Hget & Heq).
  by destruct (no_control_V_I n cu Hget).
Qed.

(** *** The loop over the data lines *)

Lemma fold_append_keys (li : Z) (data : dict (list pyobj)) (row : dict pyobj) :
  ∀ (acc : dict (list pyobj)) k,
    In k (dict_keys
            (fold_left
               (fun acc (kv : string * pyobj) =>
                  if dict_mem data (fst kv) then acc
                  else (acc ++ [(fst kv, repeat PNone (Z.to_nat li) ++ [snd kv])])%list)
               row acc)) →
    In k (dict_keys acc) ∨ In k (dict_keys row).
Proof.
  induction row as [|[k0 v0] row IH]; intros acc k; cbn; [by left|].
  intros [Hin|Hin]%IH; [|right; by right].
  destruct (dict_mem data k0); [by left|].
  unfold dict_keys in Hin. rewrite map_app in Hin.
  apply in_app_or in Hin as [Hin|[<-|[]]]; [by left|right; by left].
Qed.

Lemma append_column_keys (li : Z) (row : dict pyobj) (data : dict (list pyobj))
    (k : string) :
  In k (dict_keys (append_column li row data)) →
  In k (dict_keys data) ∨ In k (dict_keys row).
Proof.
  unfold append_column. intros [Hin|Hin]%fold_append_keys; [left|by right].
  unfold dict_keys in *. rewrite map_map in Hin. exact Hin.
Qed.

(** The loop never changes [units], and only ever adds canonical column
    names to [allvals]. *)
Lemma process_rows_invariant (names columns : list string) (units : dict string)
    (Eranges Iranges controls : list pyobj) (locale : string)
    (rows : list (Z * string)) (st : acc) :
  column_table names = Ret (columns, units) →
  foldM (process_row Eranges Iranges controls locale columns)
        {| acc_units := units; allvals := []; allmeta := [] |} rows = Ret st →
  acc_units st = units ∧ ∀ k, In k (dict_keys (allvals st)) → In k columns.
Proof.
  intros Htable.
  apply (foldM_invariant
           (fun st : acc =>
              acc_units st = units ∧
              ∀ k, In k (dict_keys (allvals st)) → In k columns));
    [by split; [|intros ? []]|].
  intros st0 row st1 _ [Hu Hk] Hstep. unfold process_row in Hstep.
  apply bind_ret in Hstep as (vals & Hvals & Hstep).
  apply bind_ret in Hstep as (ei & _ & Hstep).
  rewrite Hu in Hvals, Hstep.
  rewrite (rename_control_skip _ _ _ (control_branch_dead _ _ _ _ _ _ _ Htable Hvals))
    in Hstep.
  apply bind_ret in Hstep as (vu & [= <-] & Hstep).
  apply bind_ret in Hstep as (devs & _ & [= <-]). cbn.
  split; [done|].
  intros k [Hin|Hin]%append_column_keys; [by apply Hk|].
  by eapply row_vals_keys.
Qed.

Lemma dict_get_map {V W} (F : string → V → W) (d : dict V) (k : string) :
  dict_get (map (fun kv : string * V => (fst kv, F (fst kv) (snd kv))) d) k
  = F k <$> dict_get d k.
Proof.
  induction d as [|[k0 v0] d IH]; cbn; [done|].
  by destruct (String.eqb_spec k0 k) as [->|?].
Qed.

(** *** The table the loop builds *)

Lemma dict_get_app {V} (d e : dict V) (k : string) :
  dict_get (d ++ e)%list k
  = match dict_get d k with Some v => Some v | None => dict_get e k end.
Proof.
  induction d as [|[k0 v0] d IH]; cbn; [done|].
  by destruct (String.eqb k0 k).
Qed.

(** What [append_column] leaves under the key [k]. *)
Lemma append_column_get (li : Z) (row : dict pyobj) (data : dict (list pyobj))
    (k : string) :
  dict_get (append_column li row data) k
  = match dict_get data k with
    | Some l => Some (l ++ [default PNone (dict_get row k)])%list
    | None =>
        match dict_get row k with
        | Some v => Some (repeat PNone (Z.to_nat li) ++ [v])%list
        | None => None
        end
    end.
Proof.
  unfold append_column.
  assert (Hfold : ∀ (acc : dict (list pyobj)),
    dict_get
      (fold_left
         (fun acc (kv : string * pyobj) =>
            if dict_mem data (fst kv) then acc
            else (acc ++ [(fst kv, repeat PNone (Z.to_nat li) ++ [snd kv])])%list)
         row acc) k
    = match dict_get acc k with
      | Some l => Some l
      | None =>
          if dict_mem data k then None
          else match dict_get row k with
               | Some v => Some (repeat PNone (Z.to_nat li) ++ [v])%list
               | None => None
               end
      end).
  { induction row as [|[k0 v0] row IH]; intros acc; cbn [fold_left fst snd].
    - cbn. destruct (dict_get acc k); [done|]. by destruct (dict_mem data k).
    - rewrite IH. cbn [dict_get].
      destruct (String.eqb_spec k0 k) as [->|Hne].
      + destruct (dict_mem data k) eqn:Hmem; [done|].
        rewrite dict_get_app. cbn. rewrite String.eqb_refl.
        by destruct (dict_get acc k).
      + destruct (dict_mem data k0); [done|].
        rewrite dict_get_app. cbn.
        rewrite (proj2 (String.eqb_neq k0 k) Hne).
        by destruct (dict_get acc k). }
  rewrite Hfold.
  rewrite (dict_get_map
             (fun k' (v : list pyobj) =>
                (v ++ [default PNone (dict_get row k')])%list)).
  unfold dict_mem. by destruct (dict_get data k).
Qed.

(** [data] is the table of the rows [rows]. *)
Lemma table_step (rows : list (dict pyobj)) (data : dict (list pyobj))
    (vals : dict pyobj) :
  (∀ k, dict_get data k = if existsb (fun v : dict pyobj => dict_mem v k) rows
                          then Some (column_of rows k) else None) →
  ∀ k, dict_get (append_column (len rows) vals data) k
       = if existsb (fun v : dict pyobj => dict_mem v k) (rows ++ [vals])%list
         then Some (column_of (rows ++ [vals])%list k) else None.
Proof.
  intros Hdata k. rewrite append_column_get, Hdata, existsb_app.
  unfold column_of. rewrite map_app. cbn [map existsb].
  destruct (existsb _ rows) eqn:Hex; [done|]. cbn [orb].
  rewrite orb_false_r. unfold dict_mem.
  destruct (dict_get vals k) as [v|] eqn:Hv; [|done]. cbn [default].
  do 2 f_equal. unfold len. rewrite Nat2Z.id.
  clear Hdata. induction rows as [|r rows IH]; [done|].
  cbn [existsb] in Hex. apply orb_false_elim in Hex as [Hr Hex].
  cbn [length repeat map]. unfold dict_mem in Hr.
  destruct (dict_get r k); [done|]. cbn [default]. f_equal. by apply IH.
Qed.

Lemma range_cons (a b : Z) : a < b → range a b = a :: range (a + 1) b.
Proof.
  intros Hab. unfold range.
  replace (Z.to_nat (b - a)) with (S (Z.to_nat (b - (a + 1)))) by lia.
  cbn [seq map]. f_equal; [lia|].
  rewrite <- seq_shift, map_map. apply map_ext. intros k. lia.
Qed.

(** The loop over the data lines, from line number [len rows0] on. *)
Lemma process_rows_table (names columns : list string) (units : dict string)
    (Eranges Iranges controls : list pyobj) (locale : string) :
  column_table names = Ret (columns, units) →
  ∀ (lines : list string) (rows0 : list (dict pyobj)) (st0 st : acc),
    acc_units st0 = units →
    (∀ k, dict_get (allvals st0) k
          = if existsb (fun v : dict pyobj => dict_mem v k) rows0
            then Some (column_of rows0 k) else None) →
    foldM (process_row Eranges Iranges controls locale columns) st0
          (combine (range (len rows0) (len rows0 + len lines)) lines) = Ret st →
    ∃ rows,
      Forall2 (fun line vals =>
                 row_vals units locale columns (split line tab) = Ret vals)
              lines rows ∧
      acc_units st = units ∧
      ∀ k, dict_get (allvals st) k
           = if existsb (fun v : dict pyobj => dict_mem v k) (rows0 ++ rows)%list
             then Some (column_of (rows0 ++ rows)%list k) else None.
Proof.
  intros Htable lines.
  induction lines as [|line lines IH]; intros rows0 st0 st Hu Hdata.
  - rewrite combine_nil. cbn [foldM]. intros [= <-]. exists [].
    rewrite app_nil_r. by repeat split.
  - rewrite range_cons by (unfold len; cbn [length]; lia).
    cbn [combine foldM]. intros (st1 & Hstep & Hrest)%bind_ret.
    unfold process_row in Hstep. cbn [fst snd] in Hstep.
    apply bind_ret in Hstep as (vals & Hvals & Hstep).
    apply bind_ret in Hstep as (ei & _ & Hstep).
    rewrite Hu in Hvals, Hstep.
    rewrite (rename_control_skip _ _ _ (control_branch_dead _ _ _ _ _ _ _ Htable Hvals))
      in Hstep.
    apply bind_ret in Hstep as (vu & [= <-] & Hstep).
    apply bind_ret in Hstep as (devs & _ & [= <-]). cbn [fst snd] in Hrest.
    replace (len rows0 + 1) with (len (rows0 ++ [vals])%list) in Hrest
      by (unfold len; rewrite length_app; cbn [length]; lia).
    replace (len rows0 + len (line :: lines))
      with (len (rows0 ++ [vals])%list + len lines) in Hrest
      by (unfold len; rewrite length_app; cbn [length]; lia).
    apply IH in Hrest as (rows & Hrows & Hu' & Hdata').
    + exists (vals :: rows). rewrite <- app_assoc in Hdata'. cbn [app] in Hdata'.
      split; [by constructor|]. by split.
    + done.
    + cbn [allvals]. unfold append_dicts. cbn [fst]. by apply table_step.
Qed.

(** C10: for the lines of any file, no line of the loop ever holds a
    ["control_V_I"] value, because no raw label is mapped to that name, so
    the renaming branch of lines 212-216 is never entered and leaves [vals]
    and [units] as they are.  The returned Dataset has no ["control_V_I"]
    variable; its variables are the columns of the values the data lines
    gave, under the names [column_units] gives them.  So the column of the
    raw label ["control/V/mA"] is named ["control_VI"], its unit stays
    ["mA"], and it is in the Dataset, with the values of the lines, as
    soon as one data line has a field for it. *)
Theorem control_branch_unreachable (lines : list string)
    (Eranges Iranges controls : list pyobj) (locale header : string)
    (columns : list string) (units : dict string) :
  list_item lines 1 = Ret header →
  column_table (slice_to (split header tab) (-1)) = Ret (columns, units) →
  (∀ values vals,
     row_vals units locale columns values = Ret vals →
     dict_mem vals "control_V_I" = false ∧
     rename_control controls vals units = Ret (vals, units)) ∧
  (∀ st, process_rows lines Eranges Iranges controls locale = Ret st →
         acc_units st = units) ∧
  (∀ ds, process_data lines Eranges Iranges controls locale = Ret ds →
     dict_mem (ds_vars ds) "control_V_I" = false ∧
     ∃ rows,
       Forall2 (fun line vals =>
                  row_vals units locale columns (split line tab) = Ret vals)
               (slice_from lines 2) rows ∧
       (∀ k, dict_mem (ds_vars ds) k
             = existsb (fun vals : dict pyobj => dict_mem vals k) rows) ∧
       (∀ k da, dict_get (ds_vars ds) k = Some da →
                da_values da = column_of rows k ∧
                da_units da = dict_get units k) ∧
       (In "control/V/mA" (slice_to (split header tab) (-1)) →
          In "control_VI" columns ∧
          dict_get units "control_VI" = Some "mA" ∧
          (∀ da, dict_get (ds_vars ds) "control_VI" = Some da →
                 da_units da = Some "mA") ∧
          ∀ (i : nat) line,
            slice_to (split header tab) (-1) !! i = Some "control/V/mA" →
            In line (slice_from lines 2) →
            (i < length (split line tab))%nat →
            ∃ da, dict_get (ds_vars ds) "control_VI" = Some da ∧
                  da_units da = Some "mA" ∧
                  da_values da = column_of rows "control_VI")).
Proof.
  intros Hheader Htable.
  assert (Hrows : ∀ st,
            process_rows lines Eranges Iranges controls locale = Ret st →
            acc_units st = units ∧
            ∀ k, In k (dict_keys (allvals st)) → In k columns).
  { intros st. unfold process_rows.
    rewrite (bind_ret_l _ _ _ Hheader), (bind_ret_l _ _ _ Htable).
    by apply process_rows_invariant with (names := slice_to (split header tab) (-1)). }
  split; [|split].
  - intros values vals Hvals.
    pose proof (control_branch_dead _ _ _ _ _ _ _ Htable Hvals) as Hdead.
    split; [done|by apply rename_control_skip].
  - intros st Hst. by apply Hrows.
  - intros ds Hds. unfold process_data in Hds.
    apply bind_ret in Hds as (st & Hst & [= <-]).
    pose proof Hst as [Hu Hk]%Hrows.
    unfold dicts_to_dataset. cbn [ds_vars].
    split.
    { destruct (dict_mem _ "control_V_I") eqn:Hmem; [|done].
      apply dict_mem_keys in Hmem. unfold dict_keys in Hmem.
      rewrite map_map in Hmem. apply Hk in Hmem.
      apply column_table_sound in Htable as [Hcols _].
      apply Hcols in Hmem as (n & cu & Hget & Heq).
      by destruct (no_control_V_I n cu Hget). }
    unfold process_rows in Hst.
    rewrite (bind_ret_l _ _ _ Hheader), (bind_ret_l _ _ _ Htable) in Hst.
    cbn [fst snd] in Hst. unfold enumerate in Hst.
    destruct (process_rows_table _ _ _ Eranges Iranges controls locale Htable
                (slice_from lines 2) []
                {| acc_units := units; allvals := []; allmeta := [] |} st
                eq_refl (fun k => eq_refl) Hst) as (rows & Hlines & _ & Hdata).
    cbn [app] in Hdata.
    set (F := fun (k : string) (v : list pyobj) =>
                {| da_values := v; da_sigma := dict_get (allmeta st) k;
                   da_units := dict_get (acc_units st) k |}).
    assert (Hvar : ∀ k, dict_get (map (fun kv : string * list pyobj =>
                                         (fst kv, F (fst kv) (snd kv))) (allvals st)) k
                        = if existsb (fun vals : dict pyobj => dict_mem vals k) rows
                          then Some (F k (column_of rows k)) else None).
    { intros k. rewrite (dict_get_map F), Hdata. by destruct (existsb _ rows). }
    exists rows. split; [done|]. split; [|split].
    + intros k. unfold dict_mem. fold (F k). rewrite Hvar.
      by destruct (existsb _ rows).
    + intros k da. rewrite Hvar. destruct (existsb _ rows); [|done].
      intros [= <-]. cbn. by rewrite Hu.
    + intros Hin.
      pose proof Htable as Hsound%column_table_sound.
      pose proof Htable as Horder. unfold column_table in Htable, Horder.
      apply column_table_complete in Htable as (_ & _ & Hnames).
      apply column_fold_order in Horder as (cs & -> & Horder). cbn [app] in *.
      destruct (Hnames "control/V/mA" "control_VI" "mA" Hin eq_refl)
        as [Hcol Hmem].
      assert (Hunit : dict_get units "control_VI" = Some "mA").
      { unfold dict_mem in Hmem.
        destruct (dict_get units "control_VI") as [u|] eqn:Hu'; [|done].
        destruct Hsound as [_ Hus]. apply Hus in Hu' as (n & Hn).
        by rewrite (control_VI_unit n u Hn). }
      split; [done|]. split; [done|]. split.
      * intros da. rewrite Hvar. destruct (existsb _ rows); [|done].
        intros [= <-]. cbn. by rewrite Hu.
      * intros i line Hi Hline Hlen.
        destruct (Forall2_lookup_l _ _ _ _ _ Horder Hi) as (c & Hc & u & Hcu).
        assert (c = "control_VI") as -> by (vm_compute in Hcu; congruence).
        apply list_elem_of_In, list_elem_of_lookup_1 in Hline as (j & Hj).
        destruct (Forall2_lookup_l _ _ _ _ _ Hlines Hj) as (vals & Hvals & Hrv).
        assert (Hkey : dict_mem vals "control_VI" = true).
        { apply dict_mem_keys. unfold row_vals in Hrv.
          apply (row_vals_fold _ _ _ _ _ Hrv). right.
          rewrite map_fst_combine. apply list_elem_of_In.
          apply (list_elem_of_lookup_2 _ i). rewrite lookup_take_lt by done.
          exact Hc. }
        assert (Hex : existsb (fun vals : dict pyobj => dict_mem vals "control_VI") rows
                      = true).
        { apply existsb_exists. exists vals. split; [|done].
          apply list_elem_of_In. by eapply list_elem_of_lookup_2. }
        eexists. rewrite Hvar, Hex. split; [done|]. cbn. by rewrite Hu.
Qed.

(** *** Numeric parsing *)

Lemma parse_cell_unit (units : dict string) (locale name value u : string) :
  dict_get units name = Some u →
  (∀ v, parse_cell units locale name value = Ret v →
        parsed_or_stripped locale value v) ∧
  (∀ e, parse_cell units locale name value = Raise e →
        isinstance e ValueError = false ∧ to_float value locale = Raise e).
Proof.
  intros Hu. unfold parse_cell, parsed_or_stripped. rewrite Hu.
  destruct (to_float value locale) as [f|e0] eqn:Hf.
  - split; [|done]. intros v [= <-]. left.
    apply bind_ret in Hf as (d & Hd & Hf). by exists d, f.
  - destruct (isinstance e0 ValueError) eqn:He.
    + split; [|done]. intros v [= <-]. right. by exists e0.
    + split; [done|]. by intros e [= <-].
Qed.

(** A [ValueError] of [float()] is caught like one of [parse_decimal]. *)
Lemma float_error_caught (value locale : string) (d : Decimal) (e : exn) :
  parse_decimal value locale = Ret d →
  float_of_decimal d = Raise e →
  isinstance e ValueError = true →
  to_float value locale = Raise e.
Proof. intros Hd He _. unfold to_float. by rewrite Hd. Qed.

Lemma parse_cell_no_unit (units : dict string) (locale name value : string)
    (e : exn) :
  dict_get units name = None →
  parse_decimal value locale = Raise e →
  parse_cell units locale name value = Raise e.
Proof. intros Hu He. unfold parse_cell. by rewrite Hu, He. Qed.

(** C6 (as amended): a sequence parameter of the header, and a data value
    in a column that has a unit, is the parsed number when [parse_decimal]
    and [float()] both succeed, and the stripped text when one of them
    raises a [ValueError], as [float()] does for a [Decimal] it cannot
    convert; no [ValueError] leaves that step.  But a text left in a column
    with a unit makes the assertion of line 221 fail, and in a column
    without a unit the error of [parse_decimal] is raised to the caller as
    it is. *)
Theorem numeric_parsing_fallback (locale : string) :
  (∀ param seq,
     (∀ v, parse_param locale param seq = Ret v →
           parsed_or_stripped locale (field param seq) v) ∧
     (∀ e, parse_param locale param seq = Raise e →
           isinstance e ValueError = false ∧
           to_float (field param seq) locale = Raise e) ∧
     (∀ d e, parse_decimal (field param seq) locale = Ret d →
             float_of_decimal d = Raise e →
             isinstance e ValueError = true →
             parse_param locale param seq = Ret (PStr (strip (field param seq))))) ∧
  (∀ units name value u,
     dict_get units name = Some u →
     (∀ v, parse_cell units locale name value = Ret v →
           parsed_or_stripped locale value v) ∧
     (∀ e, parse_cell units locale name value = Raise e →
           isinstance e ValueError = false ∧
           to_float value locale = Raise e) ∧
     (∀ d e, parse_decimal value locale = Ret d →
             float_of_decimal d = Raise e →
             isinstance e ValueError = true →
             parse_cell units locale name value = Ret (PStr (strip value)))) ∧
  (∀ units vals Erange Irange name s u,
     In (name, PStr s) vals →
     dict_get units name = Some u →
     ∀ devs, row_devs units vals Erange Irange ≠ Ret devs) ∧
  (∀ units name value e,
     dict_get units name = None →
     parse_decimal value locale = Raise e →
     parse_cell units locale name value = Raise e ∧
     ∀ columns values,
       In (name, value) (combine columns values) →
       ∀ vals, row_vals units locale columns values ≠ Ret vals).
Proof.
  split; [|split; [|split]].
  - intros param seq. split; [|split].
    + apply HeaderFacts.parse_param_spec.
    + unfold parse_param, field. intros e.
      destruct (to_float _ locale) as [f|e0]; [done|].
      destruct (isinstance e0 ValueError) eqn:He; [done|]. by intros [= <-].
    + intros d e Hd Hf He. unfold parse_param. fold (field param seq).
      by rewrite (float_error_caught _ _ _ _ Hd Hf He), He.
  - intros units name value u Hu.
    destruct (parse_cell_unit units locale name value u Hu) as [Hret Hraise].
    split; [done|]. split; [done|].
    intros d e Hd Hf He. unfold parse_cell. rewrite Hu.
    by rewrite (float_error_caught _ _ _ _ Hd Hf He), He.
  - intros units vals Erange Irange name s u Hin Hu devs.
    unfold row_devs. eapply foldM_stuck; [exact Hin|].
    intros d d'. cbn. by rewrite Hu.
  - intros units name value e Hu He. split; [by apply parse_cell_no_unit|].
    intros columns values Hin vals. unfold row_vals.
    eapply foldM_stuck; [exact Hin|].
    intros d d'. cbn. by rewrite (parse_cell_no_unit _ _ _ _ _ Hu He).
Qed.

End Data.

(** The data lines of the sample file: four labels, among them
    ["control/V/mA"], and two data lines of four fields. *)
Lemma control_branch_unreachable_witness :
  (∀ values vals,
     row_vals [("time", "s"); ("control_VI", "mA"); ("Ewe", "V")] "en_US"
              ["Ns"; "time"; "control_VI"; "Ewe"] values = Ret vals →
     dict_mem vals "control_V_I" = false ∧
     rename_control [PStr "I"; PStr "C"] vals
                    [("time", "s"); ("control_VI", "mA"); ("Ewe", "V")]
     = Ret (vals, [("time", "s"); ("control_VI", "mA"); ("Ewe", "V")])) ∧
  (∀ st, process_rows Sample.data_with_settings
                      [PFloat 10; PFloat 10] [PStr "100 mA"; PStr "10 mA"]
                      [PStr "I"; PStr "C"] "en_US" = Ret st →
         acc_units st = [("time", "s"); ("control_VI", "mA"); ("Ewe", "V")]) ∧
  (∀ ds, process_data Sample.data_with_settings
                      [PFloat 10; PFloat 10] [PStr "100 mA"; PStr "10 mA"]
                      [PStr "I"; PStr "C"] "en_US" = Ret ds →
     dict_mem (ds_vars ds) "control_V_I" = false ∧
     ∃ rows,
       Forall2 (fun line vals =>
                  row_vals [("time", "s"); ("control_VI", "mA"); ("Ewe", "V")] "en_US"
                           ["Ns"; "time"; "control_VI"; "Ewe"] (split line tab)
                  = Ret vals)
               (slice_from Sample.data_with_settings 2) rows ∧
       (∀ k, dict_mem (ds_vars ds) k
             = existsb (fun vals : dict pyobj => dict_mem vals k) rows) ∧
       (∀ k da, dict_get (ds_vars ds) k = Some da →
                da_values da = column_of rows k ∧
                da_units da
                = dict_get [("time", "s"); ("control_VI", "mA"); ("Ewe", "V")] k) ∧
       (In "control/V/mA" ["Ns"; "time/s"; "control/V/mA"; "Ewe/V"] →
          In "control_VI" ["Ns"; "time"; "control_VI"; "Ewe"] ∧
          dict_get [("time", "s"); ("control_VI", "mA"); ("Ewe", "V")] "control_VI"
          = Some "mA" ∧
          (∀ da, dict_get (ds_vars ds) "control_VI" = Some da →
                 da_units da = Some "mA") ∧
          ∀ (i : nat) line,
            ["Ns"; "time/s"; "control/V/mA"; "Ewe/V"] !! i = Some "control/V/mA" →
            In line (slice_from Sample.data_with_settings 2) →
            (i < length (split line tab))%nat →
            ∃ da, dict_get (ds_vars ds) "control_VI" = Some da ∧
                  da_units da = Some "mA" ∧
                  da_values da = column_of rows "control_VI")).
Proof.
  apply (control_branch_unreachable Sample.data_with_settings
           [PFloat 10; PFloat 10] [PStr "100 mA"; PStr "10 mA"]
           [PStr "I"; PStr "C"] "en_US"
           ("Ns" ++ tab ++ "time/s" ++ tab ++ "control/V/mA" ++ tab ++ "Ewe/V" ++ tab)).
  - vm_compute. reflexivity.
  - vm_compute. reflexivity.
Defined.

(** In the Dataset of the sample file the control column is the variable
    ["control_VI"], in milliampere, with the two values of the file. *)
Lemma control_column_sample :
  ∃ ds, process_data Sample.data_with_settings
                     [PFloat 10; PFloat 10] [PStr "100 mA"; PStr "10 mA"]
                     [PStr "I"; PStr "C"] "en_US" = Ret ds ∧
        dict_keys (ds_vars ds) = ["Ns"; "time"; "control_VI"; "Ewe"] ∧
        ∃ da, dict_get (ds_vars ds) "control_VI" = Some da ∧
              da_units da = Some "mA" ∧
              da_values da = [PFloat 10; PFloat 20].
Proof.
  eexists. split; [vm_compute; reflexivity|]. split; [reflexivity|].
  eexists. split; [reflexivity|]. split; reflexivity.
Qed.

(** The text ["abc"] in the column ["Ns"], which has no unit, and the text
    ["sNaN"] in the column ["Ewe"], which has one: [parse_decimal] accepts
    it and [float()] does not. *)
Lemma numeric_parsing_fallback_witness :
  (parse_cell [] "en_US" "Ns" "abc"
     = Raise (mk_exn NumberFormatError "abc is not a valid decimal number") ∧
   ∀ vals, row_vals [] "en_US" ["Ns"] ["abc"] ≠ Ret vals) ∧
  parse_cell [("Ewe", "V")] "en_US" "Ewe" " sNaN" = Ret (PStr "sNaN").
Proof.
  destruct (numeric_parsing_fallback "en_US") as (_ & Hunit & _ & Hraise).
  destruct (Hraise [] "Ns" "abc"
              (mk_exn NumberFormatError "abc is not a valid decimal number")
              eq_refl eq_refl) as [Hcell Hrow].
  destruct (Hunit [("Ewe", "V")] "Ewe" " sNaN" "V" eq_refl) as (_ & _ & Hfloat).
  split; [split; [exact Hcell|apply Hrow; by left]|].
  exact (Hfloat Sample.SNaN
           (mk_exn ValueError "cannot convert signaling NaN to float")
           eq_refl eq_refl eq_refl).
Defined.

(** C6 fails as stated: in the column ["Ns"], which has no unit, the text
    ["abc"] makes [process_data] raise babel's [NumberFormatError]; in the
    column ["Ewe"], which has one, it is kept as a string and the assertion
    of line 221 then fails. *)
Lemma numeric_parsing_counterexample :
  process_data [EmptyString; "Ns" ++ tab; "abc"]
               [PFloat 20] [PStr "Auto"] [PNone] "en_US"
  = Raise (mk_exn NumberFormatError "abc is not a valid decimal number") ∧
  process_data [EmptyString; "Ewe/V" ++ tab; "abc"]
               [PFloat 20] [PStr "Auto"] [PNone] "en_US"
  = Raise (mk_exn AssertionError "`n` should not be string").
Proof. split; vm_compute; reflexivity. Qed.

End DataFacts.

(** ** [extract] of an [.mpt] file *)

Module ExtractFacts.
Import Py Columns Mpt PyFacts.

Section Extract.
Context {env : MptEnv}.

Lemma process_data_attrs (lines : list string)
    (Eranges Iranges controls : list pyobj) (locale : string) (ds : Dataset) :
  process_data lines Eranges Iranges controls locale = Ret ds →
  ds_attrs ds = [("fulldate", PBool false)] ∧ ds_coords ds = [].
Proof.
  unfold process_data. by intros (st & _ & [= <-])%bind_ret.
Qed.

Lemma ds_set_uts_ret (ds ds' : Dataset) (values : list pyobj) :
  ds_set_uts ds values = Ret ds' →
  ds_attrs ds' = ds_attrs ds ∧ ds_vars ds' = ds_vars ds ∧
  ds_coords ds' = dict_set (ds_coords ds) "uts" values.
Proof.
  unfold ds_set_uts. destruct (forallb _ _); [|done]. by intros [= <-].
Qed.

(** What [finish] leaves in the attributes and coordinates of the table
    that [process_data] built. *)
Lemma finish_spec (ds0 ds : Dataset) (hi : header_info) :
  ds_attrs ds0 = [("fulldate", PBool false)] →
  ds_coords ds0 = [] →
  finish ds0 hi = Ret ds →
  dict_get (ds_attrs ds) "fulldate"
    = (if hi_fulldate hi then None else Some (PBool false)) ∧
  dict_get (ds_attrs ds) "settings" = Some (PDict (hi_settings hi)) ∧
  dict_get (ds_attrs ds) "params" = Some (PList (map PDict (hi_params hi))) ∧
  ds_vars ds = ds_vars ds0 ∧
  ∃ uts, ds_coords ds = [("uts", uts)] ∧
         if ds_contains ds0 "time"
         then ∃ t, ds_item ds0 "time" = Ret t ∧
                   Forall2 (fun v u => py_add v (hi_start_time hi) = Ret u) t uts
         else uts = [hi_start_time hi].
Proof.
  intros Hattrs Hcoords. unfold finish.
  intros (ds1 & Hds1 & H)%bind_ret.
  apply bind_ret in H as (attrs & Ha & [= <-]). cbn [ds_attrs ds_coords ds_vars ds_with_attrs].
  assert (Hds1' : ds_attrs ds1 = ds_attrs ds0 ∧ ds_vars ds1 = ds_vars ds0 ∧
                  ∃ uts, ds_coords ds1 = [("uts", uts)] ∧
                    if ds_contains ds0 "time"
                    then ∃ t, ds_item ds0 "time" = Ret t ∧
                      Forall2 (fun v u => py_add v (hi_start_time hi) = Ret u) t uts
                    else uts = [hi_start_time hi]).
  { destruct (ds_contains ds0 "time").
    - apply bind_ret in Hds1 as (t & Ht & H).
      apply bind_ret in H as (u & Hu%mapM_ret & (Ha1 & Hv1 & Hc1)%ds_set_uts_ret).
      rewrite Hcoords in Hc1. split; [done|]. split; [done|].
      exists u. split; [done|]. by exists t.
    - apply ds_set_uts_ret in Hds1 as (Ha1 & Hv1 & Hc1).
      rewrite Hcoords in Hc1. split; [done|]. split; [done|]. by eexists. }
  destruct Hds1' as (Ha1 & Hv1 & Hc1). rewrite Ha1, Hattrs in Ha.
  destruct (hi_fulldate hi).
  - apply bind_ret in Ha as (? & _ & [= <-]). cbn. by rewrite Hv1.
  - injection Ha as <-. cbn. by rewrite Hv1.
Qed.

(** The row times that [finish] writes. *)
Lemma finish_uts (ds0 ds : Dataset) (hi : header_info) :
  ds_attrs ds0 = [("fulldate", PBool false)] →
  ds_coords ds0 = [] →
  finish ds0 hi = Ret ds →
  uts_from ds (hi_start_time hi).
Proof.
  intros Ha Hc Hfin.
  apply (finish_spec _ _ _ Ha Hc) in Hfin as (_ & _ & _ & Hvars & uts & Hcoords & Huts).
  exists uts. split; [done|]. rewrite Hvars.
  unfold ds_contains, ds_item, dict_mem in Huts. rewrite Hc in Huts.
  destruct (dict_get (ds_vars ds0) "time") as [da|]; cbn in Huts; [|done].
  by destruct Huts as (t & [= <-] & Hall).
Qed.

(** C7 (as amended): in the Dataset [extract] returns, the [fulldate]
    attribute is [False] exactly when the file declares at most three
    header lines (no header: the row times stay relative, the start time
    0.0 is added to them), and is absent exactly when the header was
    processed and its acquisition time added to the row times; it is never
    [True]. *)
Theorem fulldate_attribute (contents locale timezone : string) (ds : Dataset) :
  extract contents locale timezone = Ret ds →
  ∃ nb, declared_count (body_lines contents) = Ret nb ∧
    ((nb <= 3 ∧
      dict_get (ds_attrs ds) "fulldate" = Some (PBool false) ∧
      uts_from ds (PFloat 0)) ∨
     (3 < nb ∧
      dict_get (ds_attrs ds) "fulldate" = None ∧
      ∃ settings uts,
        dict_get (ds_attrs ds) "settings" = Some (PDict settings) ∧
        dict_get settings "posix_timestamp" = Some (PFloat uts) ∧
        uts_from ds (PFloat uts))) ∧
    dict_get (ds_attrs ds) "fulldate" ≠ Some (PBool true).
Proof.
  unfold extract. intros (_ & _ & H)%bind_ret.
  apply bind_ret in H as (nb & Hnb & H).
  apply bind_ret in H as (hi & Hhi & H).
  apply bind_ret in H as (ds0 & [Ha Hc]%process_data_attrs & H).
  pose proof (finish_uts _ _ _ Ha Hc H) as Huts.
  apply (finish_spec _ _ _ Ha Hc) in H as (Hfd & Hset & _).
  exists nb. split; [done|].
  destruct (Z.leb_spec nb 3) as [Hle|Hgt].
  - injection Hhi as <-. cbn in Hfd, Huts. split; [by left|]. by rewrite Hfd.
  - unfold with_header in Hhi.
    apply bind_ret in Hhi as ([[settings params] loops] & Hh & Hhi).
    apply bind_ret in Hhi as (r & _ & [= <-]). cbn in Hfd, Hset, Huts.
    split; [|by rewrite Hfd]. right. split; [lia|]. split; [done|].
    unfold process_header in Hh.
    apply bind_ret in Hh as (? & _ & Hh).
    apply bind_ret in Hh as (? & _ & Hh).
    apply bind_ret in Hh as (? & _ & Hh).
    apply bind_ret in Hh as (? & _ & Hh).
    apply bind_ret in Hh as (? & _ & Hh).
    apply bind_ret in Hh as (? & _ & Hh).
    apply bind_ret in Hh as (uts & _ & Hh).
    apply bind_ret in Hh as (? & _ & [= <- <- <-]).
    eexists. exists uts. split; [exact Hset|]. split; [reflexivity|].
    exact Huts.
Qed.

Lemma list_item_raise {A} (l : list A) (i : Z) (e : exn) :
  list_item l i = Raise e → exn_cls e = IndexError.
Proof.
  unfold list_item, raise.
  destruct (_ <? 0); [by intros [= <-]|].
  destruct (nth_error _ _); [done|by intros [= <-]].
Qed.

(** A header whose second section opens the loops, or which has fewer than
    three sections, makes [process_header] raise. *)
Lemma process_header_no_settings (lines : list string) (timezone locale : string) :
  (len (header_sections lines) < 3 ∨
   ∃ s1, list_item (header_sections lines) 1 = Ret s1 ∧
         startswith s1 "Number of loops : " = true) →
  ∃ e, process_header lines timezone locale = Raise e ∧
       (e = mk_exn AssertionError "no settings present" ∨
        exn_cls e = IndexError).
Proof.
  intros Hno. unfold process_header.
  destruct (list_item (header_sections lines) 1) as [s1|e] eqn:Hs1.
  - exists (mk_exn AssertionError "no settings present"). split; [|by left].
    cbn. destruct (startswith s1 "Number of loops : ") eqn:Hstart; [done|].
    cbn. destruct (Z.leb_spec 3 (len (header_sections lines))) as [Hle|Hlt];
      [|done].
    destruct Hno as [?|(s & [= <-] & ?)]; [lia|congruence].
  - exists e. split; [done|]. right. by eapply list_item_raise.
Qed.

(** C1 (as amended): when the file declares at most three header lines,
    [extract] does not look at a header: it runs [process_data] with the
    ranges [[20.0]], [["Auto"]] and [[None]], adds the start time [0.0] to
    the row times and leaves [fulldate] at [False] (nothing here reads the
    modification time of the file), and any Dataset it returns carries
    empty settings and parameters.  When more lines are declared and the
    header has fewer than three sections, or its second section opens the
    loops, the assertion of [process_header] (or the [IndexError] of
    [sections[1]]) leaves [extract]: the extraction fails. *)
Theorem missing_header_policy (contents locale timezone : string) (nb : Z) :
  String.substring 0 (String.length file_magic) contents = file_magic →
  declared_count (body_lines contents) = Ret nb →
  (nb <= 3 →
     extract contents locale timezone =
       (ds ← process_data (slice_from (body_lines contents) (nb - 3))
                          [PFloat 20] [PStr "Auto"] [PNone] locale;
        finish ds no_header) ∧
     ∀ ds, extract contents locale timezone = Ret ds →
       dict_get (ds_attrs ds) "fulldate" = Some (PBool false) ∧
       dict_get (ds_attrs ds) "settings" = Some (PDict []) ∧
       dict_get (ds_attrs ds) "params" = Some (PList []) ∧
       ∃ uts, ds_coords ds = [("uts", uts)] ∧
         match dict_get (ds_vars ds) "time" with
         | Some da =>
             Forall2 (fun v u => py_add v (PFloat 0) = Ret u) (da_values da) uts
         | None => uts = [PFloat 0%float]
         end) ∧
  (3 < nb →
     (len (header_sections (slice_to (body_lines contents) (nb - 3))) < 3 ∨
      ∃ s1, list_item (header_sections (slice_to (body_lines contents) (nb - 3))) 1
              = Ret s1 ∧
            startswith s1 "Number of loops : " = true) →
     ∃ e, extract contents locale timezone = Raise e ∧
          (e = mk_exn AssertionError "no settings present" ∨
           exn_cls e = IndexError)).
Proof.
  intros Hmagic Hnb.
  assert (Hx : extract contents locale timezone =
               (hi ← (if nb <=? 3 then Ret no_header
                      else with_header (slice_to (body_lines contents) (nb - 3))
                                       timezone locale);
                ds ← process_data (slice_from (body_lines contents) (nb - 3))
                                  (hi_Eranges hi) (hi_Iranges hi) (hi_ctrls hi)
                                  locale;
                finish ds hi)).
  { unfold extract. rewrite Hmagic, String.eqb_refl.
    change (py_assert true "invalid file magic") with (Ret tt).
    rewrite (bind_ret_l (Ret tt) _ tt eq_refl).
    by rewrite (bind_ret_l _ _ _ Hnb). }
  split.
  - intros Hle. apply Z.leb_le in Hle. rewrite Hle in Hx.
    rewrite (bind_ret_l (Ret no_header) _ _ eq_refl) in Hx.
    split; [exact Hx|].
    intros ds. rewrite Hx.
    intros (ds0 & Hds0 & Hfin)%bind_ret.
    pose proof Hds0 as [Ha Hc]%process_data_attrs.
    apply (finish_spec _ _ _ Ha Hc) in Hfin
      as (Hfd & Hset & Hpar & Hvars & uts & Hcoords & Huts).
    cbn in Hfd, Hset, Hpar, Huts.
    split; [done|]. split; [done|]. split; [done|].
    exists uts. split; [done|]. rewrite Hvars.
    unfold ds_contains, ds_item, dict_mem in Huts. rewrite Hc in Huts.
    destruct (dict_get (ds_vars ds0) "time") as [da|]; cbn in Huts; [|done].
    by destruct Huts as (t & [= <-] & Hall).
  - intros Hgt Hno.
    apply (process_header_no_settings _ timezone locale) in Hno as (e & He & Hcls).
    exists e. split; [|done]. rewrite Hx.
    rewrite (proj2 (Z.leb_gt nb 3)) by lia.
    unfold with_header. by rewrite He.
Qed.

End Extract.

(** The sample file with a header: the acquisition started at
    1609556645 s, and the two rows are 0.5 s and 1.5 s after it. *)
Lemma fulldate_attribute_witness :
  ∃ ds, extract Sample.file_with_header "en_US" "UTC" = Ret ds ∧
  ∃ nb, declared_count (body_lines Sample.file_with_header) = Ret nb ∧
    ((nb <= 3 ∧
      dict_get (ds_attrs ds) "fulldate" = Some (PBool false) ∧
      uts_from ds (PFloat 0)) ∨
     (3 < nb ∧
      dict_get (ds_attrs ds) "fulldate" = None ∧
      ∃ settings uts,
        dict_get (ds_attrs ds) "settings" = Some (PDict settings) ∧
        dict_get settings "posix_timestamp" = Some (PFloat uts) ∧
        uts_from ds (PFloat uts))) ∧
    dict_get (ds_attrs ds) "fulldate" ≠ Some (PBool true).
Proof.
  eexists. split; [vm_compute; reflexivity|].
  apply (fulldate_attribute Sample.file_with_header "en_US" "UTC").
  vm_compute. reflexivity.
Defined.

(** C7 fails as stated: the sample file has a header with a calendar
    acquisition time, and the Dataset [extract] returns for it has no
    [fulldate] attribute at all, so the attribute is not [True]. *)
Lemma fulldate_attribute_counterexample :
  ∃ ds, extract Sample.file_with_header "en_US" "UTC" = Ret ds ∧
        dict_get (ds_coords ds) "uts"
          = Some [PFloat 1609556645.5; PFloat 1609556646.5] ∧
        dict_get (ds_attrs ds) "fulldate" = None ∧
        dict_get (ds_attrs ds) "fulldate" ≠ Some (PBool true).
Proof.
  eexists. split; [vm_compute; reflexivity|].
  split; [vm_compute; reflexivity|]. split; [reflexivity|discriminate].
Qed.

(** The sample file without header: three header lines declared. *)
Lemma missing_header_policy_witness :
  (3 <= 3 →
     extract Sample.file_no_header "en_US" "UTC" =
       (ds ← process_data (slice_from (body_lines Sample.file_no_header) (3 - 3))
                          [PFloat 20] [PStr "Auto"] [PNone] "en_US";
        finish ds no_header) ∧
     ∀ ds, extract Sample.file_no_header "en_US" "UTC" = Ret ds →
       dict_get (ds_attrs ds) "fulldate" = Some (PBool false) ∧
       dict_get (ds_attrs ds) "settings" = Some (PDict []) ∧
       dict_get (ds_attrs ds) "params" = Some (PList []) ∧
       ∃ uts, ds_coords ds = [("uts", uts)] ∧
         match dict_get (ds_vars ds) "time" with
         | Some da =>
             Forall2 (fun v u => py_add v (PFloat 0) = Ret u) (da_values da) uts
         | None => uts = [PFloat 0%float]
         end) ∧
  (3 < 3 →
     (len (header_sections (slice_to (body_lines Sample.file_no_header) (3 - 3))) < 3 ∨
      ∃ s1, list_item (header_sections
                         (slice_to (body_lines Sample.file_no_header) (3 - 3))) 1
              = Ret s1 ∧
            startswith s1 "Number of loops : " = true) →
     ∃ e, extract Sample.file_no_header "en_US" "UTC" = Raise e ∧
          (e = mk_exn AssertionError "no settings present" ∨
           exn_cls e = IndexError)).
Proof.
  apply (missing_header_policy Sample.file_no_header "en_US" "UTC" 3).
  - vm_compute. reflexivity.
  - vm_compute. reflexivity.
Defined.

(** C1 fails as stated: for a file whose header holds only a loop section,
    and for one whose header stops after the technique name, [extract]
    raises the assertion error of [process_header] instead of returning a
    Dataset. *)
Lemma missing_header_policy_counterexample :
  declared_count (body_lines Sample.file_loops_only) = Ret 7 ∧
  extract Sample.file_loops_only "en_US" "UTC"
    = Raise (mk_exn AssertionError "no settings present") ∧
  declared_count (body_lines Sample.file_two_sections) = Ret 6 ∧
  len (header_sections (slice_to (body_lines Sample.file_two_sections) (6 - 3))) = 2 ∧
  extract Sample.file_two_sections "en_US" "UTC"
    = Raise (mk_exn AssertionError "no settings present").
Proof. repeat split; vm_compute; reflexivity. Qed.

End ExtractFacts.

(** ** [merge_datatrees] and the zip [extract] *)

Module FusionFacts.
Import Py Mpt Fusion PyFacts.
Local Open Scope list_scope.

(** *** Lists of footprints *)

Lemma elem_of_concat {A} (x : A) (ls : list (list A)) :
  x ∈ concat ls ↔ ∃ l, l ∈ ls ∧ x ∈ l.
Proof.
  rewrite list_elem_of_In, in_concat.
  split; intros (l & H1 & H2); exists l.
  - by rewrite !list_elem_of_In.
  - by rewrite <- !list_elem_of_In.
Qed.

Lemma concat_lookup_elem {A} (ls : list (list A)) (i : nat) (l : list A) (x : A) :
  ls !! i = Some l → x ∈ l → x ∈ concat ls.
Proof.
  intros Hl Hx. apply elem_of_concat. exists l. split; [|done].
  by eapply list_elem_of_lookup_2.
Qed.

Lemma elem_of_concat_lookup {A} (ls : list (list A)) (x : A) :
  x ∈ concat ls → ∃ i l, ls !! i = Some l ∧ x ∈ l.
Proof.
  intros (l & Hl & Hx)%elem_of_concat.
  apply list_elem_of_lookup_1 in Hl as (i & Hi). by exists i, l.
Qed.

Lemma concat_lookup_NoDup {A} (ls : list (list A)) (i : nat) (l : list A) :
  NoDup (concat ls) → ls !! i = Some l → NoDup l.
Proof.
  revert i. induction ls as [|l0 ls IH]; intros i Hnd Hl; [done|].
  cbn in Hnd. apply NoDup_app in Hnd as (H0 & _ & Hr).
  destruct i as [|i]; cbn in Hl; [by injection Hl as <-|by eapply IH].
Qed.

Lemma concat_lookup_disjoint {A} (ls : list (list A)) (i j : nat)
    (a b : list A) (x : A) :
  NoDup (concat ls) → i ≠ j → ls !! i = Some a → ls !! j = Some b →
  x ∈ a → x ∉ b.
Proof.
  revert i j. induction ls as [|l0 ls IH]; intros i j Hnd Hij Ha Hb Hxa Hxb;
    [done|].
  cbn in Hnd. apply NoDup_app in Hnd as (_ & Hdis & Hr).
  destruct i as [|i], j as [|j]; cbn in Ha, Hb; [done| | |].
  - injection Ha as <-. eapply Hdis; [done|]. by eapply concat_lookup_elem.
  - injection Hb as <-. eapply Hdis; [done|]. by eapply concat_lookup_elem.
  - eapply (IH i j); eauto.
Qed.

(** One footprint of a list replaced by another that is apart from the
    others. *)
Lemma concat_insert_NoDup {A} (ls : list (list A)) (p : nat) (new : list A) :
  NoDup (concat ls) → NoDup new →
  (∀ q l x, q ≠ p → ls !! q = Some l → x ∈ new → x ∉ l) →
  NoDup (concat (<[p := new]> ls)).
Proof.
  revert p. induction ls as [|l0 ls IH]; intros p Hnd Hnew Hdis; [done|].
  cbn in Hnd. apply NoDup_app in Hnd as (H0 & Hd0 & Hr).
  destruct p as [|p]; cbn.
  - apply NoDup_app. split; [done|]. split; [|done].
    intros x Hx (i & l & Hl & Hxl)%elem_of_concat_lookup.
    by apply (Hdis (S i) l x).
  - apply NoDup_app. split; [done|]. split.
    + intros x Hx (i & l & Hl & Hxl)%elem_of_concat_lookup.
      apply list_lookup_insert_Some in Hl as [(_ & <- & _)|[Hne Hl]].
      * by apply (Hdis 0%nat l0 x).
      * apply (Hd0 x Hx). by eapply concat_lookup_elem.
    + apply IH; [done..|]. intros q l x Hq Hl. apply (Hdis (S q) l x); [lia|done].
Qed.

(** No more than [n] different numbers lie below [n]. *)
Lemma NoDup_bounded (l : list nat) (n : nat) :
  NoDup l → (∀ x, x ∈ l → (x < n)%nat) → (length l ≤ n)%nat.
Proof.
  intros Hnd Hlt. rewrite <- (length_seq n 0%nat).
  apply submseteq_length, NoDup_submseteq; [done|].
  intros x Hx. apply elem_of_seq. apply Hlt in Hx. lia.
Qed.

Lemma Forall2_impl_elem {A B} (P Q : A → B → Prop) (l : list A) (k : list B) :
  Forall2 P l k → (∀ x y, y ∈ k → P x y → Q x y) → Forall2 Q l k.
Proof.
  induction 1 as [|x y l k Hxy _ IH]; intros Himpl; constructor.
  - apply Himpl; [by left|done].
  - apply IH. intros x' y' Hy'. apply Himpl. by right.
Qed.

(** *** Dictionaries *)

Lemma dict_get_lookup {V} (d : dict V) (k : string) (v : V) :
  dict_get d k = Some v → ∃ i, d !! i = Some (k, v).
Proof.
  intros H%dict_get_In%list_elem_of_In. by apply list_elem_of_lookup_1.
Qed.

Lemma dict_get_key {V} (d : dict V) (k : string) :
  k ∈ dict_keys d → ∃ v, dict_get d k = Some v.
Proof.
  intros H%list_elem_of_In%dict_mem_keys. unfold dict_mem in H.
  destruct (dict_get d k) as [v|]; [by exists v|done].
Qed.

Lemma dict_get_not_key {V} (d : dict V) (k : string) :
  k ∉ dict_keys d → dict_get d k = None.
Proof.
  intros H. destruct (dict_get d k) as [v|] eqn:Hget; [|done].
  destruct H. apply list_elem_of_In, dict_mem_keys.
  unfold dict_mem. by rewrite Hget.
Qed.

Lemma dict_get_is_key {V} (d : dict V) (k : string) (v : V) :
  dict_get d k = Some v → k ∈ dict_keys d.
Proof.
  intros H. apply list_elem_of_In, dict_mem_keys. unfold dict_mem. by rewrite H.
Qed.

Lemma dict_lookup_key {V} (d : dict V) (i : nat) (k : string) (v : V) :
  d !! i = Some (k, v) → k ∈ dict_keys d.
Proof.
  intros Hi%list_elem_of_lookup_2%list_elem_of_In.
  apply list_elem_of_In, in_map_iff. by exists (k, v).
Qed.

Lemma dict_lookup_get {V} (d : dict V) (i : nat) (k : string) (v : V) :
  NoDup (dict_keys d) → d !! i = Some (k, v) → dict_get d k = Some v.
Proof.
  revert i. induction d as [|[k0 v0] d IH]; intros i Hnd Hi; [done|].
  cbn in Hnd. apply NoDup_cons in Hnd as [Hk0 Hnd]. cbn.
  destruct i as [|i]; cbn in Hi.
  - injection Hi as -> ->. by rewrite String.eqb_refl.
  - destruct (String.eqb_spec k0 k) as [->|Hne]; [|by eapply IH].
    destruct Hk0. by eapply dict_lookup_key.
Qed.

Lemma dict_set_present {V} (d : dict V) (p : nat) (k : string) (v0 v : V) :
  NoDup (dict_keys d) → d !! p = Some (k, v0) →
  dict_set d k v = <[p := (k, v)]> d.
Proof.
  revert p. induction d as [|[k' v'] d IH]; intros p Hnd Hp; [done|].
  cbn in Hnd. apply NoDup_cons in Hnd as [Hk' Hnd]. cbn.
  destruct p as [|p]; cbn in Hp.
  - injection Hp as -> ->. by rewrite String.eqb_refl.
  - destruct (String.eqb_spec k' k) as [->|Hne]; [|cbn; f_equal; by eapply IH].
    destruct Hk'. by eapply dict_lookup_key.
Qed.

Lemma dict_set_absent {V} (d : dict V) (k : string) (v : V) :
  dict_get d k = None → dict_set d k v = d ++ [(k, v)].
Proof.
  induction d as [|[k' v'] d IH]; cbn; [done|].
  destruct (String.eqb k' k); [done|]. intros H. by rewrite IH.
Qed.

Lemma dict_set_same {V} (d : dict V) (k : string) (v : V) :
  dict_get d k = Some v → dict_set d k v = d.
Proof.
  induction d as [|[k' v'] d IH]; cbn; [done|].
  destruct (String.eqb_spec k' k) as [->|Hne]; [by intros [= ->]|].
  intros H. by rewrite IH.
Qed.

(** An update with values the dictionary already has changes nothing. *)
Lemma dict_update_same {V} (e : dict V) :
  ∀ d, (∀ k v, In (k, v) e → dict_get d k = Some v) → dict_update d e = d.
Proof.
  unfold dict_update.
  induction e as [|[k0 v0] e IH]; intros d Hin; cbn [fold_left fst snd]; [done|].
  rewrite dict_set_same by (apply Hin; by left).
  apply IH. intros k v Hkv. apply Hin. by right.
Qed.

Lemma dict_keys_set_order {V} (d : dict V) (k : string) (v : V) :
  dict_keys (dict_set d k v)
  = if dict_mem d k then dict_keys d else dict_keys d ++ [k].
Proof.
  unfold dict_mem.
  induction d as [|[k0 v0] d IH]; cbn; [done|].
  destruct (String.eqb_spec k0 k) as [->|Hne]; [done|]. cbn.
  fold (dict_keys (dict_set d k v)). rewrite IH.
  by destruct (dict_get d k).
Qed.

Lemma ds_with_own_attrs (d : Dataset) : ds_with_attrs d (ds_attrs d) = d.
Proof. by destruct d. Qed.

Lemma merged_data_same (d : Dataset) (a2 : dict pyobj) :
  (∀ k v, In (k, v) a2 → dict_get (ds_attrs d) k = Some v) →
  merged_data d a2 = d.
Proof.
  intros H. unfold merged_data. rewrite dict_update_same by done.
  apply ds_with_own_attrs.
Qed.


(** The child names after the loop. *)
Lemma merged_keys_nil (ch1 : dict nat) : merged_keys ch1 [] = dict_keys ch1.
Proof. unfold merged_keys. cbn. by rewrite app_nil_r. Qed.

Lemma merged_keys_snoc (ch1 : dict nat) (done : list string) (key : string) :
  merged_keys ch1 (done ++ [key])
  = if dict_mem ch1 key then merged_keys ch1 done
    else merged_keys ch1 done ++ [key].
Proof.
  unfold merged_keys. rewrite List.filter_app. cbn [List.filter].
  destruct (dict_mem ch1 key); cbn [negb]; [by rewrite app_nil_r|].
  by rewrite app_assoc.
Qed.

Lemma elem_of_merged_keys (ch1 : dict nat) (done : list string) (k : string) :
  k ∈ merged_keys ch1 done ↔ k ∈ dict_keys ch1 ∨ k ∈ done.
Proof.
  unfold merged_keys. rewrite elem_of_app. split.
  - intros [H|H]; [by left|]. right.
    apply list_elem_of_In, filter_In in H as [H _]. by apply list_elem_of_In.
  - intros [H|H]; [by left|].
    destruct (dict_mem ch1 k) eqn:Hm.
    + left. by apply list_elem_of_In, dict_mem_keys.
    + right. apply list_elem_of_In, filter_In. rewrite Hm.
      split; [by apply list_elem_of_In|done].
Qed.

(** *** Trees of the store *)


(** A tree is unaffected by writes outside its footprint. *)
Lemma owns_frame (depth : nat) (h h' : heap) :
  ∀ l fp, owns depth h l fp → (∀ x, x ∈ fp → h' !! x = h !! x) →
          owns depth h' l fp.
Proof.
  induction depth as [|d IH]; intros l fp; [done|].
  intros (n & fps & Hn & Hkeys & Hch & ->) Hsame.
  exists n, fps. split; [|split; [done|split; [|done]]].
  - rewrite Hsame; [done|by left].
  - eapply Forall2_impl_elem; [exact Hch|].
    intros kc fp' Hfp' Hown. apply IH; [done|].
    intros x Hx. apply Hsame. right. apply elem_of_concat. by exists fp'.
Qed.

Lemma owns_mono (depth : nat) (h : heap) :
  ∀ depth' l fp, owns depth h l fp → (depth ≤ depth')%nat → owns depth' h l fp.
Proof.
  induction depth as [|d IH]; intros depth' l fp; [done|].
  intros (n & fps & Hn & Hkeys & Hch & ->) Hle.
  destruct depth' as [|d']; [lia|].
  exists n, fps. repeat (split; [done|]). split; [|done].
  eapply Forall2_impl; [exact Hch|]. intros kc fp' Hown. apply IH; [done|lia].
Qed.

(** The objects of a tree are objects of the store. *)
Lemma owns_lt (depth : nat) (h : heap) :
  ∀ l fp x, owns depth h l fp → x ∈ fp → (x < length h)%nat.
Proof.
  induction depth as [|d IH]; intros l fp x; [done|].
  intros (n & fps & Hn & _ & Hch & ->) [->|Hx]%elem_of_cons.
  - by eapply lookup_lt_Some.
  - apply elem_of_concat_lookup in Hx as (i & fp' & Hi & Hx).
    destruct (Forall2_lookup_r _ _ _ _ _ Hch Hi) as (kc & _ & Hown).
    by eapply IH.
Qed.

(** A tree of the store is still one when the store grows. *)
Lemma owns_app (depth : nat) (h ext : heap) (l : loc) (fp : list loc) :
  owns depth h l fp → owns depth (h ++ ext) l fp.
Proof.
  intros Hown. apply (owns_frame _ h); [done|].
  intros x Hx. apply lookup_app_l. by eapply owns_lt.
Qed.

(** A tree has no more levels than objects. *)
Lemma owns_depth_fp (depth : nat) (h : heap) :
  ∀ l fp, owns depth h l fp → owns (length fp) h l fp.
Proof.
  induction depth as [|d IH]; intros l fp; [done|].
  intros (n & fps & Hn & Hkeys & Hch & ->). cbn [length].
  exists n, fps. repeat (split; [done|]). split; [|done].
  eapply Forall2_impl_elem; [exact Hch|]. intros kc fp' Hfp' Hown.
  eapply owns_mono; [by apply IH|].
  apply list_elem_of_lookup_1 in Hfp' as (i & Hi).
  clear -Hi. revert i Hi. induction fps as [|f fps IHf]; intros i Hi; [done|].
  cbn. rewrite length_app. destruct i as [|i]; cbn in Hi.
  - injection Hi as ->. lia.
  - apply IHf in Hi. lia.
Qed.

(** So the store has at least as many objects as a tree apart has
    levels. *)
Lemma owns_depth_store (depth : nat) (h : heap) (l : loc) (fp : list loc) :
  owns depth h l fp → NoDup fp → owns (length h) h l fp.
Proof.
  intros Hown Hnd. eapply owns_mono; [by eapply owns_depth_fp|].
  apply NoDup_bounded; [done|]. intros x Hx. by eapply owns_lt.
Qed.

(** Children that are trees of some depth each are trees of one depth. *)
Lemma owns_common_depth (h : heap) (ch : dict nat) (fps : list (list loc)) :
  Forall2 (fun (kc : string * loc) fp => ∃ d, owns d h (snd kc) fp) ch fps →
  ∃ d, Forall2 (fun (kc : string * loc) fp => owns d h (snd kc) fp) ch fps.
Proof.
  induction 1 as [|kc fp ch fps (d1 & H1) _ (d2 & IH)]; [by exists 0%nat|].
  exists (Nat.max d1 d2). constructor.
  - eapply owns_mono; [exact H1|lia].
  - eapply Forall2_impl; [exact IH|]. intros kc' fp' Hown.
    eapply owns_mono; [exact Hown|lia].
Qed.

(** *** Tree values, their allocation and their reading *)

Lemma tree_induction (P : tree → Prop) :
  (∀ name ds children,
     Forall (fun kc : string * tree => P (snd kc)) children →
     P (Node name ds children)) →
  ∀ t, P t.
Proof.
  intros Hnode. fix IH 1. intros [name ds children]. apply Hnode.
  induction children as [|kc r IHr]; constructor; [apply IH|exact IHr].
Qed.

Lemma tree_at_unfold (h : heap) (lo : nat) (name : option string) (ds : Dataset)
    (children : list (string * tree)) (l : loc) :
  tree_at h lo (Node name ds children) l ↔
  (lo ≤ l)%nat ∧
  ∃ n, h !! l = Some n ∧ nd_name n = name ∧ nd_ds n = ds ∧
       Forall2 (fun (kc : string * tree) (kl : string * loc) =>
                  fst kl = fst kc ∧ tree_at h lo (snd kc) (snd kl))
               children (nd_children n).
Proof.
  cbn [tree_at].
  assert (Hall : ∀ kids,
            (fix all (cs : list (string * tree)) (kids : dict nat) : Prop :=
               match cs, kids with
               | [], [] => True
               | kc :: r, kl :: kr =>
                   fst kl = fst kc ∧ tree_at h lo (snd kc) (snd kl) ∧ all r kr
               | _, _ => False
               end) children kids
            ↔ Forall2 (fun (kc : string * tree) (kl : string * loc) =>
                         fst kl = fst kc ∧ tree_at h lo (snd kc) (snd kl))
                      children kids).
  { induction children as [|kc r IH]; intros [|kl kr].
    - split; [intros _; constructor|done].
    - split; [done|intros H; inversion H].
    - split; [done|intros H; inversion H].
    - split.
      + intros (Hk & Ht & Hr). constructor; [done|]. by apply IH.
      + intros H. inversion H as [|? ? ? ? [Hk Ht] Hr]; subst.
        split; [done|]. split; [done|]. by apply IH. }
  split.
  - intros (Hlo & n & Hn & Hname & Hds & Hch). split; [done|].
    exists n. repeat (split; [done|]). by apply Hall.
  - intros (Hlo & n & Hn & Hname & Hds & Hch). split; [done|].
    exists n. repeat (split; [done|]). by apply Hall.
Qed.

Lemma tree_wf_unfold (name : option string) (ds : Dataset)
    (children : list (string * tree)) :
  tree_wf (Node name ds children) ↔
  NoDup (dict_keys children) ∧
  Forall (fun kc : string * tree => tree_wf (snd kc)) children.
Proof.
  cbn [tree_wf].
  assert (Hall : (fix all (cs : list (string * tree)) : Prop :=
                    match cs with
                    | [] => True
                    | kc :: r => tree_wf (snd kc) ∧ all r
                    end) children
                 ↔ Forall (fun kc : string * tree => tree_wf (snd kc)) children).
  { induction children as [|kc r IH]; split; try done.
    - intros [H1 H2]. constructor; [done|]. by apply IH.
    - intros H. inversion H; subst. split; [done|]. by apply IH. }
  by rewrite Hall.
Qed.

(** The objects of a tree at [lo] or above are unaffected by writes
    below [lo]. *)
Lemma tree_at_frame (h h' : heap) (lo : nat) (t : tree) :
  ∀ l, tree_at h lo t l →
       (∀ x, (lo ≤ x)%nat → (x < length h)%nat → h' !! x = h !! x) →
       tree_at h' lo t l.
Proof.
  induction t as [name ds children IH] using tree_induction.
  intros l (Hlo & n & Hn & Hname & Hds & Hch)%tree_at_unfold Hsame.
  apply tree_at_unfold. split; [done|]. exists n. split.
  { rewrite Hsame; [done..|]. by eapply lookup_lt_Some. }
  repeat (split; [done|]).
  clear Hn. induction Hch as [|kc kl r kr [Hk Ht] _ IHr]; [constructor|].
  apply Forall_cons in IH as [IH1 IH2].
  constructor; [|by apply IHr]. split; [done|]. by apply IH1.
Qed.

Lemma tree_at_lo (h : heap) (lo lo' : nat) (t : tree) :
  ∀ l, tree_at h lo t l → (lo' ≤ lo)%nat → tree_at h lo' t l.
Proof.
  induction t as [name ds children IH] using tree_induction.
  intros l (Hlo & n & Hn & Hname & Hds & Hch)%tree_at_unfold Hle.
  apply tree_at_unfold. split; [lia|]. exists n. repeat (split; [done|]).
  clear Hn. induction Hch as [|kc kl r kr [Hk Ht] _ IHr]; [constructor|].
  apply Forall_cons in IH as [IH1 IH2].
  constructor; [|by apply IHr]. split; [done|]. by apply IH1.
Qed.

(** A tree with a footprint is unaffected by writes outside of it. *)
Lemma tree_at_frame_owns (depth : nat) (h h' : heap) :
  ∀ t l fp, owns depth h l fp → tree_at h 0 t l →
            (∀ x, x ∈ fp → h' !! x = h !! x) →
            tree_at h' 0 t l.
Proof.
  induction depth as [|d IH]; intros t l fp; [done|].
  intros (n & fps & Hn & _ & Hown & ->).
  destruct t as [name ds children].
  intros (_ & n' & Hn' & Hname & Hds & Hch)%tree_at_unfold Hsame.
  rewrite Hn in Hn'. injection Hn' as <-.
  apply tree_at_unfold. split; [lia|]. exists n. split.
  { rewrite Hsame; [done|by left]. }
  repeat (split; [done|]).
  assert (Hsame' : ∀ x, x ∈ concat fps → h' !! x = h !! x).
  { intros x Hx. apply Hsame. by right. }
  clear Hn Hsame. revert fps Hown Hsame'.
  induction Hch as [|kc kl r kr [Hk Ht] _ IHr]; intros fps Hown Hsame;
    [constructor|].
  inversion Hown as [|? fp0 ? fps0 Hown0 Hownr]; subst.
  constructor.
  - split; [done|]. eapply IH; [exact Hown0|done|].
    intros x Hx. apply Hsame. cbn. apply elem_of_app. by left.
  - apply (IHr fps0); [done|].
    intros x Hx. apply Hsame. cbn. apply elem_of_app. by right.
Qed.

Lemma tree_at_app (h ext : heap) (lo : nat) (t : tree) (l : loc) :
  tree_at h lo t l → tree_at (h ++ ext) lo t l.
Proof.
  intros H. apply (tree_at_frame h); [done|].
  intros x _ Hx. by apply lookup_app_l.
Qed.

Lemma alloc_children_spec (cs : list (string * tree)) :
  Forall (fun kc : string * tree => alloc_ok (snd kc)) cs →
  Forall (fun kc : string * tree => tree_wf (snd kc)) cs →
  ∀ h h' kids,
    alloc_children alloc h cs = (h', kids) →
    ∃ fps ext,
      h' = h ++ ext ∧ dict_keys kids = dict_keys cs ∧
      Forall2 (fun (kc : string * loc) fp =>
                 owns ((fix deepest (cs : list (string * tree)) : nat :=
                          match cs with
                          | [] => O
                          | kc :: r => Nat.max (tree_depth (snd kc)) (deepest r)
                          end) cs) h' (snd kc) fp) kids fps ∧
      NoDup (concat fps) ∧
      ∀ x, x ∈ concat fps → (length h ≤ x < length h')%nat.
Proof.
  induction 1 as [|kc r Hkc _ IHr]; intros Hwf h h' kids; cbn [alloc_children].
  - intros [= <- <-]. exists [], []. rewrite app_nil_r.
    split; [done|]. split; [done|]. split; [constructor|].
    split; [constructor|]. intros y Hy. by apply elem_of_nil in Hy.
  - apply Forall_cons in Hwf as [Hwf1 Hwfr].
    destruct (alloc h (snd kc)) as [h1 l1] eqn:Ha. cbn [fst snd].
    destruct (alloc_children alloc h1 r) as [h2 kids2] eqn:Hr. cbn [fst snd].
    intros [= <- <-].
    destruct (Hkc Hwf1 h h1 l1 Ha) as (fp1 & ext1 & -> & Hown1 & Hnd1 & Hrange1 & _).
    destruct (IHr Hwfr _ _ _ Hr) as (fps & ext2 & -> & Hkeys & Hch & Hnd & Hrange).
    exists (fp1 :: fps), (ext1 ++ ext2). rewrite app_assoc.
    split; [done|]. split; [unfold dict_keys in *; cbn; by rewrite Hkeys|].
    split; [|split].
    + constructor.
      * cbn [snd]. apply owns_app.
        eapply owns_mono; [exact Hown1|]. apply Nat.le_max_l.
      * eapply Forall2_impl; [exact Hch|]. intros kc' fp' Hown.
        eapply owns_mono; [exact Hown|]. apply Nat.le_max_r.
    + cbn [concat]. apply NoDup_app. split; [done|]. split; [|done].
      intros x Hx1 Hx2. apply Hrange1 in Hx1. apply Hrange in Hx2. lia.
    + cbn [concat]. intros x [Hx|Hx]%elem_of_app.
      * apply Hrange1 in Hx. rewrite !length_app in *. lia.
      * apply Hrange in Hx. rewrite !length_app in *. lia.
Qed.

Lemma alloc_spec (t : tree) : alloc_ok t.
Proof.
  induction t as [name ds children IH] using tree_induction.
  intros [Hkeys Hwf]%tree_wf_unfold h h' l. cbn [alloc].
  destruct (alloc_children alloc h children) as [h1 kids] eqn:Hc. cbn [fst snd].
  intros [= <- <-].
  destruct (alloc_children_spec children IH Hwf _ _ _ Hc)
    as (fps & ext & -> & Hk & Hch & Hnd & Hrange).
  exists (length (h ++ ext) :: concat fps), (ext ++ [mk_node name ds kids]).
  rewrite app_assoc. split; [done|].
  assert (Hroot : ((h ++ ext) ++ [mk_node name ds kids]) !! length (h ++ ext)
                  = Some (mk_node name ds kids)).
  { by rewrite lookup_app_r, Nat.sub_diag. }
  split; [|split; [|split]].
  - cbn [tree_depth owns]. exists (mk_node name ds kids), fps.
    split; [done|]. split; [cbn [nd_children]; by rewrite Hk|]. split; [|done].
    eapply Forall2_impl; [exact Hch|]. intros kc fp Hown. by apply owns_app.
  - constructor; [|done]. intros Hin%Hrange. lia.
  - intros x [->|Hx%Hrange]%elem_of_cons; rewrite !length_app in *; cbn; lia.
  - exists kids. by split.
Qed.


Lemma alloc_grows (t : tree) :
  ∀ h h' l, alloc h t = (h', l) → ∃ ext, h' = h ++ ext.
Proof.
  induction t as [name ds children IH] using tree_induction.
  intros h h' l. cbn [alloc].
  destruct (alloc_children alloc h children) as [h1 kids] eqn:Hc. cbn [fst snd].
  intros [= <- <-].
  enough (∃ ext, h1 = h ++ ext) as (ext & ->)
    by (exists (ext ++ [mk_node name ds kids]); by rewrite app_assoc).
  clear name ds. revert h h1 kids Hc.
  induction IH as [|kc r Hkc _ IHr]; intros h h1 kids; cbn [alloc_children].
  - intros [= <- <-]. exists []. by rewrite app_nil_r.
  - destruct (alloc h (snd kc)) as [h2 l2] eqn:Ha. cbn [fst snd].
    destruct (alloc_children alloc h2 r) as [h3 kids3] eqn:Hr. cbn [fst snd].
    intros [= <- <-]. apply Hkc in Ha as (e1 & ->). apply IHr in Hr as (e2 & ->).
    exists (e1 ++ e2). by rewrite app_assoc.
Qed.

Lemma alloc_children_grows (cs : list (string * tree)) :
  ∀ h h' kids, alloc_children alloc h cs = (h', kids) → ∃ ext, h' = h ++ ext.
Proof.
  induction cs as [|kc r IHr]; intros h h' kids; cbn [alloc_children].
  - intros [= <- <-]. exists []. by rewrite app_nil_r.
  - destruct (alloc h (snd kc)) as [h2 l2] eqn:Ha. cbn [fst snd].
    destruct (alloc_children alloc h2 r) as [h3 kids3] eqn:Hr. cbn [fst snd].
    intros [= <- <-]. apply alloc_grows in Ha as (e1 & ->).
    apply IHr in Hr as (e2 & ->). exists (e1 ++ e2). by rewrite app_assoc.
Qed.

(** What [alloc] stores is the tree it was given, in new objects. *)
Lemma alloc_tree_at (t : tree) :
  ∀ h h' l, alloc h t = (h', l) → tree_at h' (length h) t l.
Proof.
  induction t as [name ds children IH] using tree_induction.
  intros h h' l. cbn [alloc].
  destruct (alloc_children alloc h children) as [h1 kids] eqn:Hc. cbn [fst snd].
  intros [= <- <-].
  assert (Hkids : (length h ≤ length h1)%nat ∧
            Forall2 (fun (kc : string * tree) (kl : string * loc) =>
                       fst kl = fst kc ∧ tree_at h1 (length h) (snd kc) (snd kl))
                    children kids).
  { clear name ds. revert h h1 kids Hc.
    induction IH as [|kc r Hkc _ IHr]; intros h h1 kids; cbn [alloc_children].
    - intros [= <- <-]. split; [done|constructor].
    - destruct (alloc h (snd kc)) as [h2 l2] eqn:Ha. cbn [fst snd].
      destruct (alloc_children alloc h2 r) as [h3 kids3] eqn:Hr. cbn [fst snd].
      intros [= <- <-].
      pose proof (alloc_grows _ _ _ _ Ha) as (e1 & ->).
      destruct (alloc_children_grows r (h ++ e1) h3 kids3 Hr) as (e2 & ->).
      apply Hkc in Ha. apply IHr in Hr as [Hlen Hr].
      split; [rewrite !length_app; lia|]. constructor.
      + split; [done|]. cbn [snd]. by apply tree_at_app.
      + eapply Forall2_impl; [exact Hr|]. intros kc' kl' [Hk Ht].
        split; [done|]. eapply tree_at_lo; [exact Ht|].
        rewrite length_app. lia. }
  destruct Hkids as [Hlen Hkids].
  apply tree_at_unfold. split; [done|].
  exists (mk_node name ds kids). split; [by rewrite lookup_app_r, Nat.sub_diag|].
  repeat (split; [done|]). cbn [nd_children].
  eapply Forall2_impl; [exact Hkids|]. intros kc kl [Hk Ht].
  split; [done|]. by apply tree_at_app.
Qed.

Lemma get_ret (h : heap) (l : loc) (n : node) :
  get h l = Ret n ↔ h !! l = Some n.
Proof. unfold get, raise. destruct (h !! l); split; congruence. Qed.

(** A tree of the store can be read, with fuel for its depth. *)
Lemma read_tree_spec (depth : nat) (h : heap) :
  ∀ fuel l fp, owns depth h l fp → (depth ≤ fuel)%nat →
               ∃ t, read_tree fuel h l = Ret t ∧ tree_wf t.
Proof.
  induction depth as [|d IH]; intros fuel l fp; [done|].
  intros (n & fps & Hn & Hkeys & Hch & ->) Hfuel.
  destruct fuel as [|f]; [lia|]. cbn [read_tree].
  rewrite (proj2 (get_ret _ _ _) Hn). cbn [mbind pyres_bind].
  assert (∃ cs, mapM (fun kc : string * loc =>
                        t ← read_tree f h (snd kc); Ret (fst kc, t))
                     (nd_children n) = Ret cs ∧
                dict_keys cs = dict_keys (nd_children n) ∧
                Forall (fun kc : string * tree => tree_wf (snd kc)) cs)
    as (cs & -> & Hk & Hwf).
  { clear Hn Hkeys. induction Hch as [|kc fp ch fps Hown _ (cs & Hm & Hk & Hwf)].
    - exists []. by repeat split.
    - destruct (IH f (snd kc) fp Hown) as (t & Ht & Hwt); [lia|].
      exists ((fst kc, t) :: cs). cbn [mapM]. rewrite Ht. cbn [mbind pyres_bind].
      rewrite Hm. cbn [mbind pyres_bind]. split; [done|].
      split; [unfold dict_keys in *; cbn; by rewrite Hk|]. by constructor. }
  eexists. split; [done|]. apply tree_wf_unfold. by rewrite Hk.
Qed.

(** What is read at an object is the tree of that object. *)
Lemma read_tree_at (fuel : nat) (h : heap) :
  ∀ l t, read_tree fuel h l = Ret t → tree_at h 0 t l.
Proof.
  induction fuel as [|f IH]; intros l t; [done|]. cbn [read_tree].
  intros (n & Hn%get_ret & H)%bind_ret.
  apply bind_ret in H as (cs & Hcs%mapM_ret & [= <-]).
  apply tree_at_unfold. split; [lia|]. exists n. repeat (split; [done|]).
  clear Hn. induction Hcs as [|kl kc kr r Hkc _ IHr]; constructor; [|done].
  apply bind_ret in Hkc as (t & Ht & [= <-]). split; [done|]. by apply IH.
Qed.

Lemma renamed_wf (key : string) (t : tree) : tree_wf t → tree_wf (renamed key t).
Proof. by destruct t. Qed.

(** [dt1[key] = node] for a tree [node] of the store: the tree is read and
    a copy of it, named [key], is stored in new objects; only the object
    [dt1] is written. *)
Lemma assign_spec (h : heap) (dt1 : loc) (n1 : node) (key : string) (node : loc)
    (depth : nat) (fp : list loc) :
  h !! dt1 = Some n1 → owns depth h node fp → NoDup fp →
  ∃ t ext c fpc,
    tree_at h 0 t node ∧
    assign_child h dt1 key node
      = Ret (<[dt1 := set_child n1 key c]> (h ++ ext)) ∧
    owns (tree_depth t) (<[dt1 := set_child n1 key c]> (h ++ ext)) c fpc ∧
    NoDup fpc ∧
    (∀ x, x ∈ fpc → (length h ≤ x)%nat) ∧
    tree_at (<[dt1 := set_child n1 key c]> (h ++ ext)) (length h)
            (renamed key t) c.
Proof.
  intros Hn1 Hown Hnd.
  destruct (read_tree_spec (length h) h (length h) node fp) as (t & Ht & Hwf);
    [by eapply owns_depth_store|done|].
  destruct (alloc h (renamed key t)) as [h' c] eqn:Ha.
  destruct (alloc_spec (renamed key t) (renamed_wf key t Hwf) h h' c Ha)
    as (fpc & ext & -> & Hownc & Hndc & Hrange & _).
  assert (Hlt : (dt1 < length h)%nat) by (by eapply lookup_lt_Some).
  assert (Hframe : ∀ x, (length h ≤ x)%nat →
            <[dt1 := set_child n1 key c]> (h ++ ext) !! x = (h ++ ext) !! x).
  { intros x Hx. apply list_lookup_insert_ne. lia. }
  exists t, ext, c, fpc. split; [by eapply read_tree_at|]. split.
  { unfold assign_child. rewrite Ht. cbn [mbind pyres_bind]. rewrite Ha.
    cbn [fst snd].
    by rewrite (proj2 (get_ret (h ++ ext) dt1 n1)) by (by rewrite lookup_app_l). }
  split; [|split; [done|split]].
  - assert (tree_depth (renamed key t) = tree_depth t) as <- by (by destruct t).
    eapply owns_frame; [exact Hownc|]. intros x Hx. apply Hframe.
    apply Hrange in Hx. lia.
  - intros x Hx. apply Hrange in Hx. lia.
  - eapply tree_at_frame; [by eapply alloc_tree_at|].
    intros x Hx _. by apply Hframe.
Qed.

Lemma dict_lookup_inj {V} (d : dict V) (i j : nat) (k : string) (v w : V) :
  NoDup (dict_keys d) → d !! i = Some (k, v) → d !! j = Some (k, w) → i = j.
Proof.
  intros Hnd Hi Hj.
  assert (Hk : ∀ n u, d !! n = Some (k, u) → dict_keys d !! n = Some k).
  { clear. induction d as [|kv d IH]; intros [|n] u H; try done.
    - cbn in H. by injection H as ->.
    - cbn in *. by eapply IH. }
  eapply NoDup_lookup; [exact Hnd|by eapply Hk|by eapply Hk].
Qed.

(** *** Ascending row times *)


Section MergeFacts.
Context {env : FusionEnv}.

(** Lines 81-99 rewrite the object [dt1] and nothing else: its data
    becomes what [xr.concat] made of the data of the two objects, with the
    attributes updated; a failure of [xr.concat] ends the merge. *)
Lemma merge_node_cases (h : heap) (l1 l2 : loc) (n1 n2 : node) :
  h !! l1 = Some n1 → h !! l2 = Some n2 → l1 ≠ l2 →
  merge_ds h l1 l2 ≫= (fun h1 => merge_attrs h1 l1 l2)
  = match xr_concat (nd_ds n1) (nd_ds n2) with
    | Ret d =>
        Ret (<[l1 := {| nd_name := nd_name n1;
                        nd_ds := merged_data d (attrs n2);
                        nd_children := nd_children n1 |}]> h)
    | Raise e =>
        if isinstance e MergeError
        then raise RuntimeError
               ("Merging datasets at node '" ++ name_repr (nd_name n1)
                ++ "' failed due to conflicting data variables or coordinates.")%string
        else Raise e
    end.
Proof.
  intros H1 H2 Hne.
  assert (Hlt : (l1 < length h)%nat) by (by eapply lookup_lt_Some).
  unfold merge_ds.
  rewrite (proj2 (get_ret _ _ _) H1), (proj2 (get_ret _ _ _) H2).
  cbn [mbind pyres_bind ds_of].
  destruct (xr_concat (nd_ds n1) (nd_ds n2)) as [d|e];
    [|by destruct (isinstance e MergeError)].
  cbn [mbind pyres_bind]. unfold merge_attrs.
  rewrite (proj2 (get_ret _ l1 (set_ds n1 (Some d))))
    by (by apply list_lookup_insert_eq).
  rewrite (proj2 (get_ret _ l2 n2)) by (by rewrite list_lookup_insert_ne).
  cbn [mbind pyres_bind]. by rewrite list_insert_insert_eq.
Qed.

(** A grafted copy stays one when the store is written below the objects
    that were new. *)
Lemma grafted_frame (fuel : nat) (h0 : heap) (n1 n2 : node) (hj hj' : heap)
    (key : string) (c : loc) :
  grafted fuel h0 n1 n2 hj key c →
  (∀ x, (length h0 ≤ x)%nat → (x < length hj)%nat → hj' !! x = hj !! x) →
  grafted fuel h0 n1 n2 hj' key c.
Proof.
  unfold grafted. intros Hg Hsame.
  destruct (dict_get (nd_children n2) key) as [c2|]; [|done].
  destruct (dict_get (nd_children n1) key) as [c1|].
  - destruct Hg as (hq & hm & t & Ha & Hb & Hm & Ht & Hc).
    exists hq, hm, t. repeat (split; [done|]). by eapply tree_at_frame.
  - destruct Hg as (t & Ht & Hc). exists t. split; [done|].
    by eapply tree_at_frame.
Qed.

(** *** The loop over the children of [dt2] *)

Section Loop.
Variables (fuel depth depth2 : nat).

(** What the recursive calls are known to do. *)
Hypothesis IH : ∀ h l1 l2 fp1 fp2,
  owns depth h l1 fp1 → owns depth2 h l2 fp2 → NoDup (fp1 ++ fp2) →
  (∃ h', merge_datatrees fuel h l1 l2 = Ret (h', l1) ∧
         merge_post fuel h l1 l2 fp1 h') ∨
  (∃ e, merge_datatrees fuel h l1 l2 = Raise e ∧ concat_failure e).

Variables (h0 : heap) (l1 l2 : loc) (n1 n2 : node).
Variables (fps fps2 : list (list loc)).
Hypothesis Hl1 : (l1 < length h0)%nat.
Hypothesis Hl2 : h0 !! l2 = Some n2.
Hypothesis Hkeys1 : NoDup (dict_keys (nd_children n1)).
Hypothesis Hkeys2 : NoDup (dict_keys (nd_children n2)).
Hypothesis Hch1 :
  Forall2 (fun (kc : string * loc) fp => owns depth h0 (snd kc) fp)
          (nd_children n1) fps.
Hypothesis Hch2 :
  Forall2 (fun (kc : string * loc) fp => owns depth2 h0 (snd kc) fp)
          (nd_children n2) fps2.
Hypothesis Hnd : NoDup ((l1 :: concat fps) ++ (l2 :: concat fps2)).

Local Abbreviation loop_inv := (Fusion.loop_inv fuel depth h0 l1 n1 n2 fps).
Local Abbreviation child_inv := (Fusion.child_inv fuel depth h0 n1 n2 fps).

Lemma loop_l2 (done : list string) (hj : heap) :
  loop_inv done hj → hj !! l2 = Some n2.
Proof.
  intros (_ & _ & Hframe). rewrite Hframe; [done| | |].
  - by eapply lookup_lt_Some.
  - intros ->. apply NoDup_app in Hnd as (_ & Hdis & _).
    apply (Hdis l1); by left.
  - intros i kc fp _ Hfp _ Hin.
    apply NoDup_app in Hnd as (_ & Hdis & _).
    apply (Hdis l2); [|by left].
    right. by eapply concat_lookup_elem.
Qed.

(** The trees of the children of [dt2] are as they were. *)
Lemma loop_same2 (done : list string) (hj : heap) (j : nat)
    (kc : string * loc) (fp : list loc) (x : loc) :
  loop_inv done hj →
  nd_children n2 !! j = Some kc → fps2 !! j = Some fp → x ∈ fp →
  hj !! x = h0 !! x.
Proof.
  intros (_ & _ & Hframe) Hkc Hfp Hx.
  pose proof (Forall2_lookup_lr _ _ _ _ _ _ Hch2 Hkc Hfp) as Hown.
  cbn beta in Hown.
  apply NoDup_app in Hnd as (_ & Hdis & _).
  apply Hframe.
  - by eapply owns_lt.
  - intros ->. apply (Hdis l1); [by left|].
    right. by eapply concat_lookup_elem.
  - intros i kc' fp' _ Hfp' _ Hin. apply (Hdis x).
    + right. by eapply concat_lookup_elem.
    + right. by eapply concat_lookup_elem.
Qed.

(** So are the trees of the children of [dt1] that have not been
    handled. *)
Lemma loop_same1 (done : list string) (hj : heap) (i : nat)
    (kc : string * loc) (fp : list loc) (x : loc) :
  loop_inv done hj →
  nd_children n1 !! i = Some kc → fps !! i = Some fp →
  fst kc ∉ done → x ∈ fp →
  hj !! x = h0 !! x.
Proof.
  intros (_ & _ & Hframe) Hkc Hfp Hnot Hx.
  pose proof (Forall2_lookup_lr _ _ _ _ _ _ Hch1 Hkc Hfp) as Hown.
  cbn beta in Hown.
  apply NoDup_app in Hnd as (Hnd1 & _ & _).
  apply NoDup_cons in Hnd1 as [Hl1fps Hndfps].
  apply Hframe.
  - by eapply owns_lt.
  - intros ->. apply Hl1fps. by eapply concat_lookup_elem.
  - intros i' kc' fp' Hkc' Hfp' Hdone.
    eapply (concat_lookup_disjoint fps i i'); eauto.
    intros ->. rewrite Hkc in Hkc'. injection Hkc' as <-. done.
Qed.

(** The objects of the original trees lie in the original store. *)
Lemma fps_lt (i : nat) (fp : list loc) (x : loc) :
  fps !! i = Some fp → x ∈ fp → (x < length h0)%nat.
Proof.
  intros Hfp Hx.
  destruct (Forall2_lookup_r _ _ _ _ _ Hch1 Hfp) as (kc & _ & Hown).
  by eapply owns_lt.
Qed.

(** A child other than the one being handled is kept by a turn of the
    loop that leaves its objects, and the new objects, alone. *)
Lemma child_inv_keep (done : list string) (key : string) (hj hj' : heap)
    (kc : string * loc) (fp : list loc) :
  fst kc ≠ key →
  (∀ x, x ∈ fp → hj' !! x = hj !! x) →
  (∀ x, (length h0 ≤ x)%nat → (x < length hj)%nat → hj' !! x = hj !! x) →
  child_inv done hj kc fp →
  child_inv (done ++ [key]) hj' kc fp.
Proof.
  intros Hne Hsame Hnew. unfold Fusion.child_inv.
  rewrite (bool_decide_ext (fst kc ∈ done ++ [key]) (fst kc ∈ done)).
  2:{ rewrite elem_of_app, list_elem_of_singleton. naive_solver. }
  case_bool_decide as Hd.
  - intros ((dj & Hown) & Hlo & Hg). split; [|split; [done|]].
    + exists dj. by eapply owns_frame.
    + by eapply grafted_frame.
  - intros (Hown & Hi). split; [|done]. by eapply owns_frame.
Qed.

(** One turn of the loop: it raises what the recursive call raises, or it
    grafts a copy under the name [key]. *)
Lemma loop_step (done : list string) (key : string) (hj : heap) :
  key ∈ dict_keys (nd_children n2) → key ∉ done →
  loop_inv done hj →
  (∃ hj', merge_child (merge_datatrees fuel) l1 l2 hj key = Ret hj' ∧
          loop_inv (done ++ [key]) hj') ∨
  (∃ e, merge_child (merge_datatrees fuel) l1 l2 hj key = Raise e ∧
        concat_failure e).
Proof.
  intros Hkey Hnot Hinv.
  pose proof (loop_l2 _ _ Hinv) as Hl2j.
  pose proof Hinv as
    (Hlen & (ch & fpsj & Hl1j & Hndch & Hkeysch & Hchj & Hndj) & Hframe).
  destruct (dict_get_key _ _ Hkey) as (c2 & Hc2).
  destruct (dict_get_lookup _ _ _ Hc2) as (j & Hj).
  destruct (Forall2_lookup_l _ _ _ _ _ Hch2 Hj) as (fp2 & Hfp2 & Hown2).
  cbn [snd] in Hown2.
  assert (Hown2j : owns depth2 hj c2 fp2).
  { eapply owns_frame; [exact Hown2|].
    intros x Hx. by eapply (loop_same2 done hj j). }
  pose proof Hnd as (Hnd1 & Hdis & Hnd2)%NoDup_app.
  apply NoDup_cons in Hnd1 as [Hl1fps Hndfps].
  apply NoDup_cons in Hnd2 as [Hl2fps Hndfps2].
  assert (Hndfp2 : NoDup fp2) by (by eapply concat_lookup_NoDup).
  assert (Hchild2 : child hj l2 key = Ret c2).
  { unfold child. rewrite (proj2 (get_ret _ _ _) Hl2j). cbn.
    unfold dict_item. by rewrite Hc2. }
  assert (Hl1lt : (l1 < length hj)%nat) by lia.
  assert (Hfpsj_lt : ∀ q fq x, fpsj !! q = Some fq → x ∈ fq →
                               (x < length hj)%nat).
  { intros q fq x Hq Hx.
    destruct (Forall2_lookup_r _ _ _ _ _ Hchj Hq) as (kc & _ & Hci).
    unfold Fusion.child_inv in Hci. destruct (bool_decide _).
    - destruct Hci as ((dj & Hown) & _). by eapply owns_lt.
    - destruct Hci as (Hown & _). by eapply owns_lt. }
  assert (Hfpsj_l1 : ∀ q fq, fpsj !! q = Some fq → l1 ∉ fq).
  { intros q fq Hq Hin.
    destruct (Forall2_lookup_r _ _ _ _ _ Hchj Hq) as (kc & _ & Hci).
    unfold Fusion.child_inv in Hci. destruct (bool_decide _).
    - destruct Hci as (_ & Hlo & _). apply Hlo in Hin. lia.
    - destruct Hci as (_ & i & _ & Hi). apply Hl1fps.
      by eapply concat_lookup_elem. }
  unfold merge_child. rewrite (proj2 (get_ret _ _ _) Hl1j).
  cbn [mbind pyres_bind nd_children with_children].
  destruct (dict_get (nd_children n1) key) as [c1|] eqn:Hc1.
  - (* the key is a child of both *)
    assert (Hkch : key ∈ dict_keys ch).
    { rewrite Hkeysch. apply elem_of_merged_keys. left.
      by eapply dict_get_is_key. }
    destruct (dict_get_key _ _ Hkch) as (c1' & Hc1').
    destruct (dict_get_lookup _ _ _ Hc1') as (p & Hp).
    destruct (Forall2_lookup_l _ _ _ _ _ Hchj Hp) as (fp & Hfp & Hci).
    unfold Fusion.child_inv in Hci. cbn [fst snd] in Hci.
    rewrite (bool_decide_eq_false_2 _ Hnot) in Hci.
    destruct Hci as (Hown1j & i & Hi & Hfpi).
    assert (c1' = c1) as ->.
    { pose proof (dict_lookup_get _ _ _ _ Hkeys1 Hi) as H.
      rewrite Hc1 in H. by injection H. }
    unfold dict_mem. rewrite Hc1'.
    assert (Hchild1 : child hj l1 key = Ret c1).
    { unfold child. rewrite (proj2 (get_ret _ _ _) Hl1j). cbn.
      unfold dict_item. by rewrite Hc1'. }
    rewrite Hchild1, Hchild2. cbn [mbind pyres_bind].
    assert (Hndij : NoDup (fp ++ fp2)).
    { apply NoDup_app. split; [by apply (concat_lookup_NoDup fps i)|].
      split; [|done].
      intros x Hx Hx2. apply (Hdis x); right; by eapply concat_lookup_elem. }
    destruct (IH hj c1 c2 fp fp2 Hown1j Hown2j Hndij)
      as [(hm & Hm & Hpost)|(e & Hm & He)].
    2:{ right. exists e. by rewrite Hm. }
    rewrite Hm. cbn [mbind pyres_bind fst snd].
    destruct Hpost as (Hlenm & Hfrm & (d' & fp' & Hown' & Hnd') & Hmn).
    assert (Hl1fp : l1 ∉ fp) by (by eapply Hfpsj_l1).
    assert (Hl1m : hm !! l1 = Some (with_children n1 ch)) by (by rewrite Hfrm).
    destruct (assign_spec hm l1 _ key c1 d' fp' Hl1m Hown' Hnd')
      as (t & ext & c & fpc & Htat & Hassign & Hownc & Hndc & Hrange & Htc).
    rewrite Hassign. left. eexists. split; [done|].
    set (hj' := <[l1 := set_child (with_children n1 ch) key c]> (hm ++ ext)) in *.
    assert (Hstep : ∀ x, (x < length hj)%nat → x ≠ l1 → x ∉ fp →
                         hj' !! x = hj !! x).
    { intros x Hx Hxl Hxfp. unfold hj'. rewrite list_lookup_insert_ne by done.
      rewrite lookup_app_l by lia. by apply Hfrm. }
    assert (Hfp_lt : ∀ x, x ∈ fp → (x < length h0)%nat)
      by (intros x; by apply (fps_lt i)).
    assert (Hset : dict_set ch key c = <[p := (key, c)]> ch)
      by (by eapply dict_set_present).
    split; [|split].
    + unfold hj'. rewrite length_insert, length_app. lia.
    + exists (<[p := (key, c)]> ch), (<[p := fpc]> fpsj).
      split; [|split; [|split; [|split]]].
      * unfold hj'. rewrite <- Hset. apply list_lookup_insert_eq.
        rewrite length_app. lia.
      * rewrite <- Hset, dict_keys_set_order. unfold dict_mem. by rewrite Hc1'.
      * rewrite <- Hset, dict_keys_set_order, merged_keys_snoc.
        unfold dict_mem. by rewrite Hc1', Hc1.
      * apply Forall2_same_length_lookup_2.
        { transitivity (length ch); [apply length_insert|].
          rewrite length_insert. exact (Forall2_length _ _ _ Hchj). }
        intros q kc fq Hq Hfq.
        destruct (decide (q = p)) as [->|Hqp].
        -- (* the grafted copy *)
           apply list_lookup_insert_Some in Hq as [(_ & <- & _)|[? _]]; [|done].
           apply list_lookup_insert_Some in Hfq as [(_ & <- & _)|[? _]]; [|done].
           unfold Fusion.child_inv. cbn [fst snd].
           rewrite bool_decide_eq_true_2 by (apply elem_of_app; right; by left).
           split; [by exists (tree_depth t)|].
           split; [intros x Hx; apply Hrange in Hx; lia|].
           unfold grafted. rewrite Hc2, Hc1. exists hj, hm, t.
           split.
           { exists depth, fp.
             split; [exact (Forall2_lookup_lr _ _ _ _ _ _ Hch1 Hi Hfpi)|].
             intros x Hx. by eapply (loop_same1 done hj i). }
           split.
           { exists depth2, fp2. split; [done|].
             intros x Hx. by eapply (loop_same2 done hj j). }
           split; [done|]. split; [done|].
           eapply tree_at_lo; [exact Htc|lia].
        -- (* another child *)
           apply list_lookup_insert_Some in Hq as [(? & _)|[_ Hq]]; [congruence|].
           apply list_lookup_insert_Some in Hfq as [(? & _)|[_ Hfq]]; [congruence|].
           pose proof (Forall2_lookup_lr _ _ _ _ _ _ Hchj Hq Hfq) as Hci.
           assert (Hkne : fst kc ≠ key).
           { intros Heq. destruct kc as [k cq]. cbn in Heq. subst k.
             apply Hqp. by eapply (dict_lookup_inj ch). }
           apply (child_inv_keep done key hj); [done| | |done].
           ++ intros x Hx. apply Hstep.
              ** by eapply Hfpsj_lt.
              ** intros ->. by eapply Hfpsj_l1.
              ** by eapply (concat_lookup_disjoint fpsj q p).
           ++ intros x Hlo Hx. apply Hstep; [done|lia|].
              intros Hxfp%Hfp_lt. lia.
      * apply concat_insert_NoDup; [done..|].
        intros q l x Hq Hl Hx%Hrange Hxl.
        apply (Hfpsj_lt q l x Hl) in Hxl. lia.
    + intros x Hx Hxl Hhandled. rewrite Hstep; [|lia|done|].
      * apply Hframe; [done..|]. intros i' kc' fq Hkc' Hfq Hd.
        apply (Hhandled i' kc' fq Hkc' Hfq). apply elem_of_app. by left.
      * apply (Hhandled i (key, c1) fp Hi Hfpi). apply elem_of_app. right. by left.
  - (* the key is new to [dt1] *)
    assert (Hkch : key ∉ dict_keys ch).
    { rewrite Hkeysch, elem_of_merged_keys. intros [H|H]; [|done].
      apply dict_get_key in H as (? & H). congruence. }
    pose proof (dict_get_not_key _ _ Hkch) as Hgc.
    unfold dict_mem. rewrite Hgc, Hchild2. cbn [mbind pyres_bind].
    destruct (assign_spec hj l1 _ key c2 depth2 fp2 Hl1j Hown2j Hndfp2)
      as (t & ext & c & fpc & Htat & Hassign & Hownc & Hndc & Hrange & Htc).
    rewrite Hassign. left. eexists. split; [done|].
    set (hj' := <[l1 := set_child (with_children n1 ch) key c]> (hj ++ ext)) in *.
    assert (Hstep : ∀ x, (x < length hj)%nat → x ≠ l1 → hj' !! x = hj !! x).
    { intros x Hx Hxl. unfold hj'. rewrite list_lookup_insert_ne by done.
      by rewrite lookup_app_l. }
    assert (Hset : dict_set ch key c = ch ++ [(key, c)])
      by (by apply dict_set_absent).
    split; [|split].
    + unfold hj'. rewrite length_insert, length_app. lia.
    + exists (ch ++ [(key, c)]), (fpsj ++ [fpc]).
      split; [|split; [|split; [|split]]].
      * unfold hj'. rewrite <- Hset. apply list_lookup_insert_eq.
        rewrite length_app. lia.
      * rewrite <- Hset, dict_keys_set_order. unfold dict_mem. rewrite Hgc.
        apply NoDup_app. split; [done|]. split; [|apply NoDup_singleton].
        by intros x Hx ->%list_elem_of_singleton.
      * rewrite <- Hset, dict_keys_set_order, merged_keys_snoc.
        unfold dict_mem. by rewrite Hgc, Hc1, Hkeysch.
      * apply Forall2_app.
        -- apply Forall2_same_length_lookup_2; [exact (Forall2_length _ _ _ Hchj)|].
           intros q kc fq Hq Hfq.
           pose proof (Forall2_lookup_lr _ _ _ _ _ _ Hchj Hq Hfq) as Hci.
           assert (Hkne : fst kc ≠ key).
           { intros Heq. destruct kc as [k cq]. cbn in Heq. subst k.
             apply Hkch. by eapply dict_lookup_key. }
           apply (child_inv_keep done key hj); [done| | |done].
           ++ intros x Hx. apply Hstep; [by eapply Hfpsj_lt|].
              intros ->. by eapply Hfpsj_l1.
           ++ intros x Hlo Hx. apply Hstep; [done|lia].
        -- constructor; [|constructor].
           unfold Fusion.child_inv. cbn [fst snd].
           rewrite bool_decide_eq_true_2 by (apply elem_of_app; right; by left).
           split; [by exists (tree_depth t)|].
           split; [intros x Hx; apply Hrange in Hx; lia|].
           unfold grafted. rewrite Hc2, Hc1. exists t. split.
           ++ eapply (tree_at_frame_owns depth2 hj h0); [exact Hown2j|done|].
              intros x Hx. symmetry. by eapply (loop_same2 done hj j).
           ++ eapply tree_at_lo; [exact Htc|lia].
      * rewrite concat_app. cbn [concat]. rewrite app_nil_r.
        apply NoDup_app. split; [done|]. split; [|done].
        intros x (q & l & Hl & Hxl)%elem_of_concat_lookup Hx%Hrange.
        apply (Hfpsj_lt q l x Hl) in Hxl. lia.
    + intros x Hx Hxl Hhandled. rewrite Hstep; [|lia|done].
      apply Hframe; [done..|]. intros i' kc' fp' Hkc' Hfp' Hd.
      apply (Hhandled i' kc' fp' Hkc' Hfp'). apply elem_of_app. by left.
Qed.

(** The whole loop. *)
Lemma loop_spec (keys : list string) :
  ∀ done hj,
    done ++ keys = dict_keys (nd_children n2) →
    loop_inv done hj →
    (∃ h', foldM (merge_child (merge_datatrees fuel) l1 l2) hj keys = Ret h' ∧
           loop_inv (done ++ keys) h') ∨
    (∃ e, foldM (merge_child (merge_datatrees fuel) l1 l2) hj keys = Raise e ∧
          concat_failure e).
Proof.
  induction keys as [|key keys IHk]; intros done hj Hsplit Hinv; cbn [foldM].
  - left. exists hj. by rewrite app_nil_r.
  - assert (Hnd' : NoDup (done ++ key :: keys)) by (by rewrite Hsplit).
    apply NoDup_app in Hnd' as (_ & Hdis & _).
    assert (Hkey : key ∈ dict_keys (nd_children n2)).
    { rewrite <- Hsplit. apply elem_of_app. right. by left. }
    assert (Hnot : key ∉ done).
    { intros Hin. apply (Hdis key Hin). by left. }
    destruct (loop_step done key hj Hkey Hnot Hinv)
      as [(hj' & -> & Hinv')|(e & -> & He)]; cbn [mbind pyres_bind].
    + replace (done ++ key :: keys) with ((done ++ [key]) ++ keys)
        by (by rewrite <- app_assoc).
      apply IHk; [by rewrite <- app_assoc|done].
    + right. by exists e.
Qed.

End Loop.

(** The recursion: on two trees apart, [merge_datatrees] returns [dt1],
    which then is the merged object, or it raises what lines 82-95 make of
    a failure of [xr.concat]. *)
Lemma merge_total (depth : nat) :
  ∀ fuel depth2 h l1 l2 fp1 fp2,
    (depth ≤ fuel)%nat →
    owns depth h l1 fp1 → owns depth2 h l2 fp2 → NoDup (fp1 ++ fp2) →
    (∃ h', merge_datatrees fuel h l1 l2 = Ret (h', l1) ∧
           merge_post fuel h l1 l2 fp1 h') ∨
    (∃ e, merge_datatrees fuel h l1 l2 = Raise e ∧ concat_failure e).
Proof.
  induction depth as [|d IHd]; intros fuel depth2 h l1 l2 fp1 fp2 Hfuel;
    [done|].
  intros (n1 & fps & Hl1 & Hk1 & Hch1 & ->) Hown2 Hnd.
  destruct depth2 as [|d2]; [done|].
  destruct Hown2 as (n2 & fps2 & Hl2 & Hk2 & Hch2 & ->).
  destruct fuel as [|f]; [lia|]. cbn [merge_datatrees].
  pose proof Hnd as (Hnd1 & Hdis & Hnd2)%NoDup_app.
  assert (Hne : l1 ≠ l2).
  { intros ->. apply (Hdis l2); by left. }
  assert (Hnode := merge_node_cases h l1 l2 n1 n2 Hl1 Hl2 Hne).
  destruct (xr_concat (nd_ds n1) (nd_ds n2)) as [dd|e0] eqn:Hconcat.
  2:{ right.
      destruct (merge_ds h l1 l2) as [h1|e1]; cbn [mbind pyres_bind] in *.
      - rewrite Hnode.
        destruct (isinstance e0 MergeError) eqn:Hcls; cbn [mbind pyres_bind].
        + eexists. split; [done|].
          exists (nd_ds n1), (nd_ds n2), e0. split; [done|]. by rewrite Hcls.
        + exists e0. split; [done|].
          exists (nd_ds n1), (nd_ds n2), e0. split; [done|]. by rewrite Hcls.
      - exists e1. split; [done|].
        exists (nd_ds n1), (nd_ds n2), e0. split; [done|].
        destruct (isinstance e0 MergeError); [by injection Hnode as ->|].
        by injection Hnode as ->. }
  set (n1h := {| nd_name := nd_name n1; nd_ds := merged_data dd (attrs n2);
                 nd_children := nd_children n1 |}) in *.
  destruct (merge_ds h l1 l2) as [h1|e1]; cbn [mbind pyres_bind] in Hnode |- *;
    [|done].
  rewrite Hnode. cbn [mbind pyres_bind].
  assert (Hl1lt : (l1 < length h)%nat) by (by eapply lookup_lt_Some).
  assert (Hl1h : <[l1:=n1h]> h !! l1 = Some n1h) by (by apply list_lookup_insert_eq).
  assert (Hl2h : <[l1:=n1h]> h !! l2 = Some n2) by (by rewrite list_lookup_insert_ne).
  rewrite (proj2 (get_ret _ _ _) Hl2h). cbn [mbind pyres_bind].
  apply NoDup_cons in Hnd1 as [Hl1fps Hndfps].
  assert (Hinv0 : loop_inv f d h l1 n1h n2 fps [] (<[l1:=n1h]> h)).
  { split; [by rewrite length_insert|]. split.
    - exists (nd_children n1), fps. split; [done|]. split; [done|].
      split; [by rewrite merged_keys_nil|]. split; [|done].
      apply Forall2_same_length_lookup_2; [exact (Forall2_length _ _ _ Hch1)|].
      intros i kc fp Hkc Hfp. unfold child_inv.
      rewrite bool_decide_eq_false_2 by (by intros ?%elem_of_nil).
      split; [|by exists i].
      eapply owns_frame; [exact (Forall2_lookup_lr _ _ _ _ _ _ Hch1 Hkc Hfp)|].
      intros x Hx. apply list_lookup_insert_ne. intros <-. apply Hl1fps.
      by eapply concat_lookup_elem.
    - intros x _ Hx _. by apply list_lookup_insert_ne. }
  assert (IHloop : ∀ h l1 l2 fp1 fp2,
            owns d h l1 fp1 → owns d2 h l2 fp2 → NoDup (fp1 ++ fp2) →
            (∃ h', merge_datatrees f h l1 l2 = Ret (h', l1) ∧
                   merge_post f h l1 l2 fp1 h') ∨
            (∃ e, merge_datatrees f h l1 l2 = Raise e ∧ concat_failure e)).
  { intros h0 a b fa fb Ha Hb Hab. apply (IHd f d2 h0 a b fa fb); [lia|done..]. }
  destruct (loop_spec f d d2 IHloop h l1 l2 n1h n2 fps fps2 Hl1lt Hl2 Hk1 Hk2
              Hch1 Hch2 Hnd (dict_keys (nd_children n2)) [] (<[l1:=n1h]> h)
              eq_refl Hinv0) as [(h3 & -> & Hinv)|(e & -> & He)];
    cbn [mbind pyres_bind]; [|right; by exists e].
  left. exists h3. split; [done|]. cbn [app] in Hinv.
  destruct Hinv as
    (Hlen3 & (ch & fpsj & Hl13 & Hndch & Hkeysch & Hchj & Hndj) & Hfr3).
  assert (Hfps_lt : ∀ i fp x, fps !! i = Some fp → x ∈ fp → (x < length h)%nat).
  { intros i fp x Hfp Hx.
    destruct (Forall2_lookup_r _ _ _ _ _ Hch1 Hfp) as (kc & _ & Hown).
    by eapply owns_lt. }
  split; [done|]. split; [|split].
  - intros x Hx Hxfp. apply Hfr3; [done| |].
    + intros ->. apply Hxfp. by left.
    + intros i kc fp _ Hfp _ Hin. apply Hxfp. right.
      by eapply concat_lookup_elem.
  - destruct (owns_common_depth h3 ch fpsj) as (dj & Hall).
    { eapply Forall2_impl; [exact Hchj|]. intros kc fp Hci.
      unfold child_inv in Hci. destruct (bool_decide _).
      - by destruct Hci as (Hown & _).
      - destruct Hci as (Hown & _). by exists d. }
    exists (S dj), (l1 :: concat fpsj). split.
    + exists (with_children n1h ch), fpsj. by repeat split.
    + apply NoDup_cons. split; [|done].
      intros (q & fq & Hq & Hin)%elem_of_concat_lookup.
      destruct (Forall2_lookup_r _ _ _ _ _ Hchj Hq) as (kc & _ & Hci).
      unfold child_inv in Hci. destruct (bool_decide _).
      * destruct Hci as (_ & Hlo & _). apply Hlo in Hin. lia.
      * destruct Hci as (_ & i & _ & Hi). apply Hl1fps.
        by eapply concat_lookup_elem.
  - exists n1, n2, dd, (with_children n1h ch).
    repeat (split; [done|]). split.
    + intros k Hk.
      destruct (decide (k ∈ dict_keys ch)) as [Hin|Hnin].
      * destruct (dict_get_key _ _ Hin) as (c & Hc).
        destruct (dict_get_lookup _ _ _ Hc) as (q & Hq).
        destruct (Forall2_lookup_l _ _ _ _ _ Hchj Hq) as (fq & Hfq & Hci).
        unfold child_inv in Hci. cbn [fst snd] in Hci.
        rewrite (bool_decide_eq_false_2 _ Hk) in Hci.
        destruct Hci as (_ & i & Hi & _). cbn [nd_children with_children].
        rewrite Hc. symmetry. by eapply dict_lookup_get.
      * cbn [nd_children with_children]. rewrite (dict_get_not_key _ _ Hnin).
        symmetry. apply dict_get_not_key. intros Hk1in. apply Hnin.
        rewrite Hkeysch. apply elem_of_merged_keys. by left.
    + intros k Hk.
      assert (Hin : k ∈ dict_keys ch).
      { rewrite Hkeysch. apply elem_of_merged_keys. by right. }
      destruct (dict_get_key _ _ Hin) as (c & Hc). exists c.
      split; [done|].
      destruct (dict_get_lookup _ _ _ Hc) as (q & Hq).
      destruct (Forall2_lookup_l _ _ _ _ _ Hchj Hq) as (fq & Hfq & Hci).
      unfold child_inv in Hci. cbn [fst snd] in Hci.
      rewrite (bool_decide_eq_true_2 _ Hk) in Hci.
      by destruct Hci as (_ & _ & Hg).
Qed.

(** C3 (as amended): [merge_datatrees] works in place on its first
    argument.  For two trees of the store that are apart it returns the
    object [dt1] itself.  It rebinds [dt1.ds] to the dataset [xr.concat]
    built from the data of the two objects, whatever they hold: [dt.ds] is
    never [None], so the branch that adopts the data of [dt2] does not
    run.  It updates the attributes of that dataset, which are
    [dt1.attrs], with [dt2.attrs].  Under every child name of [dt2] it
    binds a new object to [dt1]: the root of a copy of the child of [dt2]
    where [dt1] had no child of that name, and otherwise of a copy of the
    child of [dt1] after that child has itself been merged in place with
    the child of [dt2].  The children of [dt1] under other names stay the
    objects they were.  No object of the store outside the tree of [dt1]
    is written, so the tree of [dt2] is as it was, and the store only
    grows. *)
Theorem merge_in_place (depth fuel depth2 : nat) (h : heap) (l1 l2 : loc)
    (fp1 fp2 : list loc) (h' : heap) (r : loc) :
  (depth ≤ fuel)%nat →
  owns depth h l1 fp1 → owns depth2 h l2 fp2 → NoDup (fp1 ++ fp2) →
  merge_datatrees fuel h l1 l2 = Ret (h', r) →
  r = l1 ∧ (length h ≤ length h')%nat ∧
  (∀ x, (x < length h)%nat → x ∉ fp1 → h' !! x = h !! x) ∧
  (∀ x, x ∈ fp2 → h' !! x = h !! x) ∧
  merged_node fuel h h' l1 l2.
Proof.
  intros Hfuel Hown1 Hown2 Hnd Hmerge.
  destruct (merge_total depth fuel depth2 h l1 l2 fp1 fp2 Hfuel Hown1 Hown2 Hnd)
    as [(h'' & Hm & Hlen & Hframe & _ & Hnode)|(e & Hm & _)];
    rewrite Hm in Hmerge; [|done].
  injection Hmerge as <- <-.
  split; [done|]. split; [done|]. split; [done|]. split; [|done].
  intros x Hx. apply Hframe; [by eapply owns_lt|].
  apply NoDup_app in Hnd as (_ & Hdis & _).
  intros Hx1. by apply (Hdis x).
Qed.

(** C4 (as amended): [merge_datatrees] hands the data of the two objects
    to [xr.concat] with [dim="uts"] and [combine_attrs="identical"]; a
    [MergeError] of that call is raised again as a [RuntimeError], any
    other error of the call is raised as it is, and when the merge of two
    trees apart returns, the data of [dt1] is the dataset [xr.concat]
    returned for the two, with its attributes updated by those of [dt2]:
    it is that dataset itself when it carries the attributes of [dt2]. *)
Theorem merge_both_have_data (fuel : nat) (h : heap) (l1 l2 : loc)
    (n1 n2 : node) (d1 d2 : Dataset) :
  h !! l1 = Some n1 → h !! l2 = Some n2 →
  nd_ds n1 = d1 → nd_ds n2 = d2 →
  (∀ e, xr_concat d1 d2 = Raise e → isinstance e MergeError = true →
        merge_datatrees (S fuel) h l1 l2 =
          raise RuntimeError
            ("Merging datasets at node '" ++ name_repr (nd_name n1)
             ++ "' failed due to conflicting data variables or coordinates.")%string) ∧
  (∀ e, xr_concat d1 d2 = Raise e → isinstance e MergeError = false →
        merge_datatrees (S fuel) h l1 l2 = Raise e) ∧
  (∀ depth depth2 fp1 fp2 h' r,
     (depth ≤ S fuel)%nat →
     owns depth h l1 fp1 → owns depth2 h l2 fp2 → NoDup (fp1 ++ fp2) →
     merge_datatrees (S fuel) h l1 l2 = Ret (h', r) →
     ∃ d n1', xr_concat d1 d2 = Ret d ∧ h' !! r = Some n1' ∧
              nd_ds n1' = merged_data d (ds_attrs d2) ∧
              ((∀ k v, In (k, v) (ds_attrs d2) →
                       dict_get (ds_attrs d) k = Some v) →
               nd_ds n1' = d)).
Proof.
  intros Hl1 Hl2 Hd1 Hd2.
  assert (Hraise : ∀ e, xr_concat d1 d2 = Raise e →
            merge_datatrees (S fuel) h l1 l2 =
              if isinstance e MergeError
              then raise RuntimeError
                     ("Merging datasets at node '" ++ name_repr (nd_name n1)
                      ++ "' failed due to conflicting data variables or coordinates.")%string
              else Raise e).
  { intros e He. cbn [merge_datatrees]. unfold merge_ds.
    rewrite (proj2 (get_ret _ _ _) Hl1), (proj2 (get_ret _ _ _) Hl2).
    cbn [mbind pyres_bind ds_of]. rewrite Hd1, Hd2, He.
    by destruct (isinstance e MergeError). }
  split; [|split].
  - intros e He Hm. by rewrite (Hraise e He), Hm.
  - intros e He Hm. by rewrite (Hraise e He), Hm.
  - intros depth depth2 fp1 fp2 h' r Hfuel Hown1 Hown2 Hnd Hmerge.
    destruct (merge_total depth (S fuel) depth2 h l1 l2 fp1 fp2
                Hfuel Hown1 Hown2 Hnd)
      as [(h'' & Hm & _ & _ & _ & Hnode)|(e & Hm & _)];
      rewrite Hm in Hmerge; [|done].
    injection Hmerge as <- <-.
    destruct Hnode as (m1 & m2 & d & n1' & Hm1 & Hm2 & Hd & Hn1' & _ & Hds & _).
    rewrite Hl1 in Hm1. injection Hm1 as <-.
    rewrite Hl2 in Hm2. injection Hm2 as <-.
    unfold attrs in Hds. rewrite Hd1, Hd2 in *.
    exists d, n1'. repeat (split; [done|]).
    intros Hsame. rewrite Hds. by apply merged_data_same.
Qed.

(** *** [extract] *)

(** C9: when no name in the unpacked archive ends in ["fusion-data"],
    [extract] raises the [TypeError] of [reduce] on an empty list; so a
    tree is returned only if some name does. *)
Theorem extract_needs_member (listing : list string) (timezone encoding : string) :
  (List.filter (fun ffn => endswith ffn "fusion-data") listing = [] →
   extract listing timezone encoding =
     raise TypeError "reduce() of empty iterable with no initial value") ∧
  (∀ r, extract listing timezone encoding = Ret r →
        ∃ ffn, ffn ∈ listing ∧ endswith ffn "fusion-data" = true).
Proof.
  assert (Hempty : List.filter (fun ffn => endswith ffn "fusion-data") listing = [] →
                   extract listing timezone encoding =
                     raise TypeError "reduce() of empty iterable with no initial value").
  { intros Hnone. unfold extract. by rewrite Hnone. }
  split; [done|].
  intros r Hr.
  destruct (List.filter (fun ffn => endswith ffn "fusion-data") listing)
    as [|ffn rest] eqn:Hf.
  - by rewrite Hempty in Hr.
  - assert (Hin : In ffn (List.filter (fun ffn => endswith ffn "fusion-data") listing))
      by (rewrite Hf; by left).
    apply filter_In in Hin as [Hin Hend].
    exists ffn. split; [by apply list_elem_of_In|done].
Qed.



End MergeFacts.

(** *** The sample archive and stores *)

Import SampleFusion.


(** A store of objects without children below [n] and two objects with
    children above: each of the two is the root of a tree. *)
Lemma sample_owns (h : heap) :
  (∀ l n, h !! l = Some n → nd_children n = [] → owns 1 h l [l]) ∧
  (∀ l n c nc, h !! l = Some n → nd_children n = [c] →
               h !! snd c = Some nc → nd_children nc = [] →
               owns 2 h l [l; snd c]) ∧
  (∀ l n c c' nc nc', h !! l = Some n → nd_children n = [c; c'] →
               fst c ≠ fst c' →
               h !! snd c = Some nc → nd_children nc = [] →
               h !! snd c' = Some nc' → nd_children nc' = [] →
               owns 2 h l [l; snd c; snd c']).
Proof.
  assert (Hleaf : ∀ l n, h !! l = Some n → nd_children n = [] → owns 1 h l [l]).
  { intros l n Hn Hch. exists n, []. rewrite Hch.
    repeat split; try done; constructor. }
  split; [done|]. split.
  - intros l n c nc Hn Hch Hnc Hc. exists n, [[snd c]]. rewrite Hch.
    split; [done|]. split; [apply NoDup_singleton|]. split; [|done].
    constructor; [by eapply Hleaf|constructor].
  - intros l n c c' nc nc' Hn Hch Hne Hnc Hc Hnc' Hc'.
    exists n, [[snd c]; [snd c']]. rewrite Hch.
    split; [done|]. split; [|split; [|done]].
    + cbn. apply NoDup_cons. split; [|apply NoDup_singleton].
      by intros ?%list_elem_of_singleton.
    + constructor; [by eapply Hleaf|].
      constructor; [by eapply Hleaf|constructor].
Qed.

Lemma two_trees_owns :
  owns 2 two_trees 1 [1; 0]%nat ∧ owns 2 two_trees 4 [4; 2; 3]%nat ∧
  NoDup ([1; 0] ++ [4; 2; 3])%nat.
Proof.
  destruct (sample_owns two_trees) as (_ & H1 & H2).
  split; [|split].
  - by eapply (H1 1%nat _ ("TCD", 0%nat)).
  - by eapply (H2 4%nat _ ("TCD", 2%nat) ("FID", 3%nat)).
  - cbn [app]. repeat (apply NoDup_cons; split; [set_solver|]). apply NoDup_nil_2.
Qed.

Lemma two_differing_owns :
  owns 2 two_differing 1 [1; 0]%nat ∧ owns 2 two_differing 4 [4; 2; 3]%nat ∧
  NoDup ([1; 0] ++ [4; 2; 3])%nat.
Proof.
  destruct (sample_owns two_differing) as (_ & H1 & H2).
  split; [|split].
  - by eapply (H1 1%nat _ ("TCD", 0%nat)).
  - by eapply (H2 4%nat _ ("TCD", 2%nat) ("FID", 3%nat)).
  - cbn [app]. repeat (apply NoDup_cons; split; [set_solver|]). apply NoDup_nil_2.
Qed.

(** Two trees whose data carry different attributes are not merged: the
    [MergeError] of [xr.concat] comes out as a [RuntimeError], before any
    attribute is updated. *)
Lemma merge_differing_attrs :
  xr_concat (valve_ds_with [("run", PInt 1)] [30%float; 40%float] [1; 2])
            (valve_ds_with [("run", PInt 2)] [10%float; 20%float] [3; 4])
    = raise MergeError "combine_attrs='identical', but attrs differ" ∧
  merge_datatrees 2 two_differing 1 4
    = raise RuntimeError
        "Merging datasets at node 'None' failed due to conflicting data variables or coordinates.".
Proof. split; vm_compute; reflexivity. Qed.

(** The two sample trees: the object 1 is rewritten in place, the objects
    2, 3 and 4 of the second tree are untouched, and the children of 1 are
    the new objects 5 and 6. *)
Lemma merge_in_place_witness :
  ∃ h', merge_datatrees 2 two_trees 1 4 = Ret (h', 1%nat) ∧
    1%nat = 1%nat ∧ (length two_trees ≤ length h')%nat ∧
    (∀ x, (x < length two_trees)%nat → x ∉ [1; 0]%nat →
          h' !! x = two_trees !! x) ∧
    (∀ x, x ∈ [4; 2; 3]%nat → h' !! x = two_trees !! x) ∧
    merged_node 2 two_trees h' 1 4.
Proof.
  eexists. split; [vm_compute; reflexivity|].
  destruct two_trees_owns as (Hown1 & Hown2 & Hnd).
  apply (merge_in_place 2 2 2 two_trees 1 4 [1; 0]%nat [4; 2; 3]%nat);
    [lia|exact Hown1|exact Hown2|exact Hnd|].
  vm_compute. reflexivity.
Defined.

(** C3 fails as stated: both trees have row data and the same attributes,
    and after the merge the input tree [dt1] is not what it was.  The
    object [dt1] holds the four rows that [xr.concat] built and has two
    children that are new objects of the store; its former child [TCD],
    the object 0, has been merged in place and holds four rows too. *)
Lemma merge_in_place_counterexample :
  ∃ h' n1 n1' c c',
    merge_datatrees 2 two_trees 1 4 = Ret (h', 1%nat) ∧
    two_trees !! 1%nat = Some n1 ∧ h' !! 1%nat = Some n1' ∧
    ds_uts (nd_ds n1) = [PFloat 30; PFloat 40] ∧
    ds_uts (nd_ds n1') = [PFloat 30; PFloat 40; PFloat 10; PFloat 20] ∧
    nd_children n1 = [("TCD", 0%nat)] ∧
    nd_children n1' = [("TCD", 5%nat); ("FID", 6%nat)] ∧
    two_trees !! 0%nat = Some c ∧ h' !! 0%nat = Some c' ∧
    ds_uts (nd_ds c) = [PFloat 30; PFloat 40] ∧
    ds_uts (nd_ds c') = [PFloat 30; PFloat 40; PFloat 10; PFloat 20] ∧
    length two_trees = 5%nat ∧ length h' = 7%nat ∧
    h' !! 1%nat ≠ two_trees !! 1%nat.
Proof.
  eexists _, _, _, _, _. split; [vm_compute; reflexivity|].
  repeat (split; [reflexivity|]). vm_compute. discriminate.
Qed.

(** The two sample trees again. *)
Lemma merge_both_have_data_witness :
  (∀ e, xr_concat ds_a ds_b = Raise e →
        isinstance e MergeError = true →
        merge_datatrees 2 two_trees 1 4 =
          raise RuntimeError
            ("Merging datasets at node '" ++ name_repr None
             ++ "' failed due to conflicting data variables or coordinates.")%string) ∧
  (∀ e, xr_concat ds_a ds_b = Raise e →
        isinstance e MergeError = false →
        merge_datatrees 2 two_trees 1 4 = Raise e) ∧
  (∀ depth depth2 fp1 fp2 h' r,
     (depth ≤ 2)%nat →
     owns depth two_trees 1 fp1 → owns depth2 two_trees 4 fp2 →
     NoDup (fp1 ++ fp2) →
     merge_datatrees 2 two_trees 1 4 = Ret (h', r) →
     ∃ d n1', xr_concat ds_a ds_b = Ret d ∧
              h' !! r = Some n1' ∧
              nd_ds n1' = merged_data d (ds_attrs ds_b) ∧
              ((∀ k v, In (k, v) (ds_attrs ds_b) →
                       dict_get (ds_attrs d) k = Some v) →
               nd_ds n1' = d)).
Proof.
  apply (merge_both_have_data 1 two_trees 1 4
           (mk_node None ds_a [("TCD", 0%nat)])
           (mk_node None ds_b [("TCD", 2%nat); ("FID", 3%nat)]));
    reflexivity.
Defined.

(** C4 fails as stated: two datasets have the data variable [valve] with
    different values, even at the same row times, and merging them raises
    nothing: the rows of both are kept, one after the other. *)
Lemma merge_both_have_data_counterexample :
  ∃ h' n1',
    merge_datatrees 1 two_conflicting 0 1 = Ret (h', 0%nat) ∧
    h' !! 0%nat = Some n1' ∧
    nd_ds n1' = valve_ds [10%float; 20%float; 10%float; 20%float] [1; 2; 3; 4].
Proof. eexists _, _. repeat split; vm_compute; reflexivity. Qed.

(** An archive without a member to read. *)
Lemma extract_needs_member_witness :
  (List.filter (fun ffn => endswith ffn "fusion-data") ["readme.txt"; "data.json"] = [] →
   extract ["readme.txt"; "data.json"] "UTC" "utf-8" =
     raise TypeError "reduce() of empty iterable with no initial value") ∧
  (∀ r, extract ["readme.txt"; "data.json"] "UTC" "utf-8" = Ret r →
        ∃ ffn, ffn ∈ ["readme.txt"; "data.json"] ∧ endswith ffn "fusion-data" = true).
Proof. apply (extract_needs_member ["readme.txt"; "data.json"] "UTC" "utf-8"). Defined.



End FusionFacts.

(** ** Further properties of the [.mpt] extractor *)

Module MptMore.
Import Py Columns Mpt PyFacts.

Lemma foldM_app {A S} (f : S → A → pyres S) (l1 l2 : list A) (s : S) :
  foldM f s (l1 ++ l2)%list = foldM f s l1 ≫= (fun s' => foldM f s' l2).
Proof.
  revert s. induction l1 as [|x l1 IH]; intros s; cbn; [done|].
  destruct (f s x) as [s'|e]; cbn; [apply IH|done].
Qed.

Section More.
Context {env : MptEnv}.

(** *** The header line of the data *)

Lemma column_units_from_names (names columns : list string) (units : dict string) :
  column_table names = Ret (columns, units) →
  ∀ c u, dict_get units c = Some u →
         ∃ n, In n names ∧ dict_get column_units n = Some (c, Some u).
Proof.
  unfold column_table. intros H.
  change (units) with (snd (columns, units)). revert H.
  apply (foldM_invariant
           (fun st : list string * dict string =>
              ∀ c u, dict_get (snd st) c = Some u →
                     ∃ n, In n names ∧ dict_get column_units n = Some (c, Some u)));
    [done|].
  intros [cols us] n st' Hin Hu Hstep. cbn in *.
  apply bind_ret in Hstep as ([c ou] & Hget%DataFacts.dict_item_ret & [= <-]). cbn.
  intros c' u'. destruct ou as [u|]; [|by apply Hu].
  rewrite dict_get_set. destruct (String.eqb_spec c c') as [<-|?].
  - intros [= <-]. by exists n.
  - by apply Hu.
Qed.

(** X1: when [column_table] returns, it gives one canonical name per
    label of the header line, in the order of the labels, and the unit
    table holds exactly the canonical names to which some label of the
    line gives a unit. *)
Theorem column_table_order (names columns : list string) (units : dict string) :
  column_table names = Ret (columns, units) →
  Forall2 (fun n c => ∃ u, dict_get column_units n = Some (c, u)) names columns ∧
  length columns = length names ∧
  ∀ c, dict_mem units c = true ↔
       ∃ n u, In n names ∧ dict_get column_units n = Some (c, Some u).
Proof.
  intros H. pose proof (column_units_from_names _ _ _ H) as Hfrom.
  pose proof H as Hcomplete. unfold column_table in H, Hcomplete.
  apply DataFacts.column_fold_order in H as (cs & -> & Hcs). cbn [app].
  apply DataFacts.column_table_complete in Hcomplete as (_ & _ & Hnames).
  split; [done|]. split; [symmetry; by eapply Forall2_length|].
  intros c. split.
  - unfold dict_mem. destruct (dict_get units c) as [u|] eqn:Hu; [|done].
    intros _. apply Hfrom in Hu as (n & Hin & Hn). by exists n, u.
  - intros (n & u & Hin & Hn). by destruct (Hnames n c u Hin Hn).
Qed.

(** The first label that is not in the table stops [column_table]. *)
Lemma column_table_unknown (known rest : list string) (n : string) :
  Forall (fun m => dict_mem column_units m = true) known →
  dict_get column_units n = None →
  column_table (known ++ n :: rest)%list = raise KeyError n.
Proof.
  intros Hknown Hn. unfold column_table.
  generalize (([], []) : list string * dict string).
  induction Hknown as [|m known Hm _ IH]; intros st; cbn [foldM app].
  - unfold dict_item. by rewrite Hn.
  - assert (∃ cu, dict_item column_units m = Ret cu) as [cu ->].
    { unfold dict_item, dict_mem in *.
      destruct (dict_get column_units m) as [cu|]; [by exists cu|done]. }
    cbn [mbind pyres_bind]. apply IH.
Qed.

(** X2: a label of the header line that [column_units] does not know
    makes [process_data] raise a [KeyError] for the first such label,
    whatever the data lines are. *)
Theorem process_data_unknown_column (lines : list string)
    (Eranges Iranges controls : list pyobj) (locale header : string)
    (known rest : list string) (n : string) :
  list_item lines 1 = Ret header →
  slice_to (split header tab) (-1) = (known ++ n :: rest)%list →
  Forall (fun m => dict_mem column_units m = true) known →
  dict_get column_units n = None →
  process_data lines Eranges Iranges controls locale = raise KeyError n.
Proof.
  intros Hheader Hnames Hknown Hn. unfold process_data, process_rows.
  rewrite (bind_ret_l _ _ _ Hheader), Hnames.
  by rewrite (column_table_unknown _ _ _ Hknown Hn).
Qed.

(** *** The uncertainties of one data line *)

Lemma dict_mem_set {V} (d : dict V) (k k' : string) (v : V) :
  dict_mem (dict_set d k v) k' = true ↔ k = k' ∨ dict_mem d k' = true.
Proof.
  unfold dict_mem. rewrite dict_get_set.
  destruct (String.eqb_spec k k') as [->|Hne]; [by split; [left|]|].
  split; [by right|]. by intros [?|?].
Qed.

Lemma row_devs_fold (units : dict string) (Erange Irange : pyobj)
    (vals : dict pyobj) :
  ∀ devs0 devs,
    foldM (fun devs (cv : string * pyobj) =>
             match dict_get units (fst cv) with
             | None => Ret devs
             | Some unit =>
                 match snd cv with
                 | PFloat val =>
                     s ← get_resolution (fst cv) val unit Erange Irange;
                     Ret (dict_set devs (fst cv) (PFloat s))
                 | _ => raise AssertionError "`n` should not be string"
                 end
             end) devs0 vals = Ret devs →
    (∀ col, dict_mem devs col = true ↔
            dict_mem devs0 col = true ∨
            (In col (dict_keys vals) ∧ dict_mem units col = true)) ∧
    (∀ col v, In (col, v) vals → dict_mem units col = true → ∃ f, v = PFloat f) ∧
    (∀ col s, dict_get devs col = Some s →
              dict_get devs0 col = Some s ∨ ∃ f, s = PFloat f).
Proof.
  induction vals as [|[c v] vals IH]; intros devs0 devs; cbn [foldM].
  - intros [= <-]. split; [|split].
    + intros col. split; [by left|]. by intros [?|[[] _]].
    + by intros ?? [].
    + intros ???. by left.
  - intros (devs1 & Hstep & Hrest)%bind_ret. cbn [fst snd] in Hstep.
    apply IH in Hrest as (Hmem & Hfloat & Hsig).
    destruct (dict_get units c) as [unit|] eqn:Hu.
    + destruct v as [| | |val| | |]; try done.
      apply bind_ret in Hstep as (s & _ & [= <-]).
      split; [|split].
      * intros col. rewrite Hmem, dict_mem_set. cbn [dict_keys map fst In].
        split.
        -- intros [[<-|?]|[? ?]]; [right|by left|right; split; [by right|done]].
           split; [by left|]. unfold dict_mem. by rewrite Hu.
        -- intros [?|[[<-|?] ?]]; [left; by right|left; by left|by right].
      * intros col w [[= <- <-]|Hin] Hcol; [by exists val|by eapply Hfloat].
      * intros col s' [Hs|?]%Hsig; [|by right].
        rewrite dict_get_set in Hs.
        destruct (String.eqb c col); [|by left].
        injection Hs as <-. right. by exists s.
    + injection Hstep as <-. split; [|split].
      * intros col. rewrite Hmem. cbn [dict_keys map fst In].
        split; [intros [?|[? ?]]; [by left|right; split; [by right|done]]|].
        intros [?|[[<-|?] Hcol]]; [by left| |by right].
        unfold dict_mem in Hcol. by rewrite Hu in Hcol.
      * intros col w [[= <- <-]|Hin] Hcol; [|by eapply Hfloat].
        unfold dict_mem in Hcol. by rewrite Hu in Hcol.
      * done.
Qed.

(** X3: when the uncertainties of a line are computed, the columns that
    carry one are exactly the columns of the line that have a unit, every
    value of such a column is a float, and every uncertainty is a float:
    a column with a unit never goes without its sigma. *)
Theorem row_devs_sigma (units : dict string) (vals : dict pyobj)
    (Erange Irange : pyobj) (devs : dict pyobj) :
  row_devs units vals Erange Irange = Ret devs →
  (∀ col, dict_mem devs col = true ↔
          dict_mem vals col = true ∧ dict_mem units col = true) ∧
  (∀ col v, In (col, v) vals → dict_mem units col = true → ∃ f, v = PFloat f) ∧
  (∀ col s, dict_get devs col = Some s → ∃ f, s = PFloat f).
Proof.
  unfold row_devs. intros (Hmem & Hfloat & Hsig)%row_devs_fold.
  split; [|split; [done|]].
  - intros col. rewrite Hmem. split.
    + intros [H|[H1 H2]]; [by cbv in H|]. split; [by apply dict_mem_keys|done].
    + intros [H1 H2]. right. split; [by apply dict_mem_keys|done].
  - intros col s [H|H]%Hsig; [by cbv in H|done].
Qed.

(** *** The values of one data line *)

(** X4: the values of a data line are paired with the columns from the
    left: a line with fewer fields than columns gives values to the first
    columns only, and fields beyond the last column are ignored. *)
Theorem row_vals_columns (units : dict string) (locale : string)
    (columns values : list string) (vals : dict pyobj) :
  row_vals units locale columns values = Ret vals →
  (∀ k, In k (dict_keys vals) ↔ In k (firstn (length values) columns)) ∧
  (length vals ≤ Nat.min (length columns) (length values))%nat.
Proof.
  unfold row_vals. intros H. split.
  - intros k.
    rewrite (DataFacts.row_vals_fold _ _ _ _ _ H k), DataFacts.map_fst_combine.
    split; [by intros [[]|?]|by right].
  - revert H. rewrite <- (length_combine columns values).
    change (length vals ≤ length (combine columns values))%nat
      with (length vals ≤ length (@nil (string * pyobj)) + length (combine columns values))%nat.
    generalize (@nil (string * pyobj)) as vals0. 
    induction (combine columns values) as [|[n x] cells IH]; intros vals0; cbn [foldM].
    + intros [= <-]. cbn. lia.
    + intros (vals1 & Hstep & Hrest)%bind_ret.
      apply bind_ret in Hstep as (v & _ & [= <-]). cbn [fst snd] in *.
      apply IH in Hrest. cbn [length].
      assert (length (dict_set vals0 n v) ≤ S (length vals0))%nat; [|lia].
      clear. induction vals0 as [|[k w] d IHd]; cbn; [lia|].
      destruct (String.eqb k n); cbn; lia.
Qed.

(** *** The ranges of a data line *)

Lemma list_item_out_of_range {A} (l : list A) (z : Z) :
  z < - len l ∨ len l <= z →
  list_item l z = raise IndexError "list index out of range".
Proof.
  intros Hz. unfold list_item, len in *.
  destruct (Z.ltb_spec z 0) as [Hneg|Hpos].
  - destruct (Z.ltb_spec (z + Z.of_nat (length l)) 0); [done|lia].
  - destruct (Z.ltb_spec z 0); [lia|].
    destruct (nth_error l (Z.to_nat z)) eqn:Hnth; [|done].
    assert (Hsome : nth_error l (Z.to_nat z) ≠ None) by congruence.
    apply nth_error_Some in Hsome. lia.
Qed.

(** X5: the [Ns] value of a data line indexes the ranges of the sequences
    the way a Python list index does; a line whose [Ns] lies outside
    [-n .. n-1], for [n] ranges, stops the processing of the line with an
    [IndexError]. *)
Theorem process_row_Ns_out_of_range (Eranges Iranges controls : list pyobj)
    (locale : string) (columns : list string) (st : acc) (li : Z) (line : string)
    (vals : dict pyobj) (z : Z) :
  row_vals (acc_units st) locale columns (split line tab) = Ret vals →
  dict_get vals "Ns" = Some (PInt z) →
  z < - len Eranges ∨ len Eranges <= z →
  process_row Eranges Iranges controls locale columns st (li, line)
    = raise IndexError "list index out of range".
Proof.
  intros Hvals HNs Hz. unfold process_row. cbn [snd].
  rewrite (bind_ret_l _ _ _ Hvals). unfold row_ranges, dict_mem, dict_item.
  rewrite HNs. cbn [mbind pyres_bind list_item_obj].
  by rewrite (list_item_out_of_range _ _ Hz).
Qed.

(** *** The ranges of the sequences *)

Lemma sequence_ranges_fold (params : list (dict pyobj)) :
  ∀ E0 I0 C0 E I C,
    foldM (fun (st : list pyobj * list pyobj * list pyobj) (el : dict pyobj) =>
             let E_range_max := default (PFloat infinity) (dict_get el "E_range_max") in
             let E_range_min := default (PFloat neg_infinity) (dict_get el "E_range_min") in
             e ← py_sub E_range_max E_range_min;
             let i := default (PStr "Auto") (dict_get el "I_range") in
             let c := match dict_get el "set_I/C" with
                      | Some v => v
                      | None => default PNone (dict_get el "apply_I/C")
                      end in
             Ret ((fst (fst st) ++ [e])%list, (snd (fst st) ++ [i])%list,
                  (snd st ++ [c])%list))
          (E0, I0, C0) params = Ret (E, I, C) →
    ∃ Es, E = (E0 ++ Es)%list ∧
          Forall2 (fun el e =>
                     py_sub (default (PFloat infinity) (dict_get el "E_range_max"))
                            (default (PFloat neg_infinity) (dict_get el "E_range_min"))
                     = Ret e) params Es ∧
          I = (I0 ++ map (fun el => default (PStr "Auto") (dict_get el "I_range")) params)%list ∧
          C = (C0 ++ map (fun el => match dict_get el "set_I/C" with
                                    | Some v => v
                                    | None => default PNone (dict_get el "apply_I/C")
                                    end) params)%list.
Proof.
  induction params as [|el params IH]; intros E0 I0 C0 E I C; cbn [foldM].
  - intros [= <- <- <-]. exists []. rewrite !app_nil_r. by repeat split.
  - intros (st1 & Hstep & Hrest)%bind_ret. cbn zeta in Hstep.
    apply bind_ret in Hstep as (e & He & [= <-]). cbn [fst snd] in Hrest.
    apply IH in Hrest as (Es & -> & HEs & -> & ->).
    exists (e :: Es). rewrite <- !app_assoc. cbn [map app].
    split; [done|]. split; [by constructor|done].
Qed.

(** X6: when the header is processed, the flag [fulldate] is set, the
    start time is the [posix_timestamp] of the settings, and there is one
    voltage range, one current range and one control per sequence, in the
    order of the sequences: the current range is the sequence's [I_range]
    or ["Auto"], the control is its [set_I/C], else its [apply_I/C], else
    [None], and the voltage range is [E_range_max - E_range_min], which is
    infinite for a sequence that gives neither bound. *)
Theorem with_header_ranges (header_lines : list string) (timezone locale : string)
    (hi : header_info) :
  with_header header_lines timezone locale = Ret hi →
  hi_fulldate hi = true ∧
  (∃ uts, hi_start_time hi = PFloat uts ∧
          dict_get (hi_settings hi) "posix_timestamp" = Some (PFloat uts)) ∧
  length (hi_Eranges hi) = length (hi_params hi) ∧
  Forall2 (fun el e =>
             py_sub (default (PFloat infinity) (dict_get el "E_range_max"))
                    (default (PFloat neg_infinity) (dict_get el "E_range_min"))
             = Ret e) (hi_params hi) (hi_Eranges hi) ∧
  (∀ (i : nat) el, hi_params hi !! i = Some el →
     dict_get el "E_range_max" = None → dict_get el "E_range_min" = None →
     hi_Eranges hi !! i = Some (PFloat infinity)) ∧
  hi_Iranges hi = map (fun el => default (PStr "Auto") (dict_get el "I_range"))
                      (hi_params hi) ∧
  hi_ctrls hi = map (fun el => match dict_get el "set_I/C" with
                               | Some v => v
                               | None => default PNone (dict_get el "apply_I/C")
                               end) (hi_params hi).
Proof.
  unfold with_header. intros ([[settings params] loops] & Hh & H)%bind_ret.
  apply bind_ret in H as ([[E I] C] & Hr & [= <-]). cbn [fst snd] in *.
  cbn [hi_fulldate hi_start_time hi_settings hi_Eranges hi_Iranges hi_ctrls hi_params].
  unfold sequence_ranges in Hr.
  apply sequence_ranges_fold in Hr as (Es & -> & HEs & -> & ->). cbn [app].
  split; [done|]. split.
  - unfold process_header in Hh.
    apply bind_ret in Hh as (? & _ & Hh).
    apply bind_ret in Hh as (? & _ & Hh).
    apply bind_ret in Hh as (? & _ & Hh).
    apply bind_ret in Hh as (? & _ & Hh).
    apply bind_ret in Hh as (? & _ & Hh).
    apply bind_ret in Hh as (? & _ & Hh).
    apply bind_ret in Hh as (uts & _ & Hh).
    apply bind_ret in Hh as (? & _ & [= <- <- <-]).
    by exists uts.
  - split; [symmetry; by eapply Forall2_length|]. split; [done|]. split; [|done].
    intros i el Hel Hmax Hmin.
    destruct (Forall2_lookup_l _ _ _ _ _ HEs Hel) as (e & He & Hsub).
    rewrite Hmax, Hmin in Hsub. cbn in Hsub. by injection Hsub as <-.
Qed.

(** *** The loops section *)

(** X7: [process_header] reads loops only from a header of at least four
    sections whose last section starts with ["Number of loops : "];
    otherwise the loops are [None].  When it reads them, it returns the
    declared count and exactly that many start indexes (none for a count
    that is not positive), one from each of the lines after the first. *)
Theorem loops_section_shape (sections : list string) (loops : pyobj) :
  loops_section sections = Ret loops →
  (loops = PNone ∧
   (len sections < 4 ∨
    ∃ last, list_item sections (-1) = Ret last ∧
            startswith last "Number of loops : " = false)) ∨
  (∃ last n indexes,
     4 <= len sections ∧ list_item sections (-1) = Ret last ∧
     startswith last "Number of loops : " = true ∧
     loops = PDict [("n_loops", PInt n); ("indexes", PList (map PInt indexes))] ∧
     (∃ l0 n_str, list_item (split last nl) 0 = Ret l0 ∧
                  list_item (split l0 ":") (-1) = Ret n_str ∧
                  int_of_str n_str = Ret n) ∧
     len indexes = Z.max 0 n ∧
     ∀ (i : nat) idx, indexes !! i = Some idx →
       ∃ ln h w, list_item (split last nl) (Z.of_nat i + 1) = Ret ln ∧
                 list_item (split ln "to") 0 = Ret h ∧
                 list_item (split_ws h) (-1) = Ret w ∧
                 int_of_str w = Ret idx).
Proof.
  unfold loops_section.
  destruct (Z.leb_spec 4 (len sections)) as [Hlen|Hlen];
    [|intros [= <-]; left; split; [done|by left]].
  intros (last & Hlast & H)%bind_ret.
  destruct (startswith last "Number of loops : ") eqn:Hstart;
    [|injection H as <-; left; split; [done|right; by exists last]].
  apply bind_ret in H as (l0 & Hl0 & H).
  apply bind_ret in H as (n_str & Hn_str & H).
  apply bind_ret in H as (n & Hn & H).
  apply bind_ret in H as (indexes & Hidx%mapM_ret & [= <-]).
  right. exists last, n, indexes. repeat (split; [done|]).
  split; [by exists l0, n_str|]. split.
  - unfold len. rewrite <- (Forall2_length _ _ _ Hidx), HeaderFacts.range_length. lia.
  - intros i idx Hi.
    destruct (Forall2_lookup_r _ _ _ _ _ Hidx Hi) as (k & Hk & Hstep).
    apply HeaderFacts.range_lookup in Hk as ->. cbn beta in Hstep.
    apply bind_ret in Hstep as (ln & Hln & Hstep).
    apply bind_ret in Hstep as (h & Hh & Hstep).
    apply bind_ret in Hstep as (w & Hw & Hstep).
    exists ln, h, w. replace (Z.of_nat i + 1) with (0 + Z.of_nat i + 1) by lia.
    by repeat split.
Qed.

(** *** A header without acquisition time *)

(** X8: when no line of the settings block holds the text
    ["Acquisition started on : "] followed by at least one character,
    [process_header] raises the [TypeError] of subscripting [None]: the
    regular expression has no match and its result is used unchecked. *)
Theorem process_header_no_acquisition (lines : list string)
    (timezone locale s1 s2 : string) (tk : string * list string)
    (params : list (dict pyobj)) :
  list_item (header_sections lines) 1 = Ret s1 →
  startswith s1 "Number of loops : " = false →
  3 <= len (header_sections lines) →
  list_item (header_sections lines) 2 = Ret s2 →
  technique_params (strip s1) (split s2 nl) = Ret tk →
  sequence_params (slice_from (split s2 nl) (- len (snd tk))) (snd tk) locale
    = Ret params →
  search_after "Acquisition started on : "
    (join nl (map strip (slice_to (split s2 nl) (- len (snd tk))))) = None →
  process_header lines timezone locale
    = raise TypeError "'NoneType' object is not subscriptable".
Proof.
  intros Hs1 Hloop Hlen Hs2 Htk Hparams Hts. unfold process_header.
  apply Z.leb_le in Hlen.
  rewrite (bind_ret_l _ _ _ Hs1), Hloop, Hlen.
  change (py_assert (negb false) "no settings present") with (Ret tt).
  change (py_assert true "no settings present") with (Ret tt).
  rewrite !(bind_ret_l (Ret tt) _ tt eq_refl).
  rewrite (bind_ret_l _ _ _ Hs2), (bind_ret_l _ _ _ Htk).
  rewrite (bind_ret_l _ _ _ Hparams).
  unfold acquisition_uts. by rewrite Hts.
Qed.

(** *** The keys of the sequence mappings *)

Lemma dict_set_fresh {V} (d : dict V) (k : string) (v : V) :
  ¬ In k (dict_keys d) → dict_set d k v = (d ++ [(k, v)])%list.
Proof.
  induction d as [|[k0 v0] d IH]; cbn; [done|]. intros Hk.
  destruct (String.eqb_spec k0 k) as [->|_]; [destruct Hk; by left|].
  rewrite IH; [done|]. intros ?. apply Hk. by right.
Qed.

Lemma dict_update_fresh {V} (e : dict V) :
  ∀ d, List.NoDup (dict_keys d ++ dict_keys e)%list →
       dict_update d e = (d ++ e)%list.
Proof.
  unfold dict_update.
  induction e as [|[k v] e IH]; intros d Hnd; cbn; [by rewrite app_nil_r|].
  cbn in Hnd. rewrite dict_set_fresh.
  - rewrite IH; [by rewrite <- app_assoc|].
    unfold dict_keys in *. rewrite map_app, <- app_assoc. exact Hnd.
  - apply List.NoDup_remove_2 in Hnd. intros Hin. apply Hnd.
    apply in_or_app. by left.
Qed.

Lemma dict_of_zip_keys {V} (keys : list string) (values : list V) :
  List.NoDup keys → length values = length keys →
  dict_keys (dict_of_zip keys values) = keys.
Proof.
  intros Hnd Hlen. unfold dict_of_zip. rewrite dict_update_fresh.
  - cbn [app]. unfold dict_keys. rewrite DataFacts.map_fst_combine, Hlen.
    apply firstn_all.
  - cbn [app dict_keys map]. unfold dict_keys. rewrite DataFacts.map_fst_combine, Hlen.
    by rewrite firstn_all.
Qed.

(** X9: when the technique has at least one parameter key, no key twice,
    and the settings block has at least as many lines as keys, every
    mapping [process_header] returns has exactly the technique's keys, in
    their order; and the settings carry the technique name returned by
    [technique_params] and the header text, whole. *)
Theorem process_header_mapping_keys (lines : list string)
    (timezone locale s1 s2 : string) (tk : string * list string)
    (settings : dict pyobj) (params : list (dict pyobj)) (loops : pyobj) :
  process_header lines timezone locale = Ret (settings, params, loops) →
  list_item (header_sections lines) 1 = Ret s1 →
  list_item (header_sections lines) 2 = Ret s2 →
  technique_params (strip s1) (split s2 nl) = Ret tk →
  List.NoDup (snd tk) →
  0 < len (snd tk) <= len (split s2 nl) →
  Forall (fun m => dict_keys m = snd tk) params ∧
  dict_get settings "technique" = Some (PStr (fst tk)) ∧
  dict_get settings "raw" = Some (PStr (join nl lines)).
Proof.
  intros H Hs1 Hs2 Htk Hnd Hlen. unfold process_header in H.
  rewrite (bind_ret_l _ _ _ Hs1) in H.
  apply bind_ret in H as (? & _ & H).
  apply bind_ret in H as (? & _ & H).
  rewrite (bind_ret_l _ _ _ Hs2), (bind_ret_l _ _ _ Htk) in H.
  apply bind_ret in H as (maps & Hmaps & H).
  apply bind_ret in H as (uts & _ & H).
  apply bind_ret in H as (lp & _ & [= <- <- <-]).
  split; [|done].
  apply HeaderFacts.sequence_params_spec in Hmaps
    as (p0 & values & _ & -> & _ & Hrows).
  apply Forall_forall. intros m (row & -> & Hin)%list_elem_of_fmap.
  apply list_elem_of_lookup_1 in Hin as (i & Hi).
  apply dict_of_zip_keys; [done|].
  rewrite <- (Forall2_length _ _ _ (Hrows i row Hi)).
  unfold slice_from, slice_bound, len in *.
  destruct (Z.ltb_spec (- Z.of_nat (length (snd tk))) 0); [|lia].
  rewrite length_skipn. lia.
Qed.

(** *** What [extract] asks of a file *)

Lemma declared_count_raise (lines : list string) (e : exn) :
  declared_count lines = Raise e →
  exn_cls e = IndexError ∨ exn_cls e = ValueError.
Proof.
  unfold declared_count.
  destruct (list_item lines 0) as [l0|e0] eqn:H0; cbn;
    [|intros [= <-]; left; by eapply ExtractFacts.list_item_raise].
  destruct (list_item (split_ws l0) (-1)) as [w|e1] eqn:H1; cbn;
    [|intros [= <-]; left; by eapply ExtractFacts.list_item_raise].
  unfold int_of_str, raise.
  destruct (match int_rstrip (int_lstrip w) with
            | String "-" r => Z.opp <$> digits_go r 0 false
            | String "+" r => digits_go r 0 false
            | _ => digits_go (int_rstrip (int_lstrip w)) 0 false
            end); [done|].
  intros [= <-]. by right.
Qed.

(** X10: [extract] raises the [AssertionError] "invalid file magic" for a
    file that does not start with the line ["EC-Lab ASCII FILE"].  For a
    file that does, an exception of reading the count of header lines from
    the next line is an [IndexError] or a [ValueError], and [extract]
    raises it.  So [extract] returns only for a file with the magic line
    and a count that can be read. *)
Theorem extract_file_start (contents locale timezone : string) :
  (String.substring 0 (String.length file_magic) contents ≠ file_magic →
   extract contents locale timezone = raise AssertionError "invalid file magic") ∧
  (String.substring 0 (String.length file_magic) contents = file_magic →
   ∀ e, declared_count (body_lines contents) = Raise e →
        extract contents locale timezone = Raise e ∧
        (exn_cls e = IndexError ∨ exn_cls e = ValueError)) ∧
  (∀ ds, extract contents locale timezone = Ret ds →
         String.substring 0 (String.length file_magic) contents = file_magic ∧
         ∃ nb, declared_count (body_lines contents) = Ret nb).
Proof.
  split; [|split].
  - intros Hmagic%String.eqb_neq. unfold extract. by rewrite Hmagic.
  - intros Hmagic e He. split; [|by eapply declared_count_raise].
    unfold extract. rewrite Hmagic, String.eqb_refl.
    change (py_assert true "invalid file magic") with (Ret tt).
    rewrite (bind_ret_l (Ret tt) _ tt eq_refl). by rewrite He.
  - intros ds. unfold extract.
    intros (_ & Hmagic%py_assert_ret%String.eqb_eq & H)%bind_ret.
    apply bind_ret in H as (nb & Hnb & _). split; [done|by exists nb].
Qed.

End More.

Lemma column_table_order_witness :
  Forall2 (fun n c => ∃ u, dict_get column_units n = Some (c, u))
          ["Ns"; "time/s"; "Cp/" ++ micro ++ "F"; "Ewe/V"]
          ["Ns"; "time"; "Cp"; "Ewe"] ∧
  length ["Ns"; "time"; "Cp"; "Ewe"]
    = length ["Ns"; "time/s"; "Cp/" ++ micro ++ "F"; "Ewe/V"] ∧
  ∀ c, dict_mem [("time", "s"); ("Cp", "µF"); ("Ewe", "V")] c = true ↔
       ∃ n u, In n ["Ns"; "time/s"; "Cp/" ++ micro ++ "F"; "Ewe/V"] ∧
              dict_get column_units n = Some (c, Some u).
Proof.
  apply (column_table_order ["Ns"; "time/s"; "Cp/" ++ micro ++ "F"; "Ewe/V"]).
  vm_compute. reflexivity.
Defined.

Lemma process_data_unknown_column_witness :
  process_data [EmptyString; "time/s" ++ tab ++ "Temperature/C" ++ tab ++ "Ewe/V" ++ tab;
                "0.5" ++ tab ++ "25.0" ++ tab ++ "1.0"]
               [PFloat 20] [PStr "Auto"] [PNone] "en_US"
  = raise KeyError "Temperature/C".
Proof.
  apply (process_data_unknown_column _ _ _ _ _
           ("time/s" ++ tab ++ "Temperature/C" ++ tab ++ "Ewe/V" ++ tab)
           ["time/s"] ["Ewe/V"] "Temperature/C").
  - reflexivity.
  - vm_compute. reflexivity.
  - repeat constructor.
  - vm_compute. reflexivity.
Defined.

Lemma row_devs_sigma_witness :
  ∃ devs,
    row_devs [("time", "s"); ("Ewe", "V")]
             [("Ns", PInt 0); ("time", PFloat 0.5); ("Ewe", PFloat 1.25)]
             (PFloat 10) (PFloat 0.1) = Ret devs ∧
    (∀ col, dict_mem devs col = true ↔
            dict_mem [("Ns", PInt 0); ("time", PFloat 0.5); ("Ewe", PFloat 1.25)] col
              = true ∧
            dict_mem [("time", "s"); ("Ewe", "V")] col = true) ∧
    (∀ col v, In (col, v) [("Ns", PInt 0); ("time", PFloat 0.5); ("Ewe", PFloat 1.25)] →
              dict_mem [("time", "s"); ("Ewe", "V")] col = true → ∃ f, v = PFloat f) ∧
    (∀ col s, dict_get devs col = Some s → ∃ f, s = PFloat f).
Proof.
  eexists. split; [vm_compute; reflexivity|].
  apply (row_devs_sigma _ _ (PFloat 10) (PFloat 0.1)). vm_compute. reflexivity.
Defined.

Lemma row_vals_columns_witness :
  ∃ vals,
    row_vals [("time", "s"); ("Ewe", "V")] "en_US" ["Ns"; "time"; "Ewe"] ["0"; "0.5"]
      = Ret vals ∧
    (∀ k, In k (dict_keys vals) ↔ In k (firstn (length ["0"; "0.5"]) ["Ns"; "time"; "Ewe"])) ∧
    (length vals ≤ Nat.min (length ["Ns"; "time"; "Ewe"]) (length ["0"; "0.5"]))%nat.
Proof.
  eexists. split; [vm_compute; reflexivity|].
  apply (row_vals_columns [("time", "s"); ("Ewe", "V")] "en_US").
  vm_compute. reflexivity.
Defined.

(** A file without header: one range, and a line with [Ns] equal to 1. *)
Lemma process_row_Ns_out_of_range_witness :
  process_row [PFloat 20] [PStr "Auto"] [PNone] "en_US" ["Ns"; "time"]
              {| acc_units := [("time", "s")]; allvals := []; allmeta := [] |}
              (0, "1" ++ tab ++ "0.5")
  = raise IndexError "list index out of range".
Proof.
  apply (process_row_Ns_out_of_range _ _ _ _ _ _ _ _
           [("Ns", PInt 1); ("time", PFloat 0.5)] 1).
  - vm_compute. reflexivity.
  - reflexivity.
  - right. vm_compute. discriminate.
Defined.

Lemma with_header_ranges_witness :
  ∃ hi,
    with_header Sample.header_with_settings "UTC" "en_US" = Ret hi ∧
    hi_fulldate hi = true ∧
    (∃ uts, hi_start_time hi = PFloat uts ∧
            dict_get (hi_settings hi) "posix_timestamp" = Some (PFloat uts)) ∧
    length (hi_Eranges hi) = length (hi_params hi) ∧
    Forall2 (fun el e =>
               py_sub (default (PFloat infinity) (dict_get el "E_range_max"))
                      (default (PFloat neg_infinity) (dict_get el "E_range_min"))
               = Ret e) (hi_params hi) (hi_Eranges hi) ∧
    (∀ (i : nat) el, hi_params hi !! i = Some el →
       dict_get el "E_range_max" = None → dict_get el "E_range_min" = None →
       hi_Eranges hi !! i = Some (PFloat infinity)) ∧
    hi_Iranges hi = map (fun el => default (PStr "Auto") (dict_get el "I_range"))
                        (hi_params hi) ∧
    hi_ctrls hi = map (fun el => match dict_get el "set_I/C" with
                                 | Some v => v
                                 | None => default PNone (dict_get el "apply_I/C")
                                 end) (hi_params hi).
Proof.
  eexists. split; [vm_compute; reflexivity|].
  apply (with_header_ranges Sample.header_with_settings "UTC" "en_US").
  vm_compute. reflexivity.
Defined.

Import MptSamples.

Lemma loops_section_shape_witness :
  loops_section loop_sections
    = Ret (PDict [("n_loops", PInt 2); ("indexes", PList [PInt 0; PInt 6])]) ∧
  ((PDict [("n_loops", PInt 2); ("indexes", PList [PInt 0; PInt 6])] = PNone ∧
    (len loop_sections < 4 ∨
     ∃ last, list_item loop_sections (-1) = Ret last ∧
             startswith last "Number of loops : " = false)) ∨
   (∃ last n indexes,
      4 <= len loop_sections ∧ list_item loop_sections (-1) = Ret last ∧
      startswith last "Number of loops : " = true ∧
      PDict [("n_loops", PInt 2); ("indexes", PList [PInt 0; PInt 6])]
        = PDict [("n_loops", PInt n); ("indexes", PList (map PInt indexes))] ∧
      (∃ l0 n_str, list_item (split last nl) 0 = Ret l0 ∧
                   list_item (split l0 ":") (-1) = Ret n_str ∧
                   int_of_str n_str = Ret n) ∧
      len indexes = Z.max 0 n ∧
      ∀ (i : nat) idx, indexes !! i = Some idx →
        ∃ ln h w, list_item (split last nl) (Z.of_nat i + 1) = Ret ln ∧
                  list_item (split ln "to") 0 = Ret h ∧
                  list_item (split_ws h) (-1) = Ret w ∧
                  int_of_str w = Ret idx)).
Proof.
  split; [vm_compute; reflexivity|].
  apply (loops_section_shape loop_sections). vm_compute. reflexivity.
Defined.

Lemma process_header_no_acquisition_witness :
  process_header header_no_acquisition "UTC" "en_US"
    = raise TypeError "'NoneType' object is not subscriptable".
Proof.
  set (s2 := join nl (skipn 4 header_no_acquisition)).
  set (keys := ["Ns"; "set_I/C"; "E_range_min"; "E_range_max"; "I_range"]).
  assert (∃ params,
    sequence_params (slice_from (split s2 nl) (- len keys)) keys "en_US"
      = Ret params) as [params Hparams]
    by (eexists; vm_compute; reflexivity).
  apply (process_header_no_acquisition header_no_acquisition "UTC" "en_US"
           "Constant Current" s2 ("CC", keys) params);
    [vm_compute; reflexivity | vm_compute; reflexivity
    | vm_compute; intros H; discriminate H | vm_compute; reflexivity
    | vm_compute; reflexivity | exact Hparams | vm_compute; reflexivity].
Defined.

Lemma process_header_mapping_keys_witness :
  ∃ settings params loops,
    process_header Sample.header_with_settings "UTC" "en_US"
      = Ret (settings, params, loops) ∧
    Forall (fun m => dict_keys m
                     = ["Ns"; "set_I/C"; "E_range_min"; "E_range_max"; "I_range"])
           params ∧
    dict_get settings "technique" = Some (PStr "CC") ∧
    dict_get settings "raw" = Some (PStr (join nl Sample.header_with_settings)).
Proof.
  do 3 eexists. split; [vm_compute; reflexivity|].
  eapply (process_header_mapping_keys Sample.header_with_settings "UTC" "en_US"
            "Constant Current"
            (join nl (skipn 4 Sample.header_with_settings))
            ("CC", ["Ns"; "set_I/C"; "E_range_min"; "E_range_max"; "I_range"])).
  - vm_compute. reflexivity.
  - vm_compute. reflexivity.
  - vm_compute. reflexivity.
  - vm_compute. reflexivity.
  - cbn [snd]. repeat constructor; cbn; intuition discriminate.
  - vm_compute. split; [reflexivity|intros H; discriminate H].
Defined.

Lemma extract_file_start_witness :
  extract "EC-Lab BINARY FILE" "en_US" "UTC"
    = raise AssertionError "invalid file magic".
Proof.
  apply (proj1 (extract_file_start "EC-Lab BINARY FILE" "en_US" "UTC")).
  vm_compute. intros H. discriminate H.
Defined.

End MptMore.

(** ** Further properties of the zip extractor *)

Module FusionMore.
Import Py Mpt Fusion FusionTerms PyFacts FusionFacts.
Import Stdlib.Sorting.Sorted.
Local Open Scope list_scope.

(** *** The order of the members *)

Lemma name_le_trans (x y z : string) : name_le x y → name_le y z → name_le x z.
Proof.
  unfold name_le, String.leb. intros Hxy Hyz.
  destruct (String.compare x y) eqn:Exy; [|clear Hxy|done].
  - apply String.compare_eq_iff in Exy as ->. exact Hyz.
  - destruct (String.compare y z) eqn:Eyz; [| |done].
    + apply String.compare_eq_iff in Eyz as <-. by rewrite Exy.
    + apply OrderedTypeEx.String_as_OT.cmp_lt in Exy, Eyz.
      pose proof (OrderedTypeEx.String_as_OT.lt_trans _ _ _ Exy Eyz) as Hxz.
      apply OrderedTypeEx.String_as_OT.cmp_lt in Hxz.
      change OrderedTypeEx.String_as_OT.cmp with String.compare in Hxz.
      by rewrite Hxz.
Qed.

Lemma insert_sorted_perm (x : string) (l : list string) :
  insert_sorted x l ≡ₚ x :: l.
Proof.
  induction l as [|y r IH]; cbn; [done|].
  destruct (String.leb x y); [done|]. rewrite IH. apply Permutation_swap.
Qed.

Lemma sorted_perm (l : list string) : sorted l ≡ₚ l.
Proof.
  induction l as [|x l IH]; cbn; [done|].
  by rewrite insert_sorted_perm, IH.
Qed.

Lemma insert_sorted_Sorted (x : string) (l : list string) :
  Sorted name_le l → Sorted name_le (insert_sorted x l).
Proof.
  induction l as [|y r IH]; cbn; intros Hs; [by repeat constructor|].
  destruct (String.leb x y) eqn:Hxy;
    [constructor; [exact Hs|constructor; exact Hxy]|].
  apply Sorted_inv in Hs as [Hr Hy].
  constructor; [by apply IH|].
  assert (Hyx : name_le y x).
  { destruct (String.leb_total x y) as [H|H]; [congruence|done]. }
  destruct r as [|z r]; cbn; [by constructor|].
  destruct (String.leb x z); constructor; [done|].
  by apply HdRel_inv in Hy.
Qed.

Lemma sorted_Sorted (l : list string) : Sorted name_le (sorted l).
Proof.
  induction l as [|x l IH]; cbn; [constructor|]. by apply insert_sorted_Sorted.
Qed.

Lemma sorted_permutation (l1 l2 : list string) :
  l1 ≡ₚ l2 → sorted l1 = sorted l2.
Proof.
  intros Hp.
  assert (Htrans : Transitive name_le) by (intros x y z; apply name_le_trans).
  assert (Hanti : AntiSymm eq name_le) by (intros x y; apply String.leb_antisym).
  apply (sorting.Sorted_unique name_le).
  - apply sorted_Sorted.
  - apply sorted_Sorted.
  - by rewrite !sorted_perm.
Qed.

Lemma filter_permutation {A} (f : A → bool) (l1 l2 : list A) :
  l1 ≡ₚ l2 → List.filter f l1 ≡ₚ List.filter f l2.
Proof.
  induction 1 as [|x l l' _ IH|x y l|l l' l'' _ IH1 _ IH2]; cbn.
  - done.
  - destruct (f x); [by constructor|done].
  - destruct (f x), (f y); try done. apply Permutation_swap.
  - by etrans.
Qed.

Section More.
Context {env : FusionEnv}.

(** X11: the result of [extract] does not depend on the order in which
    [os.listdir] gives the names: two listings with the same names give
    the same store and the same object, or the same exception. *)
Theorem extract_listing_order (l1 l2 : list string) (timezone encoding : string) :
  l1 ≡ₚ l2 →
  extract l1 timezone encoding = extract l2 timezone encoding.
Proof.
  intros Hp. unfold extract, member_trees.
  by rewrite (sorted_permutation _ _ (filter_permutation _ _ _ Hp)).
Qed.

(** *** The object that [extract] returns *)

Lemma merge_datatrees_returns_dt1 (fuel : nat) (h : heap) (dt1 dt2 : loc)
    (h' : heap) (r : loc) :
  merge_datatrees fuel h dt1 dt2 = Ret (h', r) → r = dt1.
Proof.
  destruct fuel as [|fuel]; [done|]. cbn [merge_datatrees].
  intros (? & _ & H)%bind_ret.
  apply bind_ret in H as (? & _ & H).
  apply bind_ret in H as (? & _ & H).
  apply bind_ret in H as (? & _ & H). injection H as _ Hr. by subst r.
Qed.

Lemma reduce_merge_first (h : heap) (dt : loc) (rest : list loc)
    (h' : heap) (r : loc) :
  reduce_merge h (dt :: rest) = Ret (h', r) → r = dt.
Proof.
  cbn [reduce_merge].
  change r with (snd (h', r)).
  apply (foldM_invariant (fun st : heap * loc => snd st = dt)); [done|].
  intros [h1 l1] l2 [h2 l3] _ Hl1 Hm. cbn [fst snd] in *. subst l1.
  by eapply merge_datatrees_returns_dt1.
Qed.

Lemma member_trees_fold (timezone encoding : string) (names : list string) :
  ∀ h0 ls0 h ls,
    foldM (fun (st : heap * list loc) ffn =>
             fdt ← extract_json ffn timezone encoding;
             let hl := alloc (fst st) fdt in
             Ret (fst hl, (snd st ++ [snd hl])%list))
          (h0, ls0) names = Ret (h, ls) →
    ∃ new, ls = ls0 ++ new ∧ length new = length names ∧
           ∀ f, names !! 0%nat = Some f →
                ∃ t, extract_json f timezone encoding = Ret t ∧
                     new !! 0%nat = Some (snd (alloc h0 t)).
Proof.
  induction names as [|f names IH]; intros h0 ls0 h ls; cbn [foldM].
  - intros [= <- <-]. exists []. by rewrite app_nil_r.
  - intros (st & Hstep & Hrest)%bind_ret.
    apply bind_ret in Hstep as (t & Ht & [= <-]). cbn [fst snd] in Hrest.
    apply IH in Hrest as (new & -> & Hlen & _).
    exists (snd (alloc h0 t) :: new). rewrite <- app_assoc. cbn.
    split; [done|]. split; [by rewrite Hlen|].
    intros ? [= <-]. by exists t.
Qed.

(** X12: what [extract] returns is the object built for the member whose
    name comes first: that name ends in ["fusion-data"], no other such name
    of the listing is smaller, and the object is the root of the tree of
    that member, the first one stored. *)
Theorem extract_first_member (listing : list string) (timezone encoding : string)
    (h : heap) (l : loc) :
  extract listing timezone encoding = Ret (h, l) →
  ∃ f t,
    f ∈ listing ∧ endswith f "fusion-data" = true ∧
    (∀ g, g ∈ listing → endswith g "fusion-data" = true → name_le f g) ∧
    extract_json f timezone encoding = Ret t ∧
    l = snd (alloc [] t).
Proof.
  unfold extract. intros ([h0 ls] & Hm & Hr)%bind_ret. cbn [fst snd] in Hr.
  unfold member_trees in Hm.
  apply member_trees_fold in Hm as (new & -> & Hlen & Hfirst). cbn [app] in Hr.
  set (names := List.filter (fun ffn => endswith ffn "fusion-data") listing) in *.
  destruct (sorted names) as [|f rest] eqn:Hs.
  { destruct new; [done|discriminate Hlen]. }
  destruct (Hfirst f eq_refl) as (t & Ht & Hnew).
  destruct new as [|l0 new]; [done|]. injection Hnew as ->.
  apply reduce_merge_first in Hr as ->.
  assert (Hin : ∀ g, g ∈ f :: rest ↔ g ∈ listing ∧ endswith g "fusion-data" = true).
  { intros g. rewrite <- Hs, sorted_perm. unfold names.
    rewrite !list_elem_of_In, filter_In. done. }
  exists f, t. destruct (proj1 (Hin f)) as [Hf1 Hf2]; [by left|].
  repeat (split; [done|]). split; [|done].
  intros g Hg1 Hg2.
  assert (Hg : g ∈ f :: rest) by (by apply Hin).
  pose proof (sorted_Sorted names) as Hsorted. rewrite Hs in Hsorted.
  apply Sorted_StronglySorted in Hsorted; [|intros x y z; apply name_le_trans].
  apply StronglySorted_inv in Hsorted as [_ Hall].
  apply elem_of_cons in Hg as [->|Hg].
  - unfold name_le. destruct (String.leb_total f f); done.
  - rewrite Forall_forall in Hall. by apply Hall.
Qed.

(** X13: an archive with one member gives the tree of that member as
    [extract_json] built it: nothing is merged. *)
Theorem extract_single_member (listing : list string) (timezone encoding f : string)
    (t : tree) :
  List.filter (fun ffn => endswith ffn "fusion-data") listing = [f] →
  extract_json f timezone encoding = Ret t →
  extract listing timezone encoding = Ret (alloc [] t).
Proof.
  intros Hf Ht. unfold extract, member_trees. rewrite Hf. cbn.
  rewrite Ht. cbn. by destruct (alloc [] t).
Qed.

(** *** The attributes after a merge *)

Lemma dict_get_update {V} (e : dict V) :
  ∀ d k, NoDup (dict_keys e) →
         dict_get (dict_update d e) k
         = match dict_get e k with Some v => Some v | None => dict_get d k end.
Proof.
  unfold dict_update.
  induction e as [|[k0 v0] e IH]; intros d k Hnd; cbn; [done|].
  cbn in Hnd. apply NoDup_cons in Hnd as [Hk0 Hnd].
  rewrite IH by done. rewrite dict_get_set.
  destruct (String.eqb_spec k0 k) as [->|Hne]; [|done].
  by rewrite (dict_get_not_key e k Hk0).
Qed.

Lemma dict_keys_update {V} (e : dict V) :
  ∀ d, NoDup (dict_keys e) →
       dict_keys (dict_update d e)
       = dict_keys d ++ List.filter (fun k => negb (dict_mem d k)) (dict_keys e).
Proof.
  unfold dict_update.
  induction e as [|[k0 v0] e IH]; intros d Hnd; cbn [fold_left fst snd];
    [cbn; by rewrite app_nil_r|].
  cbn in Hnd. apply NoDup_cons in Hnd as [Hk0 Hnd].
  rewrite IH by done. rewrite dict_keys_set_order.
  change (dict_keys ((k0, v0) :: e)) with (k0 :: dict_keys e).
  cbn [List.filter].
  assert (Hfilter : ∀ d' : dict V,
            (∀ k, k ≠ k0 → dict_mem d' k = dict_mem d k) →
            List.filter (fun k => negb (dict_mem d' k)) (dict_keys e)
            = List.filter (fun k => negb (dict_mem d k)) (dict_keys e)).
  { intros d' Hd'. apply filter_ext_in. intros k Hk. rewrite Hd'; [done|].
    intros ->. apply Hk0. by apply list_elem_of_In. }
  rewrite Hfilter.
  - destruct (dict_mem d k0); cbn; [done|]. by rewrite <- app_assoc.
  - intros k Hk. unfold dict_mem. rewrite dict_get_set.
    destruct (String.eqb_spec k0 k); [by subst|done].
Qed.

(** X14: when [merge_datatrees] returns, the attributes of [dt1] are
    those of the dataset [xr.concat] built, updated by those of [dt2]: a
    name that [dt2] has carries the value of [dt2], every other name keeps
    its value, the names of the dataset keep their places and the new
    names of [dt2] follow in their order.  When the dataset carries the
    attributes of [dt2], as [combine_attrs="identical"] asks for, the
    update changes nothing. *)
Theorem merge_attrs_override (depth fuel depth2 : nat) (h : heap) (l1 l2 : loc)
    (fp1 fp2 : list loc) (n1 n2 : node) (h' : heap) (r : loc) :
  (depth ≤ fuel)%nat →
  owns depth h l1 fp1 → owns depth2 h l2 fp2 → NoDup (fp1 ++ fp2) →
  h !! l1 = Some n1 → h !! l2 = Some n2 →
  NoDup (dict_keys (attrs n2)) →
  merge_datatrees fuel h l1 l2 = Ret (h', r) →
  ∃ d n1', xr_concat (nd_ds n1) (nd_ds n2) = Ret d ∧ h' !! r = Some n1' ∧
    (∀ k, dict_get (attrs n1') k
          = match dict_get (attrs n2) k with
            | Some v => Some v
            | None => dict_get (ds_attrs d) k
            end) ∧
    dict_keys (attrs n1')
    = dict_keys (ds_attrs d)
      ++ List.filter (fun k => negb (dict_mem (ds_attrs d) k))
                     (dict_keys (attrs n2)) ∧
    ((∀ k v, In (k, v) (attrs n2) → dict_get (ds_attrs d) k = Some v) →
     attrs n1' = ds_attrs d).
Proof.
  intros Hfuel Hown1 Hown2 Hnd Hl1 Hl2 Hattrs Hmerge.
  destruct (merge_total depth fuel depth2 h l1 l2 fp1 fp2 Hfuel Hown1 Hown2 Hnd)
    as [(h'' & Hm & _ & _ & _ & Hnode)|(e & Hm & _)];
    rewrite Hm in Hmerge; [|done].
  injection Hmerge as <- <-.
  destruct Hnode as (m1 & m2 & d & n1' & Hm1 & Hm2 & Hd & Hn1' & _ & Hds & _).
  rewrite Hl1 in Hm1. injection Hm1 as <-.
  rewrite Hl2 in Hm2. injection Hm2 as <-.
  exists d, n1'. split; [done|]. split; [done|].
  assert (Ha : attrs n1' = dict_update (ds_attrs d) (attrs n2))
    by (unfold attrs at 1; by rewrite Hds).
  rewrite Ha. split; [|split].
  - intros k. by apply dict_get_update.
  - by apply dict_keys_update.
  - intros Hsame. by apply dict_update_same.
Qed.

(** *** What [merge_datatrees] can raise *)


End More.

Import SampleFusion.

Lemma extract_listing_order_witness :
  extract ["b.fusion-data"; "notes.txt"; "a.fusion-data"] "UTC" "utf-8"
  = extract ["a.fusion-data"; "b.fusion-data"; "notes.txt"] "UTC" "utf-8".
Proof.
  apply (extract_listing_order ["b.fusion-data"; "notes.txt"; "a.fusion-data"]
           ["a.fusion-data"; "b.fusion-data"; "notes.txt"] "UTC" "utf-8").
  exact (Permutation_app_comm ["b.fusion-data"; "notes.txt"] ["a.fusion-data"]).
Defined.

Lemma extract_first_member_witness :
  ∃ h l,
    extract ["c.fusion-data"; "notes.txt"; "b.fusion-data"] "UTC" "utf-8"
      = Ret (h, l) ∧
    ∃ f t,
      f ∈ ["c.fusion-data"; "notes.txt"; "b.fusion-data"] ∧
      endswith f "fusion-data" = true ∧
      (∀ g, g ∈ ["c.fusion-data"; "notes.txt"; "b.fusion-data"] →
            endswith g "fusion-data" = true → name_le f g) ∧
      extract_json f "UTC" "utf-8" = Ret t ∧
      l = snd (alloc [] t).
Proof.
  eexists _, _. split; [vm_compute; reflexivity|].
  eapply (extract_first_member ["c.fusion-data"; "notes.txt"; "b.fusion-data"]
            "UTC" "utf-8").
  vm_compute. reflexivity.
Defined.

Lemma extract_single_member_witness :
  extract ["readme.txt"; "a.fusion-data"] "UTC" "utf-8" = Ret (alloc [] tree_a).
Proof.
  apply (extract_single_member ["readme.txt"; "a.fusion-data"] "UTC" "utf-8"
           "a.fusion-data" tree_a); reflexivity.
Defined.

(** The two sample trees, whose data carry the same attributes. *)
Lemma merge_attrs_override_witness :
  ∃ h',
    merge_datatrees 2 two_trees 1 4 = Ret (h', 1%nat) ∧
    ∃ d n1', xr_concat ds_a ds_b = Ret d ∧ h' !! 1%nat = Some n1' ∧
      (∀ k, dict_get (attrs n1') k
            = match dict_get root_attrs k with
              | Some v => Some v
              | None => dict_get (ds_attrs d) k
              end) ∧
      dict_keys (attrs n1')
      = dict_keys (ds_attrs d)
        ++ List.filter (fun k => negb (dict_mem (ds_attrs d) k))
                       (dict_keys root_attrs) ∧
      ((∀ k v, In (k, v) root_attrs → dict_get (ds_attrs d) k = Some v) →
       attrs n1' = ds_attrs d).
Proof.
  eexists. split; [vm_compute; reflexivity|].
  destruct two_trees_owns as (Hown1 & Hown2 & Hnd).
  apply (merge_attrs_override 2 2 2 two_trees 1 4 [1; 0]%nat [4; 2; 3]%nat
           (mk_node None ds_a [("TCD", 0%nat)])
           (mk_node None ds_b [("TCD", 2%nat); ("FID", 3%nat)]));
    [lia|exact Hown1|exact Hown2|exact Hnd|reflexivity|reflexivity
    |apply NoDup_singleton|vm_compute; reflexivity].
Defined.


End FusionMore.

(** ** Properties of the schema update *)

Module UtilsFacts.
Import Py Utils PyFacts FusionFacts.
Import FusionMore.
Local Open Scope list_scope.

Lemma res_bind_ok {A B} (m : res A) (f : A → res B) (b : B) :
  m ≫= f = Ok b ↔ ∃ a, m = Ok a ∧ f a = Ok b.
Proof.
  destruct m as [a|e]; cbn.
  - split; [by exists a|]. by intros (? & [= <-] & ?).
  - split; [done|]. by intros (? & ? & ?).
Qed.

Lemma traverse_ok {A B} (f : A → res B) (l : list A) (r : list B) :
  traverse f l = Ok r ↔ Forall2 (fun x y => f x = Ok y) l r.
Proof.
  revert r. induction l as [|x l IH]; intros r; cbn.
  - split; [intros [= <-]; constructor|]. by intros ->%Forall2_nil_inv_l.
  - rewrite res_bind_ok. split.
    + intros (y & Hy & (ys & Hys & [= <-])%res_bind_ok).
      constructor; [done|]. by apply IH.
    + intros (y & ys & Hy & Hys & ->)%Forall2_cons_inv_l.
      exists y. split; [done|]. apply res_bind_ok. exists ys.
      split; [by apply IH|done].
Qed.

Lemma subscript_ok (o : pyobj) (key : string) (v : pyobj) :
  subscript o key = Ok v ↔ ∃ d, o = PDict d ∧ dict_get d key = Some v.
Proof.
  unfold subscript. destruct o as [| | | | |l|d];
    try (split; [done|by intros (? & [=] & _)]).
  destruct (dict_get d key) as [w|] eqn:Hw.
  - split; [intros [= <-]; by exists d|]. intros (? & [= <-] & H). congruence.
  - split; [done|]. intros (? & [= <-] & H). congruence.
Qed.

Lemma rename_paths_ok (import : pyobj) :
  (∃ import', rename_paths import = Ok import') ↔ import_ok import.
Proof.
  unfold rename_paths, import_ok, contains.
  destruct import as [| | | |s|l|d]; cbn;
    try (split; [by intros [? ?]|done]).
  - destruct (String.index 0 "paths" s); cbn.
    + split; [by intros [? ?]|done].
    + split; [done|]. by exists (PStr s).
  - destruct (existsb _ l); cbn.
    + split; [by intros [? ?]|done].
    + split; [done|]. by exists (PList l).
  - split; [done|]. intros _. unfold dict_mem, pop.
    destruct (dict_get d "paths"); cbn; eauto.
Qed.

Lemma rename_paths_dict (d : dict pyobj) :
  rename_paths (PDict d)
  = Ok (PDict match dict_get d "paths" with
              | Some v => dict_set (dict_del d "paths") "files" v
              | None => d
              end).
Proof.
  unfold rename_paths, contains, dict_mem, pop. cbn.
  by destruct (dict_get d "paths").
Qed.

(** What one turn of the loop needs, and what it gives. *)
Lemma convert_step_ok (oldstep newstep oldstep' : pyobj) :
  convert_step oldstep = Ok (newstep, oldstep') ↔
  ∃ d datagram import import' parameters,
    oldstep = PDict d ∧
    dict_get d "datagram" = Some datagram ∧
    dict_get d "import" = Some import ∧
    rename_paths import = Ok import' ∧
    dict_get d "parameters" = Some (PDict parameters) ∧
    newstep = PDict (new_step (if eq_str datagram "gctrace"
                               then PStr "chromtrace" else datagram)
                              import' (default PNone (dict_get d "export"))
                              (new_parameters parameters)) ∧
    oldstep' = PDict (with_import d import').
Proof.
  unfold convert_step. split.
  - intros (datagram & (d & -> & Hd)%subscript_ok & H)%res_bind_ok.
    apply res_bind_ok in H as (import & (? & [= <-] & Hi)%subscript_ok & H).
    apply res_bind_ok in H as (import' & Hr & H).
    apply res_bind_ok in H as (p & (? & [= <-] & Hp)%subscript_ok & H).
    apply res_bind_ok in H as (parameters & Hitems & [= <- <-]).
    destruct p; try done. injection Hitems as ->.
    by exists d, datagram, import, import', parameters.
  - intros (d & datagram & import & import' & parameters
            & -> & Hd & Hi & Hr & Hp & -> & ->).
    cbn. rewrite Hd. cbn. rewrite Hi. cbn. rewrite Hr. cbn. by rewrite Hp.
Qed.

Section SchemaFacts.
Variable yadg_metadata : pyobj.

(** X16: [schema_3to4] returns exactly when every step can be converted:
    it is a mapping with a [datagram], an [import] and a mapping of
    [parameters], and the [import] is a mapping, or a string or a list
    without ["paths"] in it.  A step without [parameters] makes the whole
    update fail, although a new step may have none. *)
Theorem schema_3to4_returns (oldschema : list pyobj) :
  (∃ r, schema_3to4 yadg_metadata oldschema = Ok r) ↔
  Forall convertible oldschema.
Proof.
  unfold schema_3to4. split.
  - intros (r & (steps & Hsteps%traverse_ok & _)%res_bind_ok).
    induction Hsteps as [|s [ns s'] l r' Hs _ IH]; constructor; [|done].
    apply convert_step_ok in Hs
      as (d & datagram & import & import' & parameters & -> & Hd & Hi & Hr & Hp & _).
    exists d, import, parameters. unfold dict_mem. rewrite Hd.
    repeat (split; [done|]). split; [|done]. apply rename_paths_ok. eauto.
  - intros Hall.
    assert (∃ steps, traverse convert_step oldschema = Ok steps) as [steps Hs].
    { induction Hall as [|s l Hs _ [steps IH]]; [by exists []|].
      destruct Hs as (d & import & parameters & -> & Hd & Hi & Hok & Hp).
      apply rename_paths_ok in Hok as [import' Hr].
      unfold dict_mem in Hd.
      destruct (dict_get d "datagram") as [datagram|] eqn:Hdg; [|done].
      assert (∃ r, convert_step (PDict d) = Ok r) as [r Hc].
      { eexists (_, _). apply convert_step_ok.
        by exists d, datagram, import, import', parameters. }
      exists (r :: steps). cbn [traverse]. by rewrite Hc, IH. }
    rewrite Hs. cbn. eauto.
Qed.

Lemma schema_3to4_ok (oldschema : list pyobj) (new : pyobj) (old' : list pyobj) :
  schema_3to4 yadg_metadata oldschema = Ok (new, old') ↔
  ∃ steps,
    Forall2 (fun s r => convert_step s = Ok r) oldschema steps ∧
    new = PDict [("metadata", new_metadata yadg_metadata);
                 ("steps", PList (map fst steps))] ∧
    old' = map snd steps.
Proof.
  unfold schema_3to4. rewrite res_bind_ok. split.
  - intros (steps & Hs%traverse_ok & [= <- <-]). by exists steps.
  - intros (steps & Hs%traverse_ok & -> & ->). by exists steps.
Qed.

(** X17: the schema that [schema_3to4] returns has the metadata of an
    update to version 4.1 and one new step for each old step, in their
    order.  The parser of a new step is the old [datagram], with
    [chromtrace] for [gctrace], so never [gctrace]; its tag is the old
    [export] unless that is absent or [None]; and its keys are [parser]
    and [input], then [tag] and [parameters] where it has them. *)
Theorem schema_3to4_steps (oldschema : list pyobj) (new : pyobj)
    (old' : list pyobj) :
  schema_3to4 yadg_metadata oldschema = Ok (new, old') →
  ∃ steps,
    new = PDict [("metadata", new_metadata yadg_metadata); ("steps", PList steps)] ∧
    subscript (new_metadata yadg_metadata) "version" = Ok (PStr "4.1") ∧
    length steps = length oldschema ∧ length old' = length oldschema ∧
    ∀ (i : nat) d, oldschema !! i = Some (PDict d) →
      ∃ ns datagram,
        steps !! i = Some (PDict ns) ∧
        dict_get d "datagram" = Some datagram ∧
        dict_get ns "parser"
          = Some (if eq_str datagram "gctrace" then PStr "chromtrace" else datagram) ∧
        dict_get ns "parser" ≠ Some (PStr "gctrace") ∧
        dict_get ns "tag" = match dict_get d "export" with
                            | Some PNone | None => None
                            | Some v => Some v
                            end ∧
        dict_mem ns "input" = true ∧
        dict_keys ns
          = List.filter (dict_mem ns) ["parser"; "input"; "tag"; "parameters"].
Proof.
  intros (steps & Hs & -> & ->)%schema_3to4_ok.
  exists (map fst steps). split; [done|]. split; [done|].
  rewrite !length_map, <- (Forall2_length _ _ _ Hs). do 2 (split; [done|]).
  intros i d Hi.
  destruct (Forall2_lookup_l _ _ _ _ _ Hs Hi) as ([ns s'] & Hr & Hc).
  apply convert_step_ok in Hc
    as (? & datagram & import & import' & parameters
        & [= <-] & Hd & _ & _ & _ & -> & _).
  eexists _, datagram. rewrite list_lookup_fmap, Hr. split; [done|].
  split; [done|].
  set (parser := if eq_str datagram "gctrace" then PStr "chromtrace" else datagram).
  assert (Hparser : parser ≠ PStr "gctrace").
  { unfold parser. destruct (eq_str datagram "gctrace") eqn:He; [done|].
    intros ->. done. }
  clearbody parser. unfold new_step.
  destruct (dict_get d "export") as [export|]; cbn [default];
    [destruct export|]; destruct (new_parameters parameters); cbn;
    (split; [done|]); (split; [congruence|]); done.
Qed.

Lemma dict_get_del_eq {V} (d : dict V) (k : string) :
  NoDup (dict_keys d) → dict_get (dict_del d k) k = None.
Proof.
  induction d as [|[k0 v0] d IH]; cbn; [done|]. intros [Hk0 Hnd]%NoDup_cons.
  destruct (String.eqb_spec k0 k) as [->|Hne].
  - by apply dict_get_not_key.
  - cbn. rewrite (proj2 (String.eqb_neq _ _) Hne). by apply IH.
Qed.

Lemma dict_keys_set_mem {V} (d : dict V) (k : string) (v : V) :
  dict_mem d k = true → dict_keys (dict_set d k v) = dict_keys d.
Proof. intros H. by rewrite dict_keys_set_order, H. Qed.

(** X18: where the [import] of a step is a mapping, [schema_3to4] renames
    its key [paths] to [files] and leaves its other keys alone; an
    [import] without [paths] is not changed.  The [input] of the new step
    is that mapping, and so is the [import] of the old step afterwards:
    the schema handed to [schema_3to4] is rewritten as well. *)
Theorem schema_3to4_import (oldschema : list pyobj) (new : pyobj)
    (old' : list pyobj) (i : nat) (d import : dict pyobj) :
  schema_3to4 yadg_metadata oldschema = Ok (new, old') →
  oldschema !! i = Some (PDict d) →
  dict_get d "import" = Some (PDict import) →
  NoDup (dict_keys import) →
  ∃ steps ns d' import',
    subscript new "steps" = Ok (PList steps) ∧
    steps !! i = Some (PDict ns) ∧
    dict_get ns "input" = Some (PDict import') ∧
    old' !! i = Some (PDict d') ∧
    dict_get d' "import" = Some (PDict import') ∧
    dict_keys d' = dict_keys d ∧
    (∀ k, k ≠ "import" → dict_get d' k = dict_get d k) ∧
    dict_get import' "paths" = None ∧
    (∀ v, dict_get import "paths" = Some v → dict_get import' "files" = Some v) ∧
    (dict_get import "paths" = None → import' = import) ∧
    (∀ k, k ≠ "paths" → k ≠ "files" → dict_get import' k = dict_get import k).
Proof.
  intros (steps & Hs & -> & ->)%schema_3to4_ok Hi Himp Hnd.
  destruct (Forall2_lookup_l _ _ _ _ _ Hs Hi) as ([ns s'] & Hr & Hc).
  apply convert_step_ok in Hc
    as (? & datagram & ? & import' & parameters
        & [= <-] & Hd & Himp' & Hren & _ & -> & ->).
  rewrite Himp in Himp'. injection Himp' as <-.
  rewrite rename_paths_dict in Hren. injection Hren as <-.
  eexists (map fst steps), _, _, _.
  split; [done|]. rewrite !list_lookup_fmap, Hr.
  cbn [fmap option_fmap option_map fst snd].
  split; [done|]. split.
  { unfold new_step.
    destruct (default PNone (dict_get d "export")), (new_parameters parameters); done. }
  split; [done|]. unfold with_import. split; [|split; [|split]].
  - rewrite dict_get_set. done.
  - apply dict_keys_set_mem. unfold dict_mem. by rewrite Himp.
  - intros k Hk. rewrite dict_get_set.
    by rewrite (proj2 (String.eqb_neq "import" k)) by congruence.
  - destruct (dict_get import "paths") as [v|] eqn:Hpaths.
    + split; [|split; [|split]].
      * rewrite dict_get_set. cbn. by apply dict_get_del_eq.
      * intros ? [= <-]. rewrite dict_get_set. done.
      * done.
      * intros k Hk1 Hk2. rewrite dict_get_set.
        rewrite (proj2 (String.eqb_neq "files" k)) by congruence.
        apply dict_get_del_ne. congruence.
    + by repeat split.
Qed.

Lemma new_parameters_fold (old : dict pyobj) :
  ∀ acc, NoDup (dict_keys acc ++ dict_keys old) →
    fold_left (fun parameters (kv : string * pyobj) =>
                 if kept (fst kv) (snd kv)
                 then dict_set parameters (fst kv) (snd kv)
                 else parameters)
              old acc
    = acc ++ List.filter (fun kv => kept (fst kv) (snd kv)) old.
Proof.
  induction old as [|[k v] old IH]; intros acc Hnd; cbn [fold_left List.filter];
    [by rewrite app_nil_r|].
  cbn [fst snd]. unfold dict_keys in Hnd. cbn [map fst] in Hnd.
  pose proof Hnd as Hnd'. apply NoDup_app in Hnd' as (Hacc & Hdis & Hold).
  apply NoDup_cons in Hold as [Hk Hold].
  assert (Hfresh : ¬ In k (dict_keys acc)).
  { intros Hin%list_elem_of_In. apply (Hdis k Hin). by left. }
  destruct (kept k v).
  - rewrite IH.
    + rewrite MptMore.dict_set_fresh by done. by rewrite <- app_assoc.
    + rewrite MptMore.dict_set_fresh by done.
      unfold dict_keys. rewrite map_app, <- app_assoc. exact Hnd.
  - apply IH. apply NoDup_app. split; [done|]. split; [|done].
    intros x Hx Hx'. apply (Hdis x Hx). by right.
Qed.

Lemma dict_get_elem {V} (d : dict V) (k : string) (v : V) :
  NoDup (dict_keys d) → dict_get d k = Some v ↔ (k, v) ∈ d.
Proof.
  induction d as [|[k0 v0] d IH]; cbn.
  - intros _. split; [done|]. by intros ?%elem_of_nil.
  - intros [Hk0 Hnd]%NoDup_cons. rewrite elem_of_cons.
    destruct (String.eqb_spec k0 k) as [->|Hne].
    + split; [intros [= <-]; by left|].
      intros [[= <-]|Hin]; [done|]. destruct Hk0.
      apply list_elem_of_fmap. by exists (k, v).
    + rewrite IH by done. split; [by right|]. intros [[= <- <-]|?]; done.
Qed.

Lemma dict_keys_filter {V} (f : string * V → bool) (d : dict V) :
  NoDup (dict_keys d) → NoDup (dict_keys (List.filter f d)).
Proof.
  induction d as [|kv d IH]; cbn; [done|]. intros [Hk Hnd]%NoDup_cons.
  destruct (f kv); cbn; [|by apply IH].
  apply NoDup_cons. split; [|by apply IH].
  intros (kv' & Hfst & Hin)%list_elem_of_fmap. apply Hk.
  apply list_elem_of_fmap. exists kv'. split; [done|].
  apply list_elem_of_In. apply list_elem_of_In, filter_In in Hin. tauto.
Qed.

(** X19: the parameters of a new step are the old ones without
    [Tcalfile], [MFCcalfile] and [calfile] and without a [method] that is
    [q0refl], in their order; the new step has no [parameters] at all when
    none is left. *)
Theorem schema_3to4_parameters (oldschema : list pyobj) (new : pyobj)
    (old' : list pyobj) (i : nat) (d parameters : dict pyobj) :
  schema_3to4 yadg_metadata oldschema = Ok (new, old') →
  oldschema !! i = Some (PDict d) →
  dict_get d "parameters" = Some (PDict parameters) →
  NoDup (dict_keys parameters) →
  ∃ steps ns left,
    subscript new "steps" = Ok (PList steps) ∧
    steps !! i = Some (PDict ns) ∧
    left = List.filter (fun kv => kept (fst kv) (snd kv)) parameters ∧
    dict_get ns "parameters"
      = match left with [] => None | _ => Some (PDict left) end ∧
    (∀ k, k ∈ ["Tcalfile"; "MFCcalfile"; "calfile"] → dict_get left k = None) ∧
    dict_get left "method" ≠ Some (PStr "q0refl") ∧
    (∀ k v, k ∉ ["Tcalfile"; "MFCcalfile"; "calfile"; "method"] →
            dict_get parameters k = Some v → dict_get left k = Some v).
Proof.
  intros (steps & Hs & -> & ->)%schema_3to4_ok Hi Hpar Hnd.
  destruct (Forall2_lookup_l _ _ _ _ _ Hs Hi) as ([ns s'] & Hr & Hc).
  apply convert_step_ok in Hc
    as (? & datagram & import & import' & ?
        & [= <-] & Hd & _ & _ & Hpar' & -> & _).
  rewrite Hpar in Hpar'. injection Hpar' as <-.
  eexists (map fst steps), _, _.
  split; [done|]. rewrite list_lookup_fmap, Hr. split; [done|]. split; [done|].
  assert (Hnew : new_parameters parameters
                 = List.filter (fun kv => kept (fst kv) (snd kv)) parameters).
  { unfold new_parameters. by rewrite new_parameters_fold. }
  rewrite Hnew. set (left := List.filter _ parameters).
  assert (Hget : ∀ k v, dict_get left k = Some v ↔
                        dict_get parameters k = Some v ∧ kept k v = true).
  { intros k v. unfold left.
    rewrite !dict_get_elem by (done || by apply dict_keys_filter).
    rewrite !list_elem_of_In, filter_In. done. }
  split; [|split; [|split]].
  - unfold new_step.
    destruct (default PNone (dict_get d "export")), left; done.
  - intros k Hk. destruct (dict_get left k) as [v|] eqn:Hv; [|done].
    apply Hget in Hv as [_ Hkept]. exfalso.
    repeat (apply elem_of_cons in Hk as [->|Hk]; [done|]).
    by apply elem_of_nil in Hk.
  - intros [_ Hkept]%Hget. done.
  - intros k v Hk Hv. apply Hget. split; [done|].
    unfold kept. cbn [existsb].
    destruct (String.eqb_spec k "Tcalfile") as [->|_]; [destruct Hk; set_solver|].
    destruct (String.eqb_spec k "MFCcalfile") as [->|_]; [destruct Hk; set_solver|].
    destruct (String.eqb_spec k "calfile") as [->|_]; [destruct Hk; set_solver|].
    destruct (String.eqb_spec k "method") as [->|_]; [destruct Hk; set_solver|].
    done.
Qed.

End SchemaFacts.

Section PresetFacts.
Variable isabs : string → bool.
Variable abspath : string → string.
Variable join_path : string → string → string.
Variable sep : string.

Lemma patch_file_cases (folder filk : string) (newf : list string) (oldf : string) :
  patch_file isabs abspath join_path sep folder filk newf oldf
  = if isabs oldf then Ret newf
    else if startswith oldf ("." ++ sep)%string
         then raise AssertionError
                ("Item '" ++ oldf ++ "' in '" ++ filk ++ "' does start with '."
                 ++ sep ++ "' and therefore should not be patched using '"
                 ++ folder ++ "'.")%string
         else Ret (newf ++ [abspath (join_path folder oldf)]).
Proof.
  unfold patch_file, py_assert. destruct (isabs oldf); [done|].
  by destruct (startswith oldf ("." ++ sep)%string).
Qed.

Lemma patch_files_fold (folder filk : string) (files : list string) :
  ∀ acc,
    Forall (fun f => isabs f = false → startswith f ("." ++ sep)%string = false) files →
    foldM (patch_file isabs abspath join_path sep folder filk) acc files
    = Ret (acc ++ map (fun f => abspath (join_path folder f))
                      (List.filter (fun f => negb (isabs f)) files)).
Proof.
  induction files as [|f files IH]; intros acc Hall; cbn [foldM List.filter map].
  - by rewrite app_nil_r.
  - apply Forall_cons in Hall as [Hf Hall]. rewrite patch_file_cases.
    destruct (isabs f) eqn:Habs; cbn [negb mbind pyres_bind].
    + by apply IH.
    + rewrite (Hf eq_refl). cbn [mbind pyres_bind map].
      rewrite IH by done. by rewrite <- app_assoc.
Qed.

Lemma patch_files_length (folder filk : string) (files : list string) :
  ∀ acc newf,
    foldM (patch_file isabs abspath join_path sep folder filk) acc files = Ret newf →
    length newf
    = (length acc + length (List.filter (fun f => negb (isabs f)) files))%nat.
Proof.
  induction files as [|f files IH]; intros acc newf; cbn [foldM].
  - intros [= <-]. cbn. lia.
  - cbn [List.filter]. rewrite patch_file_cases.
    destruct (isabs f) eqn:Habs; cbn [negb mbind pyres_bind].
    + apply IH.
    + destruct (startswith f ("." ++ sep)%string); cbn [mbind pyres_bind]; [done|].
      intros H%IH. rewrite H, length_app. cbn. lia.
Qed.

Lemma patch_files_raise (folder filk : string) (files : list string) (f : string) :
  f ∈ files → isabs f = false → startswith f ("." ++ sep)%string = true →
  ∀ acc, ∃ e,
    foldM (patch_file isabs abspath join_path sep folder filk) acc files = Raise e ∧
    exn_cls e = AssertionError.
Proof.
  intros Hin Habs Hdot.
  induction files as [|g files IH]; intros acc; [by apply elem_of_nil in Hin|].
  cbn [foldM]. rewrite patch_file_cases. apply elem_of_cons in Hin as [<-|Hin].
  - rewrite Habs, Hdot. cbn. eauto.
  - destruct (isabs g); cbn [mbind pyres_bind]; [by apply IH|].
    destruct (startswith g ("." ++ sep)%string); cbn [mbind pyres_bind];
      [cbn; eauto|by apply IH].
Qed.

(** X20: the list that [schema_from_preset] puts in place of the paths of
    a step holds the relative paths only, each joined to [folder] and made
    absolute, in their order: an absolute path is not patched and is not
    kept either.  A relative path that starts with ["."] and the
    separator stops the update with an [AssertionError]. *)
Theorem patch_files_relative_only (folder filk : string) (files : list string) :
  (Forall (fun f => isabs f = false → startswith f ("." ++ sep)%string = false) files →
   patch_files isabs abspath join_path sep folder filk files
   = Ret (map (fun f => abspath (join_path folder f))
              (List.filter (fun f => negb (isabs f)) files))) ∧
  (∀ newf, patch_files isabs abspath join_path sep folder filk files = Ret newf →
           length newf = length (List.filter (fun f => negb (isabs f)) files)) ∧
  (∀ f, f ∈ files → isabs f = false → startswith f ("." ++ sep)%string = true →
        ∃ e, patch_files isabs abspath join_path sep folder filk files = Raise e ∧
             exn_cls e = AssertionError).
Proof.
  unfold patch_files. split; [|split].
  - intros Hall. by rewrite patch_files_fold.
  - intros newf H. by apply patch_files_length in H.
  - intros f Hin Habs Hdot. by eapply patch_files_raise.
Qed.

End PresetFacts.

Import SampleSchema.

Lemma schema_3to4_returns_witness : Forall convertible schema_v3.
Proof.
  apply (proj1 (schema_3to4_returns metadata_v5 schema_v3)).
  eexists. vm_compute. reflexivity.
Defined.

Lemma schema_3to4_steps_witness :
  ∃ new old' steps,
    schema_3to4 metadata_v5 schema_v3 = Ok (new, old') ∧
    new = PDict [("metadata", new_metadata metadata_v5); ("steps", PList steps)] ∧
    subscript (new_metadata metadata_v5) "version" = Ok (PStr "4.1") ∧
    length steps = length schema_v3 ∧ length old' = length schema_v3 ∧
    ∀ (i : nat) d, schema_v3 !! i = Some (PDict d) →
      ∃ ns datagram,
        steps !! i = Some (PDict ns) ∧
        dict_get d "datagram" = Some datagram ∧
        dict_get ns "parser"
          = Some (if eq_str datagram "gctrace" then PStr "chromtrace" else datagram) ∧
        dict_get ns "parser" ≠ Some (PStr "gctrace") ∧
        dict_get ns "tag" = match dict_get d "export" with
                            | Some PNone | None => None
                            | Some v => Some v
                            end ∧
        dict_mem ns "input" = true ∧
        dict_keys ns
          = List.filter (dict_mem ns) ["parser"; "input"; "tag"; "parameters"].
Proof.
  assert (∃ r, schema_3to4 metadata_v5 schema_v3 = Ok r) as [[new old'] Hr]
    by (eexists; vm_compute; reflexivity).
  destruct (schema_3to4_steps metadata_v5 schema_v3 new old' Hr) as (steps & H).
  by exists new, old', steps.
Defined.

Lemma schema_3to4_import_witness :
  ∃ new old' steps ns d' import',
    schema_3to4 metadata_v5 schema_v3 = Ok (new, old') ∧
    subscript new "steps" = Ok (PList steps) ∧
    steps !! 0%nat = Some (PDict ns) ∧
    dict_get ns "input" = Some (PDict import') ∧
    old' !! 0%nat = Some (PDict d') ∧
    dict_get d' "import" = Some (PDict import') ∧
    dict_keys d' = dict_keys step_gc ∧
    (∀ k, k ≠ "import" → dict_get d' k = dict_get step_gc k) ∧
    dict_get import' "paths" = None ∧
    (∀ v, dict_get import_gc "paths" = Some v → dict_get import' "files" = Some v) ∧
    (dict_get import_gc "paths" = None → import' = import_gc) ∧
    (∀ k, k ≠ "paths" → k ≠ "files" → dict_get import' k = dict_get import_gc k).
Proof.
  assert (∃ r, schema_3to4 metadata_v5 schema_v3 = Ok r) as [[new old'] Hr]
    by (eexists; vm_compute; reflexivity).
  assert (Hnd : NoDup (dict_keys import_gc)).
  { cbn. apply NoDup_cons. split; [|apply NoDup_singleton].
    by intros [=]%list_elem_of_singleton. }
  destruct (schema_3to4_import metadata_v5 schema_v3 new old' 0 step_gc import_gc
              Hr eq_refl eq_refl Hnd) as (steps & ns & d' & import' & H).
  by exists new, old', steps, ns, d', import'.
Defined.

Lemma schema_3to4_parameters_witness :
  ∃ new old' steps ns left,
    schema_3to4 metadata_v5 schema_v3 = Ok (new, old') ∧
    subscript new "steps" = Ok (PList steps) ∧
    steps !! 0%nat = Some (PDict ns) ∧
    left = List.filter (fun kv => kept (fst kv) (snd kv)) parameters_gc ∧
    dict_get ns "parameters"
      = match left with [] => None | _ => Some (PDict left) end ∧
    (∀ k, k ∈ ["Tcalfile"; "MFCcalfile"; "calfile"] → dict_get left k = None) ∧
    dict_get left "method" ≠ Some (PStr "q0refl") ∧
    (∀ k v, k ∉ ["Tcalfile"; "MFCcalfile"; "calfile"; "method"] →
            dict_get parameters_gc k = Some v → dict_get left k = Some v).
Proof.
  assert (∃ r, schema_3to4 metadata_v5 schema_v3 = Ok r) as [[new old'] Hr]
    by (eexists; vm_compute; reflexivity).
  assert (Hnd : NoDup (dict_keys parameters_gc)).
  { cbn. repeat (apply NoDup_cons; split; [set_solver|]). apply NoDup_nil_2. }
  destruct (schema_3to4_parameters metadata_v5 schema_v3 new old' 0 step_gc
              parameters_gc Hr eq_refl eq_refl Hnd) as (steps & ns & left & H).
  by exists new, old', steps, ns, left.
Defined.

Lemma patch_files_relative_only_witness :
  patch_files posix_isabs id posix_join "/" "/data" "files"
              ["run1.dat"; "/srv/run2.dat"; "gc/run3.dat"]
  = Ret ["/data/run1.dat"; "/data/gc/run3.dat"].
Proof.
  apply (proj1 (patch_files_relative_only posix_isabs id posix_join "/" "/data"
                  "files" ["run1.dat"; "/srv/run2.dat"; "gc/run3.dat"])).
  repeat constructor.
Defined.

End UtilsFacts.
